(** * EvtFilter: a shallow embedding of [evtfilter.py]

    The development follows the source file top-down: the text helpers the
    script borrows from Python ([str.split], [str.replace], the iteration
    over the lines of a text), the world and the library the script talks
    to, the Filter Spec Loader [_load_id_list], the Error Reporter
    [_log_error], the Record Filter and Normaliser [_filter_frame], the
    encoding detector [_detect_xml_encoding], the reader [_safe_read_xml],
    the [_worker] and the aggregation done by [main].

    Conventions.
    - Python [str] values are Rocq strings.  Characters outside ASCII are
      carried as their UTF-8 bytes; [split] and [replace] at the comma
      commute with that encoding.  [str.strip], [int] and the functions of
      [os.path], whose answers depend on the Unicode tables and on the
      platform, are taken from the library record [PyLib].
    - Python [bytes] values are [list byte].
    - Python integers are [Z].
    - Exceptions are values of [exn]; effectful code lives in the monad [M],
      which threads a [World] and keeps its changes when an exception is
      raised, as Python does. *)

From Stdlib Require Import ZArith List String Ascii Strings.Byte Bool Lia.
From stdpp Require Import gmap strings pretty sorting.
Import ListNotations.
Local Open Scope string_scope.
Local Open Scope Z_scope.

(** ** Python text *)

Module PyStr.

(** Truthiness of a [str]: the empty string is false. *)
Definition truthy (s : string) : bool :=
  match s with EmptyString => false | _ => true end.

(** [s.split(sep)] for a one-character separator: never returns the empty
    list, and keeps empty fields. *)
Fixpoint split (sep : ascii) (s : string) : list string :=
  match s with
  | EmptyString => [EmptyString]
  | String c r =>
      if Ascii.eqb c sep then EmptyString :: split sep r
      else match split sep r with
           | h :: t => String c h :: t
           | [] => [String c EmptyString]
           end
  end.

Definition newline : ascii := ascii_of_nat 10.
Definition comma : ascii := ascii_of_nat 44.

(** Iterating a text file: the lines, each with its terminator; a last line
    without terminator is yielded when it is not empty. *)
Fixpoint lines (s : string) : list string :=
  match s with
  | EmptyString => []
  | String c r =>
      if Ascii.eqb c newline then String c EmptyString :: lines r
      else match lines r with
           | h :: t => String c h :: t
           | [] => [String c EmptyString]
           end
  end.

(** [s.replace(old, new)] for a one-character [old]. *)
Fixpoint replace (old : ascii) (new : string) (s : string) : string :=
  match s with
  | EmptyString => EmptyString
  | String c r =>
      if Ascii.eqb c old then new ++ replace old new r
      else String c (replace old new r)
  end.

(** [c in s] for a one-character [c]. *)
Fixpoint contains (c : ascii) (s : string) : bool :=
  match s with
  | EmptyString => false
  | String d r => Ascii.eqb d c || contains c r
  end.

End PyStr.

(** ** Exceptions, the world and the effect monad *)

(** The exception classes the script can meet.  [KeyboardInterrupt] and
    [SystemExit] derive from [BaseException] only, the others from
    [Exception]; [UnicodeDecodeError] derives from [ValueError].  [Stalled]
    is no exception of Python: it is the outcome of a run that never
    returns, which only [pool_map] produces and nothing catches. *)
Inductive exn : Type :=
  | ValueError (msg : string)
  | UnicodeDecodeError (msg : string)
  | TypeError (msg : string)
  | OSError (msg : string)
  | LookupError (msg : string)
  | NameError (name : string)
  | AttributeError (msg : string)
  | XPathError (msg : string)
  | OtherException (msg : string)
  | KeyboardInterrupt
  | SystemExit (msg : string)
  | Stalled.

Definition is_Exception (e : exn) : bool :=
  match e with
  | KeyboardInterrupt | SystemExit _ | Stalled => false
  | _ => true
  end.

Definition is_XPathError (e : exn) : bool :=
  match e with XPathError _ => true | _ => false end.

Definition is_ValueError (e : exn) : bool :=
  match e with ValueError _ | UnicodeDecodeError _ => true | _ => false end.

(** [str(exc)] *)
Definition exn_str (e : exn) : string :=
  match e with
  | ValueError m | UnicodeDecodeError m | TypeError m | OSError m
  | LookupError m | AttributeError m
  | XPathError m | OtherException m | SystemExit m => m
  | NameError n => "name '" ++ n ++ "' is not defined"
  | KeyboardInterrupt | Stalled => ""
  end.

Inductive result (A : Type) : Type :=
  | Ok (a : A)
  | Raise (e : exn).
Arguments Ok {A} a.
Arguments Raise {A} e.

Inductive level : Type := INFO | WARNING | ERROR.

Inductive node : Type :=
  | Dir
  | File (content : list byte).

(** What an observer of a run can see, oldest first: the calls made to the
    logging subsystem, the lines appended to the error log, the decoder
    calls, the temporary directories made and the removals asked for, the
    table written, and an output file that a failed write left behind. *)
Inductive event : Type :=
  | Logged (lv : level) (msg : string)
  | Appended (path : string) (text : string)
  | Spawned (cmd : list string)
  | Mkdtemp (d : string)
  | Rmtree (d : string)
  | WroteCsv (path : string) (header : list string) (n_rows : nat)
  | TruncatedCsv (path : string).

Record World : Type := mkWorld {
  fs : gmap string node;
  trace : list event
}.

Definition M (A : Type) : Type := World -> result A * World.

Definition ret {A} (a : A) : M A := fun w => (Ok a, w).
Definition raise {A} (e : exn) : M A := fun w => (Raise e, w).
Definition bind {A B} (c : M A) (k : A -> M B) : M B :=
  fun w => match c w with
           | (Ok a, w') => k a w'
           | (Raise e, w') => (Raise e, w')
           end.
Definition lift {A} (r : result A) : M A := fun w => (r, w).

Notation "'let*' x ':=' c 'in' k" := (bind c (fun x => k))
  (at level 10, x name, c at level 100, k at level 200).
Notation "'do' c 'then' k" := (bind c (fun _ => k))
  (at level 10, c at level 100, k at level 200).

(** [try: c except <classes matched by handles>: h exc] *)
Definition try_except {A} (c : M A) (handles : exn -> bool) (h : exn -> M A) : M A :=
  fun w => match c w with
           | (Raise e, w') => if handles e then h e w' else (Raise e, w')
           | r => r
           end.

(** [try: c finally: f].  The clean-up runs on every way out of [c]; an
    exception of the clean-up replaces the outcome of [c]. *)
Definition try_finally {A} (c : M A) (f : M unit) : M A :=
  fun w => match c w with
           | (r, w') => match f w' with
                        | (Ok _, w'') => (r, w'')
                        | (Raise e, w'') => (Raise e, w'')
                        end
           end.

Definition emit (ev : event) : M unit :=
  fun w => (Ok tt, mkWorld (fs w) (trace w ++ [ev])).

(** What the operating system and the decoder answer.  Every answer may
    depend on the world at the time of the call. *)
Record Env : Type := mkEnv {
  (** [open(path, encoding="utf-8")] and the iteration over its lines: the
      text of the lines it yields, with universal newlines, and the
      exception that ends the reading, if any: [OSError] when the file
      cannot be opened, [UnicodeDecodeError] when its bytes are not UTF-8 *)
  os_read_text : World -> string -> string * option exn;
  (** what the handlers of the root logger do with a record: [Some e] when
      one of them raises [e], as the [FileHandler] that [main] installs
      with [delay=True] does when it cannot open its file *)
  os_logging : World -> level -> string -> option exn;
  (** [open(path, "a", encoding="utf-8")]: [Some e] when it raises [e] *)
  os_open_append : World -> string -> option exn;
  (** [fh.write(text)] and the closing flush *)
  os_write : World -> string -> string -> option exn;
  (** [tempfile.mkdtemp(prefix=...)] *)
  os_mkdtemp : World -> string -> result string;
  (** [uuid.uuid4().hex] *)
  uuid4_hex : World -> string;
  (** [os.link(src, dst)] *)
  os_link : World -> string -> string -> option exn;
  (** [shutil.copy2(src, dst)]: [Some (e, left)] when it raises [e], with
      what it leaves at [dst]: nothing, or the bytes copied so far *)
  shutil_copy2 : World -> string -> string -> option (exn * option (list byte));
  (** the bytes behind a source path, for a link or copy that succeeds *)
  os_source_bytes : World -> string -> list byte;
  (** [subprocess.run(cmd, capture_output=True, text=True)]: the completed
      process (return code, stdout, stderr), or an exception, and the file
      system the black-box decoder leaves behind *)
  subprocess_run : World -> list string -> result (Z * string * string) * gmap string node;
  (** [shutil.rmtree(d, ignore_errors=True)]: the paths it could not
      remove, none when the removal succeeds *)
  os_rmtree : World -> string -> list string;
  (** [os.walk(root)]: directory paths with their file names *)
  os_walk : World -> string -> list (string * list string);
  (** [DataFrame.to_csv(path, ...)]: [Some (e, left)] when it raises [e],
      [left] telling whether a partly written file stays behind *)
  os_to_csv : World -> string -> option (exn * bool)
}.

(** A call of [logging.info], [logging.warning] or [logging.error]: the
    record is handed to the handlers, and what a handler raises comes out
    of the call. *)
Definition logging (env : Env) (lv : level) (msg : string) : M unit :=
  fun w => let w' := mkWorld (fs w) (trace w ++ [Logged lv msg]) in
           match os_logging env w lv msg with
           | Some e => (Raise e, w')
           | None => (Ok tt, w')
           end.

(** ** Tables and the library *)

Inductive dtype : Type := DObject | DInt | DDatetime.

(** A cell.  Timestamps are instants on an integer time line; [VNaT] is the
    missing timestamp and [VNone] the missing value.  Numeric cells are
    integers; floating-point cells are not modelled. *)
Inductive value : Type :=
  | VStr (s : string)
  | VBytes (b : list byte)
  | VInt (z : Z)
  | VTime (t : Z)
  | VNaT
  | VNone.

(** A [DataFrame]: the column labels with their dtype, and the rows, each
    aligned with the columns.  Columns are addressed by the position of
    their label. *)
Record DataFrame : Type := mkDF {
  columns : list (string * dtype);
  rows : list (list value)
}.

Definition names (df : DataFrame) : list string := map fst (columns df).

(** [df.empty]: one of the two axes has length 0. *)
Definition empty (df : DataFrame) : bool :=
  match rows df, columns df with
  | [], _ => true
  | _, [] => true
  | _, _ => false
  end.

(** Position of a label, [None] when [name in df.columns] is false. *)
Fixpoint col_index (name : string) (cols : list (string * dtype)) : option nat :=
  match cols with
  | [] => None
  | (n, _) :: r =>
      if String.eqb n name then Some 0%nat else option_map S (col_index name r)
  end.

Definition cell (k : nat) (r : list value) : value := nth k r VNone.

(** [df[col]] *)
Definition get_col (k : nat) (df : DataFrame) : list value :=
  map (cell k) (rows df).

Definition set_dtype (dt : dtype) (c : string * dtype) : string * dtype := (fst c, dt).

(** [df[col] = series] *)
Definition set_col (k : nat) (dt : dtype) (vals : list value) (df : DataFrame) : DataFrame :=
  mkDF (alter (set_dtype dt) k (columns df))
       (zip_with (fun r v => <[k:=v]> r) (rows df) vals).

(** [df[mask]] *)
Definition bool_index (mask : list bool) (df : DataFrame) : DataFrame :=
  mkDF (columns df) (map snd (List.filter fst (combine mask (rows df)))).

(** [df[name] = scalar]: overwrites the column in place when the label
    exists, appends it otherwise. *)
Definition assign_scalar (name : string) (v : value) (df : DataFrame) : DataFrame :=
  match col_index name (columns df) with
  | Some k => mkDF (alter (set_dtype DObject) k (columns df))
                   (map (fun r => <[k:=v]> r) (rows df))
  | None => mkDF (columns df ++ [(name, DObject)])%list
                 (map (fun r => r ++ [v])%list (rows df))
  end.

(** A column as [pd.to_datetime] returns it: the instants, [None] for
    [NaT], and whether the column carries a time zone. *)
Record Coerced : Type := mkCoerced {
  tz_aware : bool;
  instants : list (option Z)
}.

(** The functions of Python and pandas the script calls and this
    development does not open. *)
Record PyLib : Type := mkLib {
  (** [pd.read_xml(path, xpath="//ROW")] on the bytes of the file *)
  read_xml_bytes : list byte -> result DataFrame;
  (** [pd.read_xml(StringIO(txt), xpath="//ROW")] *)
  read_xml_text : string -> result DataFrame;
  (** [raw.decode(enc, errors="ignore")] *)
  bytes_decode_ignore : string -> list byte -> result string;
  (** [pd.to_datetime(series, errors="coerce")] *)
  to_datetime : list value -> result Coerced;
  (** [str(x)] *)
  py_str : value -> string;
  (** [x.decode("utf-16le", "ignore")] *)
  utf16le_ignore : list byte -> string;
  (** [dt.datetime.strptime(s, "%Y-%m-%d %H:%M:%S")] *)
  strptime : string -> result Z;
  (** [s.strip()] *)
  py_strip : string -> string;
  (** [int(s)]: [None] stands for [ValueError] *)
  py_int : string -> option Z;
  (** [os.path.join(a, b)] *)
  path_join : string -> string -> string;
  (** [os.path.basename(p)] *)
  path_basename : string -> string;
  (** the platform's reading of paths: [p] names the directory [d] or
      something inside it *)
  path_below : string -> string -> bool
}.

(** ** Filter Spec Loader *)

(** [int(x.strip()) for x in xs if x.strip()], consumed from the left: the
    first token [int] rejects raises [ValueError]. *)
Fixpoint int_each (L : PyLib) (xs : list string) : result (list Z) :=
  match xs with
  | [] => Ok []
  | x :: r =>
      if PyStr.truthy (py_strip L x) then
        match py_int L (py_strip L x) with
        | None => Raise (ValueError (py_strip L x))
        | Some n => match int_each L r with
                    | Ok l => Ok (n :: l)
                    | Raise e => Raise e
                    end
        end
      else int_each L r
  end.

(** Truthiness of an [Optional[str]]: [None] and the empty string are false. *)
Definition given (o : option string) : option string :=
  match o with
  | Some s => if PyStr.truthy s then Some s else None
  | None => None
  end.

(** [with open(path, encoding="utf-8") as f: ... for line in f ...]: the
    lines the file yields are consumed one by one, so a line [int] rejects
    raises before an exception that ends the reading later on. *)
Definition read_ids (env : Env) (L : PyLib) (path : string) : M (list Z) :=
  fun w => let '(txt, failure) := os_read_text env w path in
           match int_each L (PyStr.lines txt), failure with
           | Raise e, _ => (Raise e, w)
           | Ok _, Some e => (Raise e, w)
           | Ok ids, None => (Ok ids, w)
           end.

Definition _load_id_list (env : Env) (L : PyLib) (arg_val file_path : option string)
  : M (option (list Z)) :=
  let* ids1 := match given arg_val with
               | Some a => lift (int_each L (PyStr.split PyStr.comma a))
               | None => ret []
               end in
  let* ids2 := match given file_path with
               | Some p => read_ids env L p
               | None => ret []
               end in
  ret (match (ids1 ++ ids2)%list with
       | [] => None
       | ids => Some ids
       end).

(** ** Error Reporter *)

Definition append_line (env : Env) (path text : string) : M unit :=
  fun w => match os_open_append env w path with
           | Some e => (Raise e, w)
           | None =>
               match os_write env w path text with
               | Some e => (Raise e, w)
               | None => (Ok tt, mkWorld (fs w) (trace w ++ [Appended path text]))
               end
           end.

Definition _log_error (env : Env) (log_file msg : string) : M unit :=
  do logging env ERROR msg then
  try_except (append_line env log_file (msg ++ String PyStr.newline ""))
             is_Exception (fun _ => ret tt).

(** ** Record Filter and Normaliser *)

Definition of_coerced (o : option Z) : value :=
  match o with Some t => VTime t | None => VNaT end.

(** [series >= start] and [series <= end]: a comparison with [NaT] is false. *)
Definition ge_bound (bound : Z) (v : value) : bool :=
  match v with VTime t => bound <=? t | _ => false end.
Definition le_bound (bound : Z) (v : value) : bool :=
  match v with VTime t => t <=? bound | _ => false end.

(** Lines 104-106.  The bounds are naive [datetime] values: comparing a
    column that carries a time zone with them raises [TypeError]. *)
Definition time_filter (L : PyLib) (start end_ : Z) (df : DataFrame) : result DataFrame :=
  match col_index "TimeGenerated" (columns df) with
  | Some k =>
      match to_datetime L (get_col k df) with
      | Raise e => Raise e
      | Ok c =>
          let df1 := set_col k DDatetime (map of_coerced (instants c)) df in
          if tz_aware c then
            Raise (TypeError "Invalid comparison between tz-aware and tz-naive")
          else
            Ok (bool_index (map (fun v => ge_bound start v && le_bound end_ v)
                                (get_col k df1)) df1)
      end
  | None => Ok df
  end.

(** [series.isin(ids)] for a list of integers. *)
Definition isin (ids : list Z) (v : value) : bool :=
  match v with
  | VInt z => existsb (Z.eqb z) ids
  | _ => false
  end.

Definition include_filter (incl : option (list Z)) (df : DataFrame) : DataFrame :=
  match incl, col_index "EventID" (columns df) with
  | Some ids, Some k => bool_index (map (isin ids) (get_col k df)) df
  | _, _ => df
  end.

Definition exclude_filter (excl : option (list Z)) (df : DataFrame) : DataFrame :=
  match excl, col_index "EventID" (columns df) with
  | Some ids, Some k => bool_index (map (fun v => negb (isin ids v)) (get_col k df)) df
  | _, _ => df
  end.

Definition eventid_filter (incl excl : option (list Z)) (df : DataFrame) : DataFrame :=
  exclude_filter excl (include_filter incl df).

(** The lambda applied to every cell of an object column, followed by
    [.str.replace(",", placeholder, regex=False)]. *)
Definition to_text (L : PyLib) (x : value) : string :=
  match x with
  | VBytes b => utf16le_ignore L b
  | _ => py_str L x
  end.

Definition norm_cell (L : PyLib) (placeholder : string) (x : value) : value :=
  VStr (PyStr.replace PyStr.comma placeholder (to_text L x)).

Fixpoint norm_row (L : PyLib) (placeholder : string)
    (cols : list (string * dtype)) (r : list value) : list value :=
  match cols, r with
  | (_, DObject) :: cs, x :: xs => norm_cell L placeholder x :: norm_row L placeholder cs xs
  | _ :: cs, x :: xs => x :: norm_row L placeholder cs xs
  | _, _ => r
  end.

Definition normalise (L : PyLib) (placeholder : string) (df : DataFrame) : DataFrame :=
  mkDF (columns df) (map (norm_row L placeholder (columns df)) (rows df)).

Definition _filter_frame (L : PyLib) (df : DataFrame) (start end_ : Z)
    (incl excl : option (list Z)) (placeholder : string) : result DataFrame :=
  match time_filter L start end_ df with
  | Ok df1 => Ok (normalise L placeholder (eventid_filter incl excl df1))
  | Raise e => Raise e
  end.

(** ** Encoding detector *)

Module Enc.

Definition quote : byte := x22.

(** The literal part of [ENC_RE]: [encoding=] and the opening quote. *)
Definition keyword : list byte := (list_byte_of_string "encoding=" ++ [quote])%list.

(** ASCII lower case of a byte, as [re.I] on a bytes pattern and
    [str.lower] on ASCII text use it. *)
Definition lower (b : byte) : byte :=
  let n := Byte.to_N b in
  if ((65 <=? n) && (n <=? 90))%N then
    match Byte.of_N (n + 32) with Some b' => b' | None => b end
  else b.

Fixpoint starts_with (p l : list byte) : bool :=
  match p, l with
  | [], _ => true
  | a :: p', b :: l' => Byte.eqb a b && starts_with p' l'
  | _ :: _, [] => false
  end.

Fixpoint starts_with_ci (p l : list byte) : bool :=
  match p, l with
  | [], _ => true
  | a :: p', b :: l' => Byte.eqb (lower a) (lower b) && starts_with_ci p' l'
  | _ :: _, [] => false
  end.

(** The longest run of bytes other than the quote, and what follows it. *)
Fixpoint break_quote (l : list byte) : list byte * list byte :=
  match l with
  | [] => ([], [])
  | b :: t => if Byte.eqb b quote then ([], l)
              else let '(g, rest) := break_quote t in (b :: g, rest)
  end.

(** [ENC_RE] matched at the head of [l]: the keyword, then group 1, one or
    more bytes other than the quote, then the closing quote. *)
Definition match_at (l : list byte) : option (list byte) :=
  if starts_with_ci keyword l then
    match break_quote (skipn (length keyword) l) with
    | (b :: g, _ :: _) => Some (b :: g)
    | _ => None
    end
  else None.

(** [ENC_RE.search(l)]: group 1 of the leftmost match. *)
Fixpoint search (l : list byte) : option (list byte) :=
  match match_at l with
  | Some g => Some g
  | None => match l with
            | [] => None
            | _ :: t => search t
            end
  end.

(** [g.decode("ascii", "ignore").lower()] *)
Definition ascii_lower (g : list byte) : string :=
  string_of_list_byte
    (map lower (List.filter (fun b => (Byte.to_N b <? 128)%N) g)).

Definition utf16_aliases : list string :=
  ["iso-10646-ucs-2"; "utf-16"; "utf-16le"; "utf-16be"; "ucs-2"; "unicode"].

End Enc.

Definition _detect_xml_encoding (raw : list byte) : string :=
  if Enc.starts_with [xff; xfe] raw then "utf-16le"
  else if Enc.starts_with [xfe; xff] raw then "utf-16be"
  else match Enc.search (firstn 200 raw) with
       | Some g =>
           let enc := Enc.ascii_lower g in
           if existsb (String.eqb enc) Enc.utf16_aliases then "utf-16le"
           else enc
       | None => "utf-8"
       end.

(** ** Encoding-resilient reader *)

(** [open(path, "rb").read()], also the way [pd.read_xml] gets at a path. *)
Definition read_bytes (path : string) : M (list byte) :=
  fun w => match fs w !! path with
           | Some (File content) => (Ok content, w)
           | _ => (Raise (OSError path), w)
           end.

(** In the first [try], [Some r] stands for [return r] and [None] for the
    [pass] that lets control fall through to the manual decode.  In the
    second handler the source returns the name [Non], which is bound
    nowhere: evaluating it raises [NameError]. *)
Definition _safe_read_xml (L : PyLib) (path : string) : M (option DataFrame) :=
  let* fast :=
    try_except
      (let* raw := read_bytes path in
       let* df := lift (read_xml_bytes L raw) in
       ret (Some (Some df)))
      (fun e => is_XPathError e || is_ValueError e)
      (fun _ => ret None) in
  match fast with
  | Some r => ret r
  | None =>
      let* raw := read_bytes path in
      let enc := _detect_xml_encoding raw in
      let* txt := lift (bytes_decode_ignore L enc raw) in
      try_except
        (let* df := lift (read_xml_text L txt) in ret (Some df))
        is_XPathError
        (fun _ => raise (NameError "Non"))
  end.

(** ** Safe staging and the decoder command *)

(** [re.sub(r"%+", "_", s)]: every maximal run of percent signs becomes one
    underscore.  [in_run] tells whether the previous character was one. *)
Fixpoint sub_percent (in_run : bool) (s : string) : string :=
  match s with
  | EmptyString => EmptyString
  | String c r =>
      if Ascii.eqb c "%" then
        if in_run then sub_percent true r else String "_" (sub_percent true r)
      else String c (sub_percent false r)
  end.

Definition is_OSError (e : exn) : bool :=
  match e with OSError _ => true | _ => false end.

Definition is_AttributeError (e : exn) : bool :=
  match e with AttributeError _ => true | _ => false end.

Definition stage (path : string) (content : list byte) : M unit :=
  fun w => (Ok tt, mkWorld (<[path := File content]> (fs w)) (trace w)).

Definition link (env : Env) (src dst : string) : M unit :=
  fun w => match os_link env w src dst with
           | Some e => (Raise e, w)
           | None => stage dst (os_source_bytes env w src) w
           end.

(** A copy that raises may have created the destination already. *)
Definition copy2 (env : Env) (src dst : string) : M unit :=
  fun w => match shutil_copy2 env w src dst with
           | Some (e, Some part) => (Raise e, mkWorld (<[dst := File part]> (fs w)) (trace w))
           | Some (e, None) => (Raise e, w)
           | None => stage dst (os_source_bytes env w src) w
           end.

(** The source's [if "%" in clean_name or ...: pass] does nothing and is
    left out. *)
Definition _safe_copy (env : Env) (L : PyLib) (src dst_dir : string) : M string :=
  let clean_name := sub_percent false (path_basename L src) in
  let* hex := (fun w => (Ok (uuid4_hex env w), w)) in
  let tmp_path := path_join L dst_dir (hex ++ "_" ++ clean_name) in
  do try_except (link env src tmp_path)
                (fun e => is_OSError e || is_AttributeError e)
                (fun _ => copy2 env src tmp_path)
  then ret tmp_path.

Definition _build_lp_cmd (lp src dst_xml : string) : list string :=
  let query := "SELECT * INTO " ++ dst_xml ++ " FROM '" ++ src ++ "'" in
  [lp; query; "-i:EVT"; "-o:XML"; "-structure:1"; "-q:ON"].

(** ** Worker *)

Record Job : Type := mkJob {
  fp : string;
  lp : string;
  sdt : Z;
  edt : Z;
  incl : option (list Z);
  excl : option (list Z);
  ph : string;
  logf : string
}.

Definition mkdtemp (env : Env) (prefix : string) : M string :=
  fun w => match os_mkdtemp env w prefix with
           | Ok d => (Ok d, mkWorld (<[d := Dir]> (fs w)) (trace w ++ [Mkdtemp d]))
           | Raise e => (Raise e, w)
           end.

(** What [shutil.rmtree(d, ignore_errors=True)] leaves of a path: a path
    outside the tree, or one the removal failed on. *)
Definition survives (L : PyLib) (d : string) (left : list string) (p : string) : bool :=
  negb (path_below L d p) || existsb (String.eqb p) left.

(** [shutil.rmtree(d, ignore_errors=True)]: the tree rooted at [d] goes as
    far as the operating system lets it, and the call does not raise. *)
Definition rmtree (env : Env) (L : PyLib) (d : string) : M unit :=
  fun w => (Ok tt,
            mkWorld (filter (fun kv => survives L d (os_rmtree env w d) (fst kv) = true)
                            (fs w))
                    (trace w ++ [Rmtree d])).

Definition run (env : Env) (cmd : list string) : M (Z * string * string) :=
  fun w => let '(r, fs') := subprocess_run env w cmd in
           (r, mkWorld fs' (trace w ++ [Spawned cmd])).

Definition isfile (path : string) : M bool :=
  fun w => (Ok (match fs w !! path with Some (File _) => true | _ => false end), w).

Definition getsize (path : string) : M Z :=
  fun w => match fs w !! path with
           | Some (File content) => (Ok (Z.of_nat (length content)), w)
           | Some Dir => (Ok 0, w)
           | None => (Raise (OSError path), w)
           end.

Definition lp_failure_msg (L : PyLib) (job : Job) (returncode : Z) (out err : string)
  : string :=
  "LogParser failed (" ++ pretty returncode ++ ") on " ++ fp job ++ ":"
  ++ String PyStr.newline ("STDERR: " ++ py_strip L err)
  ++ String PyStr.newline ("STDOUT: " ++ py_strip L out).

(** The body of the [try] of [_worker], after the temporary directory
    exists. *)
Definition _worker_body (env : Env) (L : PyLib) (job : Job) (tmp_dir : string)
  : M (option DataFrame) :=
  let* safe_src := _safe_copy env L (fp job) tmp_dir in
  let tmp_xml := path_join L tmp_dir "lp.xml" in
  let* completed := run env (_build_lp_cmd (lp job) safe_src tmp_xml) in
  let '(returncode, out, err) := completed in
  if negb (returncode =? 0) then
    do _log_error env (logf job) (lp_failure_msg L job returncode out err)
    then ret None
  else
    let* present := isfile tmp_xml in
    let* size := (if present then getsize tmp_xml else ret 0) in
    if negb present || (size =? 0) then
      do logging env INFO (fp job ++ ": log contained 0 events") then ret None
    else
      let* df := _safe_read_xml L tmp_xml in
      match df with
      | Some d =>
          if empty d then
            do logging env INFO (fp job ++ ": no events in selected time-window")
            then ret None
          else
            let* d1 := lift (_filter_frame L d (sdt job) (edt job)
                                           (incl job) (excl job) (ph job)) in
            ret (Some (assign_scalar "SourceFile" (VStr (fp job)) d1))
      | None =>
          do logging env INFO (fp job ++ ": no events in selected time-window")
          then ret None
      end.

Definition _worker (env : Env) (L : PyLib) (job : Job) : M (option DataFrame) :=
  let* tmp_dir := mkdtemp env "evtfilter_" in
  try_finally
    (try_except
       (_worker_body env L job tmp_dir)
       is_Exception
       (fun exc =>
          do _log_error env (logf job)
               ("Exception processing " ++ fp job ++ ": " ++ exn_str exc)
          then ret None))
    (rmtree env L tmp_dir).

(** ** File discovery *)

Definition lower_ascii (c : ascii) : ascii :=
  let n := N_of_ascii c in
  if ((65 <=? n) && (n <=? 90))%N then ascii_of_N (n + 32) else c.

Fixpoint lower_str (s : string) : string :=
  match s with
  | EmptyString => EmptyString
  | String c r => String (lower_ascii c) (lower_str r)
  end.

Definition ends_with (suffix s : string) : bool :=
  let n := String.length s in
  let m := String.length suffix in
  (m <=? n)%nat && String.eqb (substring (n - m) m s) suffix.

(** [s] without one final newline, the place where [$] also matches. *)
Definition chop_newline (s : string) : string :=
  if ends_with (String PyStr.newline "") s
  then substring 0 (String.length s - 1) s else s.

(** [re.compile(r".*\.(evtx?|evt)$", re.I).match(f)] *)
Definition is_event_file (f : string) : bool :=
  let t := lower_str (chop_newline f) in
  negb (PyStr.contains PyStr.newline t) && (ends_with ".evt" t || ends_with ".evtx" t).

Definition _list_event_files (env : Env) (L : PyLib) (root : string) : M (list string) :=
  fun w => (Ok (flat_map (fun '(dp, fs) =>
                            map (path_join L dp) (List.filter is_event_file fs))
                         (os_walk env w root)), w).

(** ** Aggregation and [main] *)

(** The column union of [pd.concat]: labels in the order they are first
    seen, frame after frame. *)
Definition add_unseen (acc : list (string * dtype)) (c : string * dtype)
  : list (string * dtype) :=
  if existsb (String.eqb (fst c)) (map fst acc) then acc else (acc ++ [c])%list.

Definition union_columns (frames : list DataFrame) : list (string * dtype) :=
  fold_left (fun acc f => fold_left add_unseen (columns f) acc) frames [].

(** The rows of a frame laid out on the union columns; a column the frame
    does not have is filled with the missing value.  The cells are carried
    over as they are: the change of dtype that [pd.concat] makes when it
    fills a column is not followed, and of the aggregated table only the
    labels and the number of rows are used below. *)
Definition realign (cols : list (string * dtype)) (f : DataFrame) : list (list value) :=
  map (fun r => map (fun c => match col_index (fst c) (columns f) with
                              | Some k => cell k r
                              | None => VNone
                              end) cols)
      (rows f).

(** [pd.concat(frames, ignore_index=True)] *)
Definition concat (frames : list DataFrame) : DataFrame :=
  let cols := union_columns frames in
  mkDF cols (flat_map (realign cols) frames).

(** [[c for c in agg.columns if c != "SourceFile"] + ["SourceFile"]] *)
Definition output_columns (agg : DataFrame) : list string :=
  (List.filter (fun c => negb (String.eqb c "SourceFile")) (names agg)
   ++ ["SourceFile"])%list.

(** [agg[cols]]: a label that is not a column raises [KeyError]. *)
Fixpoint select_columns (cols : list string) (agg : DataFrame)
  : result (list (string * dtype)) :=
  match cols with
  | [] => Ok []
  | c :: r =>
      match col_index c (columns agg) with
      | None => Raise (OtherException ("KeyError: " ++ c))
      | Some k =>
          match select_columns r agg with
          | Ok l => Ok (nth k (columns agg) (c, DObject) :: l)
          | Raise e => Raise e
          end
      end
  end.

Definition to_csv (env : Env) (path : string) (header : list string) (n : nat) : M unit :=
  fun w => match os_to_csv env w path with
           | Some (e, true) => (Raise e, mkWorld (fs w) (trace w ++ [TruncatedCsv path]))
           | Some (e, false) => (Raise e, w)
           | None => (Ok tt, mkWorld (fs w) (trace w ++ [WroteCsv path header n]))
           end.

(** [Pool.map] cuts the jobs into chunks of consecutive jobs: the quotient
    of their number by four times the number of processes, rounded up. *)
Definition chunk_size (workers : Z) (n_jobs : nat) : nat :=
  let '(q, r) := Z.div_eucl (Z.of_nat n_jobs) (workers * 4) in
  Z.to_nat (if r =? 0 then q else q + 1).

(** The tasks of the pool, written down as one schedule of the parallel
    run: chunk after chunk, and inside a chunk job after job.  [room] is the
    number of jobs the current chunk still takes.  A job that raises ends
    its chunk, whose remaining jobs are skipped; the other chunks are run
    all the same.  The outcome of every job is kept, [None] for a job that
    was skipped. *)
Fixpoint pool_tasks {A B} (f : A -> M B) (size room : nat) (skip : bool)
    (xs : list A) (w : World) : list (option (result B)) * World :=
  match xs with
  | [] => ([], w)
  | x :: r =>
      let room' := match room with O => size | _ => room end in
      let skip' := match room with O => false | _ => skip end in
      if skip' then
        let '(os, w') := pool_tasks f size (room' - 1) true r w in
        (None :: os, w')
      else
        let '(y, w1) := f x w in
        let failed := match y with Ok _ => false | Raise _ => true end in
        let '(os, w2) := pool_tasks f size (room' - 1) failed r w1 in
        (Some y :: os, w2)
  end.

(** A worker process that an exception outside the class [Exception] has
    killed: its chunk never reports. *)
Definition killed {B} (o : option (result B)) : bool :=
  match o with
  | Some (Raise e) => negb (is_Exception e)
  | _ => false
  end.

(** What [map] gives back once every chunk has reported: the exception of
    the first chunk that failed, or the results in the order of the jobs. *)
Fixpoint gather {B} (os : list (option (result B))) : result (list B) :=
  match os with
  | [] => Ok []
  | Some (Ok y) :: r => match gather r with
                        | Ok ys => Ok (y :: ys)
                        | Raise e => Raise e
                        end
  | Some (Raise e) :: _ => Raise e
  | None :: r => gather r
  end.

(** [pool.map(_worker, pool_args)] with [workers] processes.  The map
    returns when every chunk has reported; a chunk whose process was killed
    never does, and the run stalls.  An interrupt of the parent while the
    pool is at work is outside this model. *)
Definition pool_map {A B} (workers : Z) (f : A -> M B) (xs : list A) : M (list B) :=
  fun w => let '(os, w') := pool_tasks f (chunk_size workers (length xs)) 0 false xs w in
           if existsb killed os then (Raise Stalled, w') else (gather os, w').

Record Namespace : Type := mkNamespace {
  ns_dir : string;
  ns_output : string;
  ns_start_date : string;
  ns_end_date : string;
  ns_event_ids : option string;
  ns_event_ids_file : option string;
  ns_exclude_event_ids : option string;
  ns_exclude_event_ids_file : option string;
  ns_workers : Z;
  ns_placeholder_char : string;
  ns_logparser : string;
  ns_log_file : option string
}.

(** The frames [main] keeps: [df is not None and not df.empty]. *)
Definition kept_frames (results : list (option DataFrame)) : list DataFrame :=
  flat_map (fun o => match o with
                     | Some df => if empty df then [] else [df]
                     | None => []
                     end) results.

(** [main], after [parse_args] has produced the namespace.  The set-up of
    logging opens no file, the handler of the log file being created with
    [delay=True], and leaves no trace of its own. *)
Definition main (env : Env) (L : PyLib) (ns : Namespace) : M unit :=
  let log_file := match given (ns_log_file ns) with
                  | Some f => f
                  | None => ns_output ns ++ ".log"
                  end in
  let* start_dt := lift (strptime L (ns_start_date ns)) in
  let* end_dt := lift (strptime L (ns_end_date ns)) in
  let* inc_ids := _load_id_list env L (ns_event_ids ns) (ns_event_ids_file ns) in
  let* exc_ids := _load_id_list env L (ns_exclude_event_ids ns)
                                (ns_exclude_event_ids_file ns) in
  let* files := _list_event_files env L (ns_dir ns) in
  match files with
  | [] => raise (SystemExit ("No .evt/.evtx files under " ++ ns_dir ns))
  | _ =>
      do logging env INFO ("Scanning " ++ pretty (length files) ++ " files …") then
      let pool_args := map (fun f => mkJob f (ns_logparser ns) start_dt end_dt
                                           inc_ids exc_ids
                                           (ns_placeholder_char ns) log_file) files in
      let* results := (if ns_workers ns <? 1
                       then raise (ValueError "Number of processes must be at least 1")
                       else pool_map (ns_workers ns) (_worker env L) pool_args) in
      match kept_frames results with
      | [] => logging env WARNING "No matching events found."
      | frames =>
          let agg := concat frames in
          let cols := output_columns agg in
          let* _ := lift (select_columns cols agg) in
          do to_csv env (ns_output ns) cols (length (rows agg)) then
          logging env INFO ("Done. " ++ pretty (length (rows agg)) ++ " rows → "
                            ++ ns_output ns)
      end
  end.

(** ** Vocabulary of the statements *)

(** A token or line the loader skips: [str.strip] leaves nothing of it. *)
Definition blank (L : PyLib) (tok : string) : Prop := py_strip L tok = "".

(** A token or line the loader reads and [int] rejects. *)
Definition rejected (L : PyLib) (tok : string) : Prop :=
  py_strip L tok <> "" /\ py_int L (py_strip L tok) = None.

Definition nonblankb (L : PyLib) (tok : string) : bool := PyStr.truthy (py_strip L tok).

(** The tokens of the inline source and the lines of the file source, as
    far as the loader gets to see them. *)
Definition inline_tokens (arg_val : option string) : list string :=
  match given arg_val with
  | Some a => PyStr.split PyStr.comma a
  | None => []
  end.

(** The lines the ID file yields, and the exception that ends its
    reading, if any. *)
Definition file_lines (env : Env) (w : World) (file_path : option string) : list string :=
  match given file_path with
  | Some p => PyStr.lines (fst (os_read_text env w p))
  | None => []
  end.

Definition read_failure (env : Env) (w : World) (file_path : option string) : option exn :=
  match given file_path with
  | Some p => snd (os_read_text env w p)
  | None => None
  end.

Definition ids_of (r : option (list Z)) : list Z :=
  match r with Some l => l | None => [] end.

(** An EventID cell that is one of the integers of a configured set. *)
Definition member (ids : list Z) (v : value) : Prop :=
  exists z, v = VInt z /\ In z ids.

(** The encoding policy, stated on the document. *)

(** [ENC_RE] matches [l] at offset [i] with group 1 equal to [g]: after [i]
    bytes comes the keyword in any letter case, then [g], which is not
    empty and holds no quote, then a quote. *)
Definition declares_at (l : list byte) (i : nat) (g : list byte) : Prop :=
  exists pre kw rest,
    l = (pre ++ kw ++ g ++ Enc.quote :: rest)%list
    /\ length pre = i
    /\ map Enc.lower kw = map Enc.lower Enc.keyword
    /\ g <> []
    /\ ~ In Enc.quote g.

(** [g] is the name the leftmost match declares. *)
Definition declared (l g : list byte) : Prop :=
  exists i, declares_at l i g
            /\ forall j g', (j < i)%nat -> ~ declares_at l j g'.

Definition no_declaration (l : list byte) : Prop :=
  forall i g, ~ declares_at l i g.

Definition has_bom (b1 b2 : byte) (raw : list byte) : Prop :=
  exists rest, raw = b1 :: b2 :: rest.

Definition no_bom (raw : list byte) : Prop :=
  ~ has_bom xff xfe raw /\ ~ has_bom xfe xff raw.

(** The ordered policy: byte-order mark, then the declared name, lowered
    and without its non-ASCII bytes, with the UTF-16 aliases folded into
    little-endian UTF-16, then UTF-8. *)
Inductive detect_policy (raw : list byte) : string -> Prop :=
  | policy_bom_le :
      has_bom xff xfe raw -> detect_policy raw "utf-16le"
  | policy_bom_be :
      has_bom xfe xff raw -> detect_policy raw "utf-16be"
  | policy_alias g :
      no_bom raw -> declared (firstn 200 raw) g ->
      In (Enc.ascii_lower g) Enc.utf16_aliases ->
      detect_policy raw "utf-16le"
  | policy_declared g :
      no_bom raw -> declared (firstn 200 raw) g ->
      ~ In (Enc.ascii_lower g) Enc.utf16_aliases ->
      detect_policy raw (Enc.ascii_lower g)
  | policy_default :
      no_bom raw -> no_declaration (firstn 200 raw) ->
      detect_policy raw "utf-8".


(** Position at which a label is first seen in a sequence of labels; the
    length of the sequence when it never is. *)
Fixpoint first_seen (c : string) (l : list string) : nat :=
  match l with
  | [] => 0%nat
  | x :: r => if String.eqb x c then 0%nat else S (first_seen c r)
  end.

(** The per-file schemas, one after the other. *)
Definition observed (frames : list DataFrame) : list string :=
  flat_map names frames.

Definition seen_before (frames : list DataFrame) (a b : string) : Prop :=
  (first_seen a (observed frames) < first_seen b (observed frames))%nat.

Definition is_rmtree (ev : event) : bool :=
  match ev with Rmtree _ => true | _ => false end.

(** A computation that only adds events to the trace, none of them the
    removal of a tree. *)
Definition quiet {A} (c : M A) : Prop :=
  forall w r w',
    c w = (r, w') ->
    exists evs, trace w' = (trace w ++ evs)%list
                /\ Forall (fun ev => is_rmtree ev = false) evs.

(** ** Fixtures for the concrete runs *)

Module Fixtures.

Definition w0 : World := mkWorld ∅ [].

(** An operating system with one ID file, [ids.txt], which is empty, in
    which every call succeeds and the decoder leaves [doc] at [dst]. *)
Definition env_ok (dst : string) (doc : list byte) : Env :=
  mkEnv (fun _ p => if String.eqb p "ids.txt" then ("", None)
                    else ("", Some (OSError p)))
        (fun _ _ _ => None)
        (fun _ _ => None) (fun _ _ _ => None)
        (fun _ prefix => Ok ("/tmp/" ++ prefix ++ "0"))
        (fun _ => "c0ffee")
        (fun _ _ _ => None) (fun _ _ _ => None)
        (fun _ _ => [])
        (fun w _ => (Ok (0, "", ""), <[dst := File doc]> (fs w)))
        (fun _ _ => [])
        (fun _ _ => [("logs", ["a.evtx"])])
        (fun _ _ => None).

(** The same, with an error log that cannot be opened. *)
Definition env_broken_log : Env :=
  mkEnv (fun _ p => ("", Some (OSError p)))
        (fun _ _ _ => None)
        (fun _ p => Some (OSError p)) (fun _ _ _ => None)
        (fun _ prefix => Ok ("/tmp/" ++ prefix ++ "0"))
        (fun _ => "c0ffee")
        (fun _ _ _ => None) (fun _ _ _ => None)
        (fun _ _ => [])
        (fun w _ => (Ok (1, "", "boom"), fs w))
        (fun _ _ => [])
        (fun _ _ => [("logs", ["a.evtx"])])
        (fun _ _ => None).

(** An operating system in which the log file cannot be opened: the
    handler of the log file raises at every record, and so does the opening
    of the error log, which is the same file. *)
Definition env_unopenable_log : Env :=
  mkEnv (fun _ p => ("", Some (OSError p)))
        (fun _ _ _ => Some (OSError "out.csv.log"))
        (fun _ p => Some (OSError p)) (fun _ _ _ => None)
        (fun _ prefix => Ok ("/tmp/" ++ prefix ++ "0"))
        (fun _ => "c0ffee")
        (fun _ _ _ => None) (fun _ _ _ => None)
        (fun _ _ => [])
        (fun w _ => (Ok (0, "", ""), fs w))
        (fun _ _ => [])
        (fun _ _ => [("logs", ["a.evtx"])])
        (fun _ _ => None).

(** An operating system in which the staged file cannot be removed. *)
Definition env_locked (dst : string) (doc : list byte) : Env :=
  mkEnv (fun _ p => ("", Some (OSError p)))
        (fun _ _ _ => None)
        (fun _ _ => None) (fun _ _ _ => None)
        (fun _ prefix => Ok ("/tmp/" ++ prefix ++ "0"))
        (fun _ => "c0ffee")
        (fun _ _ _ => None) (fun _ _ _ => None)
        (fun _ _ => [])
        (fun w _ => (Ok (0, "", ""), <[dst := File doc]> (fs w)))
        (fun _ d => [d; d ++ "/c0ffee_a.evtx"])
        (fun _ _ => [("logs", ["a.evtx"])])
        (fun _ _ => None).

Definition tmp_xml : string := "/tmp/evtfilter_0/lp.xml".

Definition doc_no_rows : list byte := list_byte_of_string "<ROOT/>".

Definition str_simple (v : value) : string :=
  match v with
  | VStr s => s
  | VInt z => pretty z
  | VTime t => pretty t
  | VNaT => "NaT"
  | _ => "None"
  end.

(** [str.strip] and [int] on the ASCII texts of the concrete runs. *)

(** [str.isspace] on the ASCII range: TAB..CR, FS..US and the blank. *)
Definition is_space (c : ascii) : bool :=
  let n := N_of_ascii c in
  ((9 <=? n) && (n <=? 13) || (28 <=? n) && (n <=? 32))%N.

Definition is_digit (c : ascii) : bool :=
  let n := N_of_ascii c in ((48 <=? n) && (n <=? 57))%N.

Definition digit_val (c : ascii) : Z := Z.of_N (N_of_ascii c) - 48.

Fixpoint lstrip (s : string) : string :=
  match s with
  | EmptyString => EmptyString
  | String c r => if is_space c then lstrip r else s
  end.

(** [rstrip] keeps a character when it is not a blank or when something
    survives to its right. *)
Fixpoint rstrip (s : string) : string :=
  match s with
  | EmptyString => EmptyString
  | String c r =>
      match rstrip r with
      | EmptyString => if is_space c then EmptyString else String c EmptyString
      | r' => String c r'
      end
  end.

Definition ascii_strip (s : string) : string := rstrip (lstrip s).

(** Digits of a base-10 literal as [int] reads them: one underscore is
    allowed between two digits.  [prev] tells whether the previous character
    was a digit. *)
Fixpoint parse_digits (acc : Z) (prev : bool) (s : string) : option Z :=
  match s with
  | EmptyString => if prev then Some acc else None
  | String c r =>
      if is_digit c then parse_digits (10 * acc + digit_val c) true r
      else if Ascii.eqb c "_" && prev then
        match r with
        | String d _ => if is_digit d then parse_digits acc false r else None
        | EmptyString => None
        end
      else None
  end.

Definition ascii_int (s : string) : option Z :=
  match ascii_strip s with
  | EmptyString => None
  | String c r =>
      if Ascii.eqb c "+" then parse_digits 0 false r
      else if Ascii.eqb c "-" then option_map Z.opp (parse_digits 0 false r)
      else parse_digits 0 false (String c r)
  end.

(** [posixpath.join] of two components. *)
Definition posix_join (a b : string) : string :=
  if String.prefix "/" b then b
  else if String.eqb a "" || String.eqb (substring (String.length a - 1) 1 a) "/"
       then a ++ b
       else a ++ "/" ++ b.

(** [posixpath.basename]: what follows the last slash. *)
Fixpoint posix_basename (s : string) : string :=
  match s with
  | EmptyString => EmptyString
  | String c r =>
      if PyStr.contains "/" r then posix_basename r
      else if Ascii.eqb c "/" then r
      else s
  end.

Definition posix_below (d p : string) : bool :=
  String.eqb p d || String.prefix (d ++ "/") p.

(** Timestamps written as decimal instants, without a time zone; anything
    else is coerced to [NaT]. *)
Definition to_datetime_simple (l : list value) : result Coerced :=
  Ok (mkCoerced false
        (map (fun v => match v with
                       | VStr s => ascii_int s
                       | VTime t => Some t
                       | _ => None
                       end) l)).

(** Timestamps written with a UTC offset, as seconds after the epoch: the
    parsed column carries a time zone. *)
Definition to_datetime_utc (l : list value) : result Coerced :=
  Ok (mkCoerced true
        (map (fun v => match v with
                       | VStr "1970-01-01 00:00:05+00:00" => Some 5
                       | VStr "1970-01-01 00:00:50+00:00" => Some 50
                       | _ => None
                       end) l)).

Definition df_utc : DataFrame :=
  mkDF [("EventID", DInt); ("TimeGenerated", DObject)]
       [[VInt 4624; VStr "1970-01-01 00:00:05+00:00"];
        [VInt 4625; VStr "1970-01-01 00:00:50+00:00"]].

Definition lib_with (to_dt : list value -> result Coerced) (fast slow : result DataFrame)
  : PyLib :=
  mkLib (fun _ => fast) (fun _ => slow)
        (fun _ b => Ok (string_of_list_byte b))
        to_dt str_simple string_of_list_byte
        (fun s => match ascii_int s with
                  | Some t => Ok t
                  | None => Raise (ValueError s)
                  end)
        ascii_strip ascii_int posix_join posix_basename posix_below.

Definition lib_of (fast slow : result DataFrame) : PyLib :=
  lib_with to_datetime_simple fast slow.

Definition no_rows : result DataFrame :=
  Raise (XPathError "xpath does not return any nodes").

Definition df_events : DataFrame :=
  mkDF [("EventID", DInt); ("TimeGenerated", DObject); ("Message", DObject)]
       [[VInt 4624; VStr "5"; VStr "logon, interactive"];
        [VInt 4625; VStr "7"; VStr "failure"];
        [VInt 4624; VStr "50"; VStr "late"];
        [VInt 4624; VStr "soon"; VStr "unparsable"]].

Definition job_of (path : string) : Job :=
  mkJob path "LogParser.exe" 0 10 None None "§" "run.log".

Definition bytes (s : string) : list byte := list_byte_of_string s.

(** [<?xml version="1.0" encoding="Windows-1252"?><ROOT/>] *)
Definition doc_cp1252 : list byte :=
  (bytes "<?xml version=" ++ [Enc.quote] ++ bytes "1.0" ++ [Enc.quote]
   ++ bytes " encoding=" ++ [Enc.quote] ++ bytes "Windows-1252" ++ [Enc.quote]
   ++ bytes "?><ROOT/>")%list.

Definition ns_bad_ids : Namespace :=
  mkNamespace "logs" "out.csv" "0" "10" (Some "1,x") None None None 2 "§"
              "LogParser.exe" None.

End Fixtures.

(** ** Vocabulary of the further properties *)

(** [sep.join(l)] *)
Fixpoint join (sep : string) (l : list string) : string :=
  match l with
  | [] => ""
  | [x] => x
  | x :: r => x ++ sep ++ join sep r
  end.

(** The path [_safe_copy] stages [src] at, for the random component [hex]. *)
Definition staged_path (L : PyLib) (dst_dir hex src : string) : string :=
  path_join L dst_dir (hex ++ "_" ++ sub_percent false (path_basename L src)).

(** The events that touch neither the temporary directories nor the output:
    log records, appended lines and decoder calls. *)
Definition is_plain (ev : event) : bool :=
  match ev with
  | Logged _ _ | Appended _ _ | Spawned _ => true
  | _ => false
  end.

(** A computation that only adds events to the trace, all of them among
    those [P] accepts. *)
Definition emits (P : event -> bool) {A} (c : M A) : Prop :=
  forall w r w',
    c w = (r, w') ->
    exists evs, trace w' = (trace w ++ evs)%list
                /\ Forall (fun ev => P ev = true) evs.

(** What one job adds to the trace: nothing when the temporary directory
    could not be created; otherwise its creation, plain events, and the
    call that removes it. *)
Inductive worker_block : list event -> Prop :=
  | block_none : worker_block []
  | block_job d evs :
      Forall (fun ev => is_plain ev = true) evs ->
      worker_block (Mkdtemp d :: evs ++ [Rmtree d]).

Definition creates (d : string) (ev : event) : bool :=
  match ev with Mkdtemp d' => String.eqb d' d | _ => false end.

Definition removes (d : string) (ev : event) : bool :=
  match ev with Rmtree d' => String.eqb d' d | _ => false end.

Definition is_csv (ev : event) : bool :=
  match ev with WroteCsv _ _ _ => true | _ => false end.

Definition count (p : event -> bool) (evs : list event) : nat :=
  length (List.filter p evs).

(** The ways a run of [main] that returns can go, with what it adds to the
    trace when it writes to [out]: it finds nothing and warns, or it writes
    the table. *)
Inductive main_returns (out : string) : list event -> Prop :=
  | run_nothing msg blocks :
      Forall worker_block blocks ->
      main_returns out
        (Logged INFO msg :: List.concat blocks
         ++ [Logged WARNING "No matching events found."])
  | run_written msg blocks header n msg' :
      Forall worker_block blocks ->
      (exists pre, header = (pre ++ ["SourceFile"])%list) ->
      main_returns out
        (Logged INFO msg :: List.concat blocks
         ++ [WroteCsv out header n; Logged INFO msg']).

(** ** Fixtures for the further runs *)

Module Runs.

Definition env := Fixtures.env_ok Fixtures.tmp_xml Fixtures.doc_no_rows.

Definition tmp_dir : string := "/tmp/evtfilter_0".

(** The world right after the temporary directory has been created. *)
Definition w_dir : World := mkWorld {[ tmp_dir := Dir ]} [Mkdtemp tmp_dir].

Definition staged : string := "/tmp/evtfilter_0/c0ffee_a.evtx".

(** The world right after [a.evtx] has been staged. *)
Definition w_staged : World :=
  mkWorld (<[ staged := File [] ]> {[ tmp_dir := Dir ]}) [Mkdtemp tmp_dir].

(** An operating system in which the hard link is interrupted. *)
Definition env_interrupted : Env :=
  mkEnv (fun _ p => ("", Some (OSError p)))
        (fun _ _ _ => None)
        (fun _ _ => None) (fun _ _ _ => None)
        (fun _ prefix => Ok ("/tmp/" ++ prefix ++ "0"))
        (fun _ => "c0ffee")
        (fun _ _ _ => Some KeyboardInterrupt) (fun _ _ _ => None)
        (fun _ _ => [])
        (fun w _ => (Ok (0, "", ""), fs w))
        (fun _ _ => [])
        (fun _ _ => [("logs", ["notes.txt"; "a.evt.bak"])])
        (fun _ _ => None).

(** An operating system that refuses the hard link across drives and
    whose disk fills up during the copy, leaving an empty file behind. *)
Definition env_disk_full : Env :=
  mkEnv (fun _ p => ("", Some (OSError p)))
        (fun _ _ _ => None)
        (fun _ _ => None) (fun _ _ _ => None)
        (fun _ prefix => Ok ("/tmp/" ++ prefix ++ "0"))
        (fun _ => "c0ffee")
        (fun _ _ _ => Some (OSError "Invalid cross-device link"))
        (fun _ _ _ => Some (OSError "No space left on device", Some []))
        (fun _ _ => [])
        (fun w _ => (Ok (0, "", ""), fs w))
        (fun _ _ => [])
        (fun _ _ => [("logs", ["a.evtx"])])
        (fun _ _ => None).

(** A library whose direct parse stumbles on the encoding and whose parse
    of the decoded text finds the events. *)
Definition lib_recovering : PyLib :=
  Fixtures.lib_of (Raise (ValueError "encoding")) (Ok Fixtures.df_events).

(** A library whose direct parse finds the events. *)
Definition lib_direct : PyLib :=
  Fixtures.lib_of (Ok Fixtures.df_events) Fixtures.no_rows.

(** A library whose direct parse fails on the syntax of the document. *)
Definition lib_broken : PyLib :=
  Fixtures.lib_of (Raise (OtherException "XMLSyntaxError")) Fixtures.no_rows.

Definition w_doc : World :=
  mkWorld {[ Fixtures.tmp_xml := File Fixtures.doc_no_rows ]} [].

(** An operating system in which the opening of the error log is
    interrupted. *)
Definition env_log_interrupted : Env :=
  mkEnv (fun _ p => ("", Some (OSError p)))
        (fun _ _ _ => None)
        (fun _ _ => Some KeyboardInterrupt) (fun _ _ _ => None)
        (fun _ prefix => Ok ("/tmp/" ++ prefix ++ "0"))
        (fun _ => "c0ffee")
        (fun _ _ _ => None) (fun _ _ _ => None)
        (fun _ _ => [])
        (fun w _ => (Ok (0, "", ""), fs w))
        (fun _ _ => [])
        (fun _ _ => [])
        (fun _ _ => None).

Definition job : Job := Fixtures.job_of "a.evtx".

Definition ns : Namespace :=
  mkNamespace "logs" "out.csv" "0" "10" (Some "4624") None None None 2 "§"
              "LogParser.exe" None.

End Runs.

(** * Properties *)

(** ** Text helpers *)

Example split_keeps_empty_fields : PyStr.split PyStr.comma "1,,2" = ["1"; ""; "2"].
Proof. reflexivity. Qed.

Example lines_keep_terminator :
  PyStr.lines (String "1" (String PyStr.newline "2"))
  = [String "1" (String PyStr.newline ""); "2"].
Proof. reflexivity. Qed.

Example ascii_int_samples :
  map Fixtures.ascii_int [" 42 "; "-7"; "1_000"; "1__0"; "x"; ""; "+"]
  = [Some 42; Some (-7); Some 1000; None; None; None; None].
Proof. reflexivity. Qed.

Example posix_path_samples :
  map (fun '(a, b) => Fixtures.posix_join a b)
      [("logs", "a.evt"); ("logs/", "a.evt"); ("", "a.evt"); ("logs", "/a.evt")]
  = ["logs/a.evt"; "logs/a.evt"; "a.evt"; "/a.evt"]
  /\ map Fixtures.posix_basename ["logs/x\y%.evtx"; "C:a.evtx"; "logs/"; "a.evt"]
     = ["x\y%.evtx"; "C:a.evtx"; ""; "a.evt"].
Proof. split; reflexivity. Qed.

Example is_event_file_samples :
  map is_event_file ["a.evt"; "a.EVTX"; "a.evtxx"; "evt"; ".evt"; "a.ev"]
  = [true; true; false; false; true; false].
Proof. reflexivity. Qed.

Lemma truthy_true s : PyStr.truthy s = true <-> s <> "".
Proof. destruct s; simpl; split; congruence. Qed.

Lemma truthy_false s : PyStr.truthy s = false <-> s = "".
Proof. destruct s; simpl; split; congruence. Qed.

(** ** Filter Spec Loader *)

Lemma int_each_Raise L xs e :
  int_each L xs = Raise e -> Exists (rejected L) xs /\ exists msg, e = ValueError msg.
Proof.
  induction xs as [|x r IH]; simpl; [discriminate|].
  destruct (PyStr.truthy (py_strip L x)) eqn:Ht.
  - destruct (py_int L (py_strip L x)) as [n|] eqn:Hi.
    + destruct (int_each L r) as [l|e']; [discriminate|].
      intros [= <-]. destruct (IH eq_refl) as [H1 H2]. split; [now right|exact H2].
    + intros [= <-]. split; [|eauto]. left. split.
      * now apply truthy_true.
      * exact Hi.
  - intros H. destruct (IH H) as [H1 H2]. split; [now right|exact H2].
Qed.

Lemma int_each_Ok L xs l :
  int_each L xs = Ok l ->
  Forall2 (fun tok n => py_int L (py_strip L tok) = Some n)
          (List.filter (nonblankb L) xs) l
  /\ ~ Exists (rejected L) xs.
Proof.
  revert l. induction xs as [|x r IH]; simpl; intros l.
  - intros [= <-]. split; [constructor|]. intros H; inversion H.
  - unfold nonblankb at 1. destruct (PyStr.truthy (py_strip L x)) eqn:Ht.
    + destruct (py_int L (py_strip L x)) as [n|] eqn:Hi; [|discriminate].
      destruct (int_each L r) as [l'|e']; [|discriminate].
      intros [= <-]. destruct (IH l' eq_refl) as [H1 H2]. split.
      * constructor; [exact Hi|exact H1].
      * intros H; inversion H as [? ? [_ Hx]|]; subst; [|tauto].
        congruence.
    + intros H. destruct (IH l H) as [H1 H2]. split; [exact H1|].
      intros H'; inversion H' as [? ? [Hx _]|]; subst; [|tauto].
      apply truthy_false in Ht. tauto.
Qed.

Lemma int_each_rejected L xs :
  Exists (rejected L) xs -> exists msg, int_each L xs = Raise (ValueError msg).
Proof.
  intros H. destruct (int_each L xs) as [l|e] eqn:E.
  - apply int_each_Ok in E. tauto.
  - apply int_each_Raise in E as [_ [msg ->]]. eauto.
Qed.

Lemma filter_nonblank_nil L xs :
  List.filter (nonblankb L) xs = [] <-> Forall (blank L) xs.
Proof.
  induction xs as [|x r IH]; simpl.
  - split; [constructor|reflexivity].
  - unfold nonblankb at 1. destruct (PyStr.truthy (py_strip L x)) eqn:Ht.
    + split; [discriminate|]. intros H; inversion H; subst.
      apply truthy_true in Ht. unfold blank in *. tauto.
    + rewrite IH. apply truthy_false in Ht. split.
      * now constructor.
      * intros H; now inversion H.
Qed.

Lemma load_id_list_run env L a f w :
  _load_id_list env L a f w =
  match int_each L (inline_tokens a) with
  | Raise e => (Raise e, w)
  | Ok l1 =>
      match given f with
      | Some p =>
          match int_each L (PyStr.lines (fst (os_read_text env w p))),
                snd (os_read_text env w p) with
          | Raise e, _ => (Raise e, w)
          | Ok _, Some e => (Raise e, w)
          | Ok l2, None =>
              (Ok (match (l1 ++ l2)%list with [] => None | ids => Some ids end), w)
          end
      | None => (Ok (match (l1 ++ [])%list with [] => None | ids => Some ids end), w)
      end
  end.
Proof.
  unfold _load_id_list, inline_tokens, bind, lift, ret, read_ids.
  destruct (given a) as [s|]; simpl.
  - destruct (int_each L (PyStr.split PyStr.comma s)) as [l1|e]; [|reflexivity].
    destruct (given f) as [p|]; [|reflexivity].
    destruct (os_read_text env w p) as [txt [e|]]; simpl;
      destruct (int_each L (PyStr.lines txt)); reflexivity.
  - destruct (given f) as [p|]; [|reflexivity].
    destruct (os_read_text env w p) as [txt [e|]]; simpl;
      destruct (int_each L (PyStr.lines txt)); reflexivity.
Qed.

Lemma load_id_list_world env L a f w r w' :
  _load_id_list env L a f w = (r, w') -> w' = w.
Proof.
  rewrite load_id_list_run.
  destruct (int_each L (inline_tokens a)); [|now intros [= _ <-]].
  destruct (given f) as [p|]; [|now intros [= _ <-]].
  destruct (int_each L (PyStr.lines (fst (os_read_text env w p))));
    destruct (snd (os_read_text env w p)); now intros [= _ <-].
Qed.

(** The loader raises [e] exactly when [e] is the parse error of the first
    token or line [int] rejects, or, no token or line being rejected, the
    exception that ends the reading of the ID file. *)
Lemma load_id_list_raises env L a f w e :
  _load_id_list env L a f w = (Raise e, w) <->
  (Exists (rejected L) (inline_tokens a ++ file_lines env w f)
   /\ int_each L (inline_tokens a ++ file_lines env w f) = Raise e)
  \/ (~ Exists (rejected L) (inline_tokens a ++ file_lines env w f)
      /\ read_failure env w f = Some e).
Proof.
  assert (Happ : forall xs ys,
            int_each L (xs ++ ys) =
            match int_each L xs with
            | Raise e => Raise e
            | Ok l1 => match int_each L ys with
                       | Raise e => Raise e
                       | Ok l2 => Ok (l1 ++ l2)%list
                       end
            end).
  { induction xs as [|x r IH]; intros ys; simpl.
    - now destruct (int_each L ys).
    - destruct (PyStr.truthy (py_strip L x)); [|apply IH].
      destruct (py_int L (py_strip L x)); [|reflexivity].
      rewrite IH. destruct (int_each L r); [|reflexivity].
      now destruct (int_each L ys). }
  rewrite load_id_list_run, Happ. unfold file_lines, read_failure.
  rewrite Exists_app.
  destruct (int_each L (inline_tokens a)) as [l1|e1] eqn:E1.
  - pose proof (int_each_Ok _ _ _ E1) as [_ N1].
    destruct (given f) as [p|].
    + destruct (int_each L (PyStr.lines (fst (os_read_text env w p)))) as [l2|e2] eqn:E2.
      * pose proof (int_each_Ok _ _ _ E2) as [_ N2].
        destruct (snd (os_read_text env w p)) as [e3|]; split.
        -- intros [= ->]. right. split; [tauto|reflexivity].
        -- intros [[_ H]|[_ H]]; [discriminate|congruence].
        -- discriminate.
        -- intros [[_ H]|[_ H]]; discriminate.
      * pose proof (int_each_Raise _ _ _ E2) as [X2 _].
        destruct (snd (os_read_text env w p)); split.
        -- intros [= ->]. left. split; [tauto|reflexivity].
        -- intros [[_ H]|[H _]]; [congruence|tauto].
        -- intros [= ->]. left. split; [tauto|reflexivity].
        -- intros [[_ H]|[H _]]; [congruence|tauto].
    + simpl. split; [discriminate|].
      intros [[_ H]|[_ H]]; discriminate.
  - pose proof (int_each_Raise _ _ _ E1) as [X1 _]. split.
    + intros [= ->]. left. split; [tauto|reflexivity].
    + intros [[_ H]|[H _]]; [congruence|tauto].
Qed.

(** C2, as amended.  When the loader returns, it has left the world alone
    and has read the ID file to its end; the integers it returns are those
    [int] reads from the stripped non-blank tokens of the inline list
    followed by the non-blank lines of the file, in that order and with
    repetitions; it returns [None] exactly when there is no such token or
    line, which covers two absent sources as well as a source that is
    present and holds nothing; it never returns an empty list. *)
Theorem load_id_list_result env L a f w r w' :
  _load_id_list env L a f w = (Ok r, w') ->
  w' = w
  /\ read_failure env w f = None
  /\ Forall2 (fun tok n => py_int L (py_strip L tok) = Some n)
       (List.filter (nonblankb L) (inline_tokens a ++ file_lines env w f)) (ids_of r)
  /\ (r = None <-> Forall (blank L) (inline_tokens a ++ file_lines env w f))
  /\ r <> Some [].
Proof.
  intros H. split; [exact (load_id_list_world _ _ _ _ _ _ _ H)|].
  rewrite load_id_list_run in H.
  assert (G : forall l1 l2 ts1 ts2,
             int_each L ts1 = Ok l1 -> int_each L ts2 = Ok l2 ->
             r = match (l1 ++ l2)%list with [] => None | ids => Some ids end ->
             Forall2 (fun tok n => py_int L (py_strip L tok) = Some n)
               (List.filter (nonblankb L) (ts1 ++ ts2)) (ids_of r)
             /\ (r = None <-> Forall (blank L) (ts1 ++ ts2)) /\ r <> Some []).
  { intros l1 l2 ts1 ts2 E1 E2 ->.
    apply int_each_Ok in E1 as [F1 _]. apply int_each_Ok in E2 as [F2 _].
    assert (F : Forall2 (fun tok n => py_int L (py_strip L tok) = Some n)
                  (List.filter (nonblankb L) (ts1 ++ ts2)) (l1 ++ l2)).
    { rewrite List.filter_app. now apply Forall2_app. }
    rewrite <- filter_nonblank_nil.
    destruct (l1 ++ l2)%list as [|n l] eqn:E; simpl.
    - split; [exact F|]. split; [|discriminate].
      inversion F; subst. tauto.
    - split; [exact F|]. split; [|discriminate].
      split; [discriminate|]. intros E'. rewrite E' in F. inversion F. }
  unfold file_lines, read_failure.
  destruct (int_each L (inline_tokens a)) as [l1|] eqn:E1; [|discriminate].
  destruct (given f) as [p|].
  - destruct (int_each L (PyStr.lines (fst (os_read_text env w p)))) as [l2|] eqn:E2;
      [|discriminate].
    destruct (snd (os_read_text env w p)); [discriminate|].
    split; [reflexivity|].
    injection H as H _. symmetry in H. exact (G _ _ _ _ E1 E2 H).
  - split; [reflexivity|].
    injection H as H _. symmetry in H. exact (G l1 [] _ [] E1 eq_refl H).
Qed.

(** C3, as amended.  The loader raises an exception of the class
    [ValueError] exactly when a non-blank token of the inline list, or a
    non-blank line the ID file yields, is rejected by [int], or the reading
    of the ID file ends with one, as it does on bytes that are not UTF-8;
    blank tokens and lines are skipped and raise nothing.  In [main] such a
    failure in either the inclusion or the exclusion sources makes the run
    end with an exception in the world it started in: no job has been
    created, nothing has been logged. *)
Theorem load_id_list_parse_error env L a f w :
  ((exists e w', _load_id_list env L a f w = (Raise e, w') /\ is_ValueError e = true)
   <-> Exists (rejected L) (inline_tokens a ++ file_lines env w f)
       \/ exists e, read_failure env w f = Some e /\ is_ValueError e = true)
  /\ (forall ns,
        (a = ns_event_ids ns /\ f = ns_event_ids_file ns)
        \/ (a = ns_exclude_event_ids ns /\ f = ns_exclude_event_ids_file ns) ->
        Exists (rejected L) (inline_tokens a ++ file_lines env w f)
        \/ (exists e, read_failure env w f = Some e /\ is_ValueError e = true) ->
        exists e, main env L ns w = (Raise e, w)).
Proof.
  assert (Hraise : Exists (rejected L) (inline_tokens a ++ file_lines env w f)
                   \/ (exists e, read_failure env w f = Some e /\ is_ValueError e = true) ->
                   exists e, _load_id_list env L a f w = (Raise e, w)
                             /\ is_ValueError e = true).
  { intros [H|(e & H & He)].
    - destruct (int_each_rejected _ _ H) as [msg Hm].
      exists (ValueError msg). split; [|reflexivity].
      apply load_id_list_raises. left. now split.
    - destruct (int_each L (inline_tokens a ++ file_lines env w f)) as [l|e'] eqn:E.
      + exists e. split; [|exact He]. apply load_id_list_raises. right.
        split; [|exact H]. now apply int_each_Ok in E.
      + pose proof (int_each_Raise _ _ _ E) as [X [msg ->]].
        exists (ValueError msg). split; [|reflexivity].
        apply load_id_list_raises. left. now split. }
  split.
  - split.
    + intros (e & w' & H & He).
      pose proof (load_id_list_world _ _ _ _ _ _ _ H) as ->.
      apply load_id_list_raises in H as [[H _]|[_ H]]; [now left|right; eauto].
    + intros H. destruct (Hraise H) as (e & He & Hv). eauto.
  - intros ns Hsrc Hrej. destruct (Hraise Hrej) as (e0 & Hr & _).
    unfold main, bind, lift.
    destruct (strptime L (ns_start_date ns)); [|eauto].
    destruct (strptime L (ns_end_date ns)); [|eauto].
    destruct Hsrc as [[-> ->]|[-> ->]].
    + rewrite Hr. eauto.
    + destruct (_load_id_list env L (ns_event_ids ns) (ns_event_ids_file ns) w)
        as [[r|e] w1] eqn:E1;
        pose proof (load_id_list_world _ _ _ _ _ _ _ E1) as ->; [|eauto].
      rewrite Hr. eauto.
Qed.

(** C2 as stated fails: with the ID file [ids.txt] present and empty and no
    inline list, the loader returns [None] although a source is present. *)
Lemma load_id_list_present_but_empty :
  ~ (forall env L a f w,
       fst (_load_id_list env L a f w) = Ok None -> a = None /\ f = None).
Proof.
  intros H.
  destruct (H (Fixtures.env_ok "" []) (Fixtures.lib_of Fixtures.no_rows Fixtures.no_rows)
              None (Some "ids.txt") Fixtures.w0 eq_refl)
    as [_ Hf].
  discriminate Hf.
Qed.

Lemma load_id_list_result_witness :
  _load_id_list (Fixtures.env_ok "" []) (Fixtures.lib_of Fixtures.no_rows Fixtures.no_rows)
                (Some "4624, 4625,") (Some "ids.txt") Fixtures.w0
  = (Ok (Some [4624; 4625]), Fixtures.w0)
  /\ (Fixtures.w0 = Fixtures.w0
      /\ read_failure (Fixtures.env_ok "" []) Fixtures.w0 (Some "ids.txt") = None
      /\ Forall2 (fun tok n =>
                    py_int (Fixtures.lib_of Fixtures.no_rows Fixtures.no_rows)
                      (py_strip (Fixtures.lib_of Fixtures.no_rows Fixtures.no_rows) tok)
                    = Some n)
           (List.filter (nonblankb (Fixtures.lib_of Fixtures.no_rows Fixtures.no_rows))
              (inline_tokens (Some "4624, 4625,")
               ++ file_lines (Fixtures.env_ok "" []) Fixtures.w0 (Some "ids.txt")))
           (ids_of (Some [4624; 4625]))
      /\ (Some [4624; 4625] = None <->
          Forall (blank (Fixtures.lib_of Fixtures.no_rows Fixtures.no_rows))
            (inline_tokens (Some "4624, 4625,")
             ++ file_lines (Fixtures.env_ok "" []) Fixtures.w0 (Some "ids.txt")))
      /\ Some [4624; 4625] <> Some []).
Proof.
  split; [reflexivity|].
  apply (load_id_list_result (Fixtures.env_ok "" [])
           (Fixtures.lib_of Fixtures.no_rows Fixtures.no_rows) (Some "4624, 4625,")
           (Some "ids.txt") Fixtures.w0 (Some [4624; 4625]) Fixtures.w0).
  reflexivity.
Defined.

(** C3 as stated fails: the inline list [1,,2] has an empty token, which is
    not a valid integer, and the loader returns [[1; 2]] without raising. *)
Lemma load_id_list_blank_token_no_error :
  ~ (forall env L a f w,
       (exists e w', _load_id_list env L a f w = (Raise e, w') /\ is_ValueError e = true)
       <-> (exists tok, In tok (inline_tokens a ++ file_lines env w f)
                        /\ py_int L tok = None)).
Proof.
  intros H.
  destruct (H (Fixtures.env_ok "" []) (Fixtures.lib_of Fixtures.no_rows Fixtures.no_rows)
              (Some "1,,2") None Fixtures.w0) as [_ H2].
  destruct H2 as (e & w' & Hr & _).
  - exists "". split; [|reflexivity]. simpl. auto.
  - discriminate Hr.
Qed.

Lemma load_id_list_parse_error_witness :
  (Exists (rejected (Fixtures.lib_of Fixtures.no_rows Fixtures.no_rows))
          (inline_tokens (Some "1,x")
           ++ file_lines (Fixtures.env_ok "" []) Fixtures.w0 None)
   \/ exists e, read_failure (Fixtures.env_ok "" []) Fixtures.w0 None = Some e
                /\ is_ValueError e = true)
  /\ exists e, main (Fixtures.env_ok "" []) (Fixtures.lib_of Fixtures.no_rows Fixtures.no_rows)
                    Fixtures.ns_bad_ids Fixtures.w0 = (Raise e, Fixtures.w0).
Proof.
  assert (Hrej : Exists (rejected (Fixtures.lib_of Fixtures.no_rows Fixtures.no_rows))
                   (inline_tokens (Some "1,x")
                    ++ file_lines (Fixtures.env_ok "" []) Fixtures.w0 None)).
  { simpl. right. left. split; [discriminate|reflexivity]. }
  split; [left; exact Hrej|].
  apply (proj2 (load_id_list_parse_error (Fixtures.env_ok "" [])
                  (Fixtures.lib_of Fixtures.no_rows Fixtures.no_rows) (Some "1,x") None
                  Fixtures.w0)
           Fixtures.ns_bad_ids).
  - left. split; reflexivity.
  - left. exact Hrej.
Defined.

(** An ID file in UTF-16 is not UTF-8: the reading raises
    [UnicodeDecodeError] before it yields a line, and so does the loader,
    although no token or line has been rejected. *)
Example load_id_list_undecodable_file :
  let env := mkEnv (fun _ _ => ("", Some (UnicodeDecodeError "invalid start byte")))
                   (fun _ _ _ => None) (fun _ _ => None) (fun _ _ _ => None)
                   (fun _ prefix => Ok prefix) (fun _ => "")
                   (fun _ _ _ => None) (fun _ _ _ => None) (fun _ _ => [])
                   (fun w _ => (Ok (0, "", ""), fs w)) (fun _ _ => [])
                   (fun _ _ => []) (fun _ _ => None) in
  _load_id_list env (Fixtures.lib_of Fixtures.no_rows Fixtures.no_rows)
                (Some "4624") (Some "ids-utf16.txt") Fixtures.w0
  = (Raise (UnicodeDecodeError "invalid start byte"), Fixtures.w0).
Proof. reflexivity. Qed.

(** ** Error Reporter *)

(** C10, as amended.  [_log_error] hands the message to the logging
    subsystem first, outside its [try].  When that call returns, whatever
    exception of class [Exception] the opening of the error log or the
    write to it raises, [_log_error] returns normally and the file system
    is as it was; the trace grows by the logging record and, only when the
    append went through, by the appended line.  When a handler of the
    logging subsystem raises, [_log_error] raises the same exception. *)
Theorem log_error_returns env log_file msg w :
  (forall w1 e, os_open_append env w1 log_file = Some e -> is_Exception e = true) ->
  (forall w1 text e, os_write env w1 log_file text = Some e -> is_Exception e = true) ->
  match os_logging env w ERROR msg with
  | None =>
      exists w',
        _log_error env log_file msg w = (Ok tt, w')
        /\ fs w' = fs w
        /\ (trace w' = (trace w ++ [Logged ERROR msg])%list
            \/ trace w' = (trace w ++ [Logged ERROR msg;
                                       Appended log_file (msg ++ String PyStr.newline "")])%list)
  | Some e =>
      _log_error env log_file msg w
      = (Raise e, mkWorld (fs w) (trace w ++ [Logged ERROR msg]))
  end.
Proof.
  intros Hopen Hwrite.
  unfold _log_error, bind, logging, try_except, append_line, ret.
  destruct (os_logging env w ERROR msg) as [e0|]; [reflexivity|]. simpl.
  set (w1 := {| fs := fs w; trace := (trace w ++ [Logged ERROR msg])%list |}).
  destruct (os_open_append env w1 log_file) as [e|] eqn:Eo.
  - rewrite (Hopen _ _ Eo). exists w1. auto.
  - destruct (os_write env w1 log_file _) as [e|] eqn:Ew.
    + rewrite (Hwrite _ _ _ Ew). exists w1. auto.
    + eexists. split; [reflexivity|]. split; [reflexivity|]. right.
      simpl. now rewrite <- app_assoc.
Qed.

Lemma log_error_returns_witness :
  (forall w1 e, os_open_append Fixtures.env_broken_log w1 "run.log" = Some e ->
                is_Exception e = true)
  /\ (forall w1 text e, os_write Fixtures.env_broken_log w1 "run.log" text = Some e ->
                        is_Exception e = true)
  /\ match os_logging Fixtures.env_broken_log Fixtures.w0 ERROR "boom" with
     | None =>
         exists w',
           _log_error Fixtures.env_broken_log "run.log" "boom" Fixtures.w0 = (Ok tt, w')
           /\ fs w' = fs Fixtures.w0
           /\ (trace w' = (trace Fixtures.w0 ++ [Logged ERROR "boom"])%list
               \/ trace w' = (trace Fixtures.w0
                              ++ [Logged ERROR "boom";
                                  Appended "run.log" ("boom" ++ String PyStr.newline "")])%list)
     | Some e =>
         _log_error Fixtures.env_broken_log "run.log" "boom" Fixtures.w0
         = (Raise e, mkWorld (fs Fixtures.w0) (trace Fixtures.w0 ++ [Logged ERROR "boom"]))
     end.
Proof.
  assert (H1 : forall w1 e, os_open_append Fixtures.env_broken_log w1 "run.log" = Some e ->
                            is_Exception e = true).
  { intros w1 e [= <-]. reflexivity. }
  assert (H2 : forall w1 text e,
             os_write Fixtures.env_broken_log w1 "run.log" text = Some e ->
             is_Exception e = true).
  { intros w1 text e [=]. }
  split; [exact H1|]. split; [exact H2|].
  exact (log_error_returns Fixtures.env_broken_log "run.log" "boom" Fixtures.w0 H1 H2).
Defined.

(** C10 as stated fails.  With a log path that cannot be opened, the
    handler that [main] installs on it raises [OSError] at the first
    record: [_log_error] raises instead of returning, although the only
    failures of the file are of class [Exception], and [main] ends with
    that exception at its first logging call, before any job. *)
Lemma log_error_unopenable_log_raises :
  ~ (forall env log_file msg w,
       (forall w1 e, os_open_append env w1 log_file = Some e -> is_Exception e = true) ->
       (forall w1 text e, os_write env w1 log_file text = Some e -> is_Exception e = true) ->
       exists w', _log_error env log_file msg w = (Ok tt, w'))
  /\ _log_error Fixtures.env_unopenable_log "out.csv.log" "boom" Fixtures.w0
     = (Raise (OSError "out.csv.log"), mkWorld ∅ [Logged ERROR "boom"])
  /\ main Fixtures.env_unopenable_log (Fixtures.lib_of Fixtures.no_rows Fixtures.no_rows)
          Runs.ns Fixtures.w0
     = (Raise (OSError "out.csv.log"), mkWorld ∅ [Logged INFO "Scanning 1 files …"]).
Proof.
  split; [|split; reflexivity].
  intros H.
  destruct (H Fixtures.env_unopenable_log "out.csv.log" "boom" Fixtures.w0) as [w' Hw].
  - intros w1 e [= <-]. reflexivity.
  - intros w1 text e [=].
  - discriminate Hw.
Qed.

(** ** Record Filter and Normaliser *)

Lemma bool_index_map (g : list value -> bool) df :
  rows (bool_index (map g (rows df)) df) = List.filter g (rows df).
Proof.
  unfold bool_index. simpl. induction (rows df) as [|r l IH]; simpl; [reflexivity|].
  destruct (g r); simpl; now rewrite IH.
Qed.

Lemma get_col_map (g : value -> bool) k df :
  map g (get_col k df) = map (fun r => g (cell k r)) (rows df).
Proof. unfold get_col. now rewrite map_map. Qed.

Lemma col_index_lt name cols k :
  col_index name cols = Some k -> (k < length cols)%nat.
Proof.
  revert k. induction cols as [|[n d] r IH]; simpl; intros k; [discriminate|].
  destruct (String.eqb n name).
  - intros [= <-]. lia.
  - destruct (col_index name r) as [k'|]; simpl; [|discriminate].
    intros [= <-]. specialize (IH k' eq_refl). lia.
Qed.

Lemma cell_insert k v (r : list value) :
  (k < length r)%nat -> cell k (<[k:=v]> r) = v.
Proof.
  intros H. unfold cell.
  apply nth_lookup_Some with (d := VNone). now apply list_lookup_insert_eq.
Qed.

Lemma window_of_coerced start end_ o :
  ge_bound start (of_coerced o) && le_bound end_ (of_coerced o) = true
  <-> exists t, o = Some t /\ start <= t <= end_.
Proof.
  destruct o as [t|]; simpl.
  - rewrite andb_true_iff, !Z.leb_le. split.
    + intros [? ?]. exists t. auto.
    + intros (t' & [= <-] & ? & ?). auto.
  - split; [discriminate|]. intros (t & [=] & _).
Qed.

(** The time filter, case by case. *)
Lemma time_filter_run L start end_ df :
  time_filter L start end_ df =
  match col_index "TimeGenerated" (columns df) with
  | Some k =>
      match to_datetime L (get_col k df) with
      | Raise e => Raise e
      | Ok c =>
          if tz_aware c then
            Raise (TypeError "Invalid comparison between tz-aware and tz-naive")
          else
            let df1 := set_col k DDatetime (map of_coerced (instants c)) df in
            Ok (mkDF (columns df1)
                  (List.filter (fun r => ge_bound start (cell k r) && le_bound end_ (cell k r))
                               (rows df1)))
      end
  | None => Ok df
  end.
Proof.
  unfold time_filter.
  destruct (col_index "TimeGenerated" (columns df)) as [k|]; [|reflexivity].
  destruct (to_datetime L (get_col k df)) as [c|e]; [|reflexivity].
  destruct (tz_aware c); [reflexivity|]. cbv zeta. f_equal.
  set (df1 := set_col k DDatetime (map of_coerced (instants c)) df).
  rewrite get_col_map with (g := fun v => ge_bound start v && le_bound end_ v).
  unfold bool_index at 1. f_equal.
  apply (bool_index_map (fun r => ge_bound start (cell k r) && le_bound end_ (cell k r)) df1).
Qed.

(** C6, as amended.  On a rectangular table with a [TimeGenerated] column
    whose coerced timestamps carry no time zone, the rows the time filter
    returns are exactly the rows of the table whose coerced timestamp
    exists and lies in the closed window, carrying that timestamp in the
    column; a row whose value is coerced to [NaT] is dropped.  When the
    coerced timestamps carry a time zone the comparison with the bounds
    raises [TypeError], and an exception of the coercion comes out as it
    is: no row is returned.  Without the column the table comes back as it
    is. *)
Theorem time_filter_spec L start end_ df :
  Forall (fun r => length r = length (columns df)) (rows df) ->
  match col_index "TimeGenerated" (columns df) with
  | Some k =>
      match to_datetime L (get_col k df) with
      | Ok c =>
          if tz_aware c then
            exists msg, time_filter L start end_ df = Raise (TypeError msg)
          else
            exists out,
              time_filter L start end_ df = Ok out
              /\ forall r',
                   In r' (rows out) <->
                   exists i r t,
                     rows df !! i = Some r
                     /\ instants c !! i = Some (Some t)
                     /\ start <= t <= end_
                     /\ r' = <[k:=VTime t]> r
      | Raise e => time_filter L start end_ df = Raise e
      end
  | None => time_filter L start end_ df = Ok df
  end.
Proof.
  intros Hwf. rewrite time_filter_run.
  destruct (col_index "TimeGenerated" (columns df)) as [k|] eqn:Ek; [|reflexivity].
  apply col_index_lt in Ek.
  destruct (to_datetime L (get_col k df)) as [c|e]; [|reflexivity].
  destruct (tz_aware c); [eauto|].
  eexists. split; [reflexivity|]. intros r'. cbv zeta. simpl.
  rewrite filter_In, <- list_elem_of_In.
  rewrite elem_of_lookup_zip_with. split.
  - intros [(i & r & v & -> & Hr & Hv) Hwin].
    rewrite list_lookup_fmap in Hv.
    destruct (instants c !! i) as [o|] eqn:Eo; [|discriminate].
    injection Hv as <-.
    assert (Hk : (k < length r)%nat).
    { rewrite Forall_forall in Hwf. rewrite (Hwf r); [exact Ek|].
      eapply list_elem_of_lookup_2, Hr. }
    rewrite (cell_insert _ _ _ Hk) in Hwin.
    apply window_of_coerced in Hwin as (t & -> & Ht).
    exists i, r, t. auto.
  - intros (i & r & t & Hr & Ht & Hwin & ->).
    assert (Hk : (k < length r)%nat).
    { rewrite Forall_forall in Hwf. rewrite (Hwf r); [exact Ek|].
      eapply list_elem_of_lookup_2, Hr. }
    split.
    + exists i, r, (VTime t). split; [reflexivity|]. split; [exact Hr|].
      rewrite list_lookup_fmap, Ht. reflexivity.
    + rewrite (cell_insert _ _ _ Hk). simpl. rewrite andb_true_iff, !Z.leb_le. lia.
Qed.

Lemma isin_member ids v : isin ids v = true <-> member ids v.
Proof.
  unfold member. destruct v; simpl;
    try (split; [discriminate|intros (z' & [=] & _)]).
  rewrite existsb_exists. split.
  - intros (x & Hx & Heq). apply Z.eqb_eq in Heq as ->. eauto.
  - intros (z' & [= <-] & Hz). exists z. split; [exact Hz|apply Z.eqb_refl].
Qed.

Lemma include_filter_columns incl df :
  columns (include_filter incl df) = columns df.
Proof.
  unfold include_filter. destruct incl; [|reflexivity].
  destruct (col_index "EventID" (columns df)); reflexivity.
Qed.

Lemma exclude_filter_columns excl df :
  columns (exclude_filter excl df) = columns df.
Proof.
  unfold exclude_filter. destruct excl; [|reflexivity].
  destruct (col_index "EventID" (columns df)); reflexivity.
Qed.

(** C7.  The EventID filter keeps the columns.  With an [EventID] column, a
    row is returned exactly when it is a row of the table whose EventID is
    in the inclusion set, if one is configured, and is not in the exclusion
    set, if one is configured.  Without the column the table comes back as
    it is. *)
Theorem eventid_filter_spec incl excl df :
  columns (eventid_filter incl excl df) = columns df
  /\ match col_index "EventID" (columns df) with
     | Some k =>
         forall r,
           In r (rows (eventid_filter incl excl df)) <->
           (In r (rows df)
            /\ (forall ids, incl = Some ids -> member ids (cell k r))
            /\ (forall ids, excl = Some ids -> ~ member ids (cell k r)))
     | None => eventid_filter incl excl df = df
     end.
Proof.
  unfold eventid_filter. split.
  { now rewrite exclude_filter_columns, include_filter_columns. }
  destruct (col_index "EventID" (columns df)) as [k|] eqn:Ek.
  - intros r.
    assert (Hin : In r (rows (include_filter incl df)) <->
                  In r (rows df) /\ (forall ids, incl = Some ids -> member ids (cell k r))).
    { unfold include_filter. rewrite Ek. destruct incl as [ids|].
      - rewrite get_col_map, (bool_index_map (fun r => isin ids (cell k r)) df), filter_In.
        rewrite isin_member. split.
        + intros [H1 H2]. split; [exact H1|]. now intros ids' [= <-].
        + intros [H1 H2]. auto.
      - split; [intros H; split; [exact H|discriminate]|tauto]. }
    unfold exclude_filter. rewrite include_filter_columns, Ek.
    destruct excl as [ids|].
    + rewrite get_col_map,
        (bool_index_map (fun r => negb (isin ids (cell k r))) (include_filter incl df)),
        filter_In, Hin, negb_true_iff.
      rewrite <- not_true_iff_false, isin_member. split.
      * intros [[H1 H2] H3]. split; [exact H1|]. split; [exact H2|].
        now intros ids' [= <-].
      * intros (H1 & H2 & H3). auto.
    + rewrite Hin. split.
      * intros [H1 H2]. split; [exact H1|]. split; [exact H2|discriminate].
      * tauto.
  - unfold exclude_filter, include_filter. rewrite Ek.
    destruct incl; destruct excl; rewrite ?Ek; reflexivity.
Qed.

Lemma time_filter_spec_witness :
  Forall (fun r => length r = length (columns Fixtures.df_events))
         (rows Fixtures.df_events)
  /\ match col_index "TimeGenerated" (columns Fixtures.df_events) with
     | Some k =>
         match to_datetime (Fixtures.lib_of Fixtures.no_rows Fixtures.no_rows)
                 (get_col k Fixtures.df_events) with
         | Ok c =>
             if tz_aware c then
               exists msg,
                 time_filter (Fixtures.lib_of Fixtures.no_rows Fixtures.no_rows)
                   0 10 Fixtures.df_events = Raise (TypeError msg)
             else
               exists out,
                 time_filter (Fixtures.lib_of Fixtures.no_rows Fixtures.no_rows)
                   0 10 Fixtures.df_events = Ok out
                 /\ forall r',
                      In r' (rows out) <->
                      exists i r t,
                        rows Fixtures.df_events !! i = Some r
                        /\ instants c !! i = Some (Some t)
                        /\ 0 <= t <= 10
                        /\ r' = <[k:=VTime t]> r
         | Raise e =>
             time_filter (Fixtures.lib_of Fixtures.no_rows Fixtures.no_rows)
               0 10 Fixtures.df_events = Raise e
         end
     | None => time_filter (Fixtures.lib_of Fixtures.no_rows Fixtures.no_rows)
                 0 10 Fixtures.df_events = Ok Fixtures.df_events
     end.
Proof.
  assert (Hwf : Forall (fun r => length r = length (columns Fixtures.df_events))
                       (rows Fixtures.df_events)).
  { repeat constructor. }
  split; [exact Hwf|].
  exact (time_filter_spec (Fixtures.lib_of Fixtures.no_rows Fixtures.no_rows)
           0 10 Fixtures.df_events Hwf).
Defined.

(** C6 as stated fails.  A row whose [TimeGenerated] value parses as an
    instant inside the window does not survive when the parsed column
    carries a time zone, as it does for values written with a UTC offset:
    the comparison with the naive bounds raises [TypeError] and the filter
    returns no table at all. *)
Lemma time_filter_tz_aware_raises :
  ~ (forall L start end_ df k c i r t,
       col_index "TimeGenerated" (columns df) = Some k ->
       to_datetime L (get_col k df) = Ok c ->
       rows df !! i = Some r ->
       instants c !! i = Some (Some t) ->
       start <= t <= end_ ->
       exists out, time_filter L start end_ df = Ok out
                   /\ In (<[k:=VTime t]> r) (rows out)).
Proof.
  intros H.
  destruct (H (Fixtures.lib_with Fixtures.to_datetime_utc Fixtures.no_rows Fixtures.no_rows)
              0 10 Fixtures.df_utc 1%nat
              (mkCoerced true [Some 5; Some 50]) 0%nat
              [VInt 4624; VStr "1970-01-01 00:00:05+00:00"] 5
              eq_refl eq_refl eq_refl eq_refl) as (out & Hout & _).
  - lia.
  - discriminate Hout.
Qed.

Example time_filter_utc_run :
  time_filter (Fixtures.lib_with Fixtures.to_datetime_utc Fixtures.no_rows Fixtures.no_rows)
    0 10 Fixtures.df_utc
  = Raise (TypeError "Invalid comparison between tz-aware and tz-naive")
  /\ fst (_worker (Fixtures.env_ok Fixtures.tmp_xml Fixtures.doc_no_rows)
            (Fixtures.lib_with Fixtures.to_datetime_utc (Ok Fixtures.df_utc) Fixtures.no_rows)
            (Fixtures.job_of "a.evtx") Fixtures.w0) = Ok None.
Proof. split; vm_compute; reflexivity. Qed.

Example time_filter_sample :
  time_filter (Fixtures.lib_of Fixtures.no_rows Fixtures.no_rows)
    0 10 Fixtures.df_events
  = Ok (mkDF [("EventID", DInt); ("TimeGenerated", DDatetime); ("Message", DObject)]
             [[VInt 4624; VTime 5; VStr "logon, interactive"];
              [VInt 4625; VTime 7; VStr "failure"]]).
Proof. reflexivity. Qed.

Example filter_frame_run :
  _filter_frame (Fixtures.lib_of Fixtures.no_rows Fixtures.no_rows)
    Fixtures.df_events 0 10 (Some [4624]) (Some [4625]) "§"
  = Ok (mkDF [("EventID", DInt); ("TimeGenerated", DDatetime); ("Message", DObject)]
             [[VInt 4624; VTime 5; VStr "logon§ interactive"]]).
Proof. reflexivity. Qed.

Lemma contains_app c a b :
  PyStr.contains c (a ++ b) = PyStr.contains c a || PyStr.contains c b.
Proof.
  induction a as [|d a IH]; simpl; [reflexivity|].
  now rewrite IH, orb_assoc.
Qed.

Lemma replace_clears old new s :
  PyStr.contains old new = false ->
  PyStr.contains old (PyStr.replace old new s) = false.
Proof.
  intros Hnew. induction s as [|c s IH]; simpl; [reflexivity|].
  destruct (Ascii.eqb c old) eqn:Ec.
  - now rewrite contains_app, Hnew, IH.
  - simpl. now rewrite Ec, IH.
Qed.

Lemma norm_row_object L placeholder cols r k name v :
  cols !! k = Some (name, DObject) ->
  norm_row L placeholder cols r !! k = Some v ->
  exists x, r !! k = Some x /\ v = norm_cell L placeholder x.
Proof.
  revert r k. induction cols as [|[n d] cs IH]; intros r k Hc Hv; [discriminate|].
  destruct r as [|x xs]; [destruct d; discriminate|].
  destruct k as [|k]; simpl in Hc.
  - injection Hc as -> ->. simpl in Hv. injection Hv as <-. eauto.
  - assert (Hv' : norm_row L placeholder cs xs !! k = Some v) by (destruct d; exact Hv).
    destruct (IH xs k Hc Hv') as (x' & Hx & ->). eauto.
Qed.

(** What [_filter_frame] returns, when it does. *)
Lemma filter_frame_Ok L df start end_ incl excl placeholder out :
  _filter_frame L df start end_ incl excl placeholder = Ok out <->
  exists df1, time_filter L start end_ df = Ok df1
              /\ out = normalise L placeholder (eventid_filter incl excl df1).
Proof.
  unfold _filter_frame. destruct (time_filter L start end_ df) as [df1|e]; split.
  - intros [= <-]. eauto.
  - intros (df1' & [= <-] & ->). reflexivity.
  - discriminate.
  - intros (df1' & [=] & _).
Qed.

(** C4, as amended.  When the placeholder holds no comma, every cell of an
    object column of the table [_filter_frame] returns is text without a
    comma: it is the text of a cell of a row that passed the filters, with
    each comma replaced by the placeholder.  The [SourceFile] value, which
    the worker assigns after [_filter_frame] has returned, is not covered. *)
Theorem filter_frame_no_delimiter L df start end_ incl excl placeholder out :
  PyStr.contains PyStr.comma placeholder = false ->
  _filter_frame L df start end_ incl excl placeholder = Ok out ->
  forall r k name v,
    In r (rows out) ->
    columns out !! k = Some (name, DObject) ->
    r !! k = Some v ->
    exists df1 r0 x s,
      time_filter L start end_ df = Ok df1
      /\ In r0 (rows (eventid_filter incl excl df1))
      /\ r0 !! k = Some x
      /\ s = PyStr.replace PyStr.comma placeholder (to_text L x)
      /\ v = VStr s
      /\ PyStr.contains PyStr.comma s = false.
Proof.
  intros Hph Hout r k name v Hr Hc Hv.
  apply filter_frame_Ok in Hout as (df1 & Ht & ->).
  unfold normalise in *. simpl in *.
  apply in_map_iff in Hr as (r0 & <- & Hr0).
  destruct (norm_row_object _ _ _ _ _ _ _ Hc Hv) as (x & Hx & ->).
  exists df1, r0, x, (PyStr.replace PyStr.comma placeholder (to_text L x)).
  repeat split; auto. now apply replace_clears.
Qed.

Lemma filter_frame_no_delimiter_witness :
  PyStr.contains PyStr.comma "§" = false
  /\ _filter_frame (Fixtures.lib_of Fixtures.no_rows Fixtures.no_rows)
       Fixtures.df_events 0 10 None None "§"
     = Ok (mkDF [("EventID", DInt); ("TimeGenerated", DDatetime); ("Message", DObject)]
                [[VInt 4624; VTime 5; VStr "logon§ interactive"];
                 [VInt 4625; VTime 7; VStr "failure"]])
  /\ exists df1 r0 x s,
       time_filter (Fixtures.lib_of Fixtures.no_rows Fixtures.no_rows)
         0 10 Fixtures.df_events = Ok df1
       /\ In r0 (rows (eventid_filter None None df1))
       /\ r0 !! 2%nat = Some x
       /\ s = PyStr.replace PyStr.comma "§"
                (to_text (Fixtures.lib_of Fixtures.no_rows Fixtures.no_rows) x)
       /\ VStr "logon§ interactive" = VStr s
       /\ PyStr.contains PyStr.comma s = false.
Proof.
  split; [reflexivity|]. split; [reflexivity|].
  apply (filter_frame_no_delimiter (Fixtures.lib_of Fixtures.no_rows Fixtures.no_rows)
           Fixtures.df_events 0 10 None None "§"
           (mkDF [("EventID", DInt); ("TimeGenerated", DDatetime); ("Message", DObject)]
                 [[VInt 4624; VTime 5; VStr "logon§ interactive"];
                  [VInt 4625; VTime 7; VStr "failure"]])
           eq_refl eq_refl
           [VInt 4624; VTime 5; VStr "logon§ interactive"] 2%nat "Message"
           (VStr "logon§ interactive")).
  - left; reflexivity.
  - reflexivity.
  - reflexivity.
Defined.

(** C4 as stated fails on the appended column: for the source path
    [C:/logs/a,b.evtx] the worker returns rows whose [SourceFile] cell is
    that path, comma included.  It also fails inside [_filter_frame] when
    the configured placeholder is the comma itself. *)
Lemma worker_source_file_keeps_comma :
  (exists df r,
     fst (_worker (Fixtures.env_ok Fixtures.tmp_xml Fixtures.doc_no_rows)
            (Fixtures.lib_of (Ok Fixtures.df_events) Fixtures.no_rows)
            (Fixtures.job_of "C:/logs/a,b.evtx") Fixtures.w0) = Ok (Some df)
     /\ In r (rows df)
     /\ columns df !! 3%nat = Some ("SourceFile", DObject)
     /\ r !! 3%nat = Some (VStr "C:/logs/a,b.evtx")
     /\ PyStr.contains PyStr.comma "C:/logs/a,b.evtx" = true)
  /\ _filter_frame (Fixtures.lib_of Fixtures.no_rows Fixtures.no_rows)
       Fixtures.df_events 0 5 None None ","
     = Ok (mkDF [("EventID", DInt); ("TimeGenerated", DDatetime); ("Message", DObject)]
                [[VInt 4624; VTime 5; VStr "logon, interactive"]]).
Proof.
  split; [|reflexivity].
  eexists _, _. split; [vm_compute; reflexivity|].
  split; [left; reflexivity|]. repeat split.
Qed.

(** ** Encoding detector *)

Lemma starts_with_bom b1 b2 raw :
  Enc.starts_with [b1; b2] raw = true <-> has_bom b1 b2 raw.
Proof.
  unfold has_bom. destruct raw as [|a [|b rest]]; simpl.
  - split; [discriminate|]. intros [? [=]].
  - rewrite andb_false_r. split; [discriminate|]. intros [? [=]].
  - rewrite andb_true_r, andb_true_iff. split.
    + intros [H1 H2]. apply byte_dec_bl in H1, H2. subst. eauto.
    + intros [? [= -> -> _]]. split; now apply byte_dec_lb.
Qed.

Lemma starts_with_ci_spec p l :
  Enc.starts_with_ci p l = true <->
  exists kw rest, l = (kw ++ rest)%list /\ map Enc.lower kw = map Enc.lower p.
Proof.
  revert l. induction p as [|a p IH]; intros l; simpl.
  - split; [|reflexivity]. intros _. exists [], l. auto.
  - destruct l as [|b l].
    + split; [discriminate|]. intros (kw & rest & H & Hm).
      destruct kw; [discriminate Hm|discriminate H].
    + rewrite andb_true_iff, IH. split.
      * intros [Hab (kw & rest & -> & Hm)]. apply byte_dec_bl in Hab.
        exists (b :: kw), rest. simpl. split; [reflexivity|]. now rewrite Hab, Hm.
      * intros (kw & rest & H & Hm). destruct kw as [|c kw]; [discriminate Hm|].
        simpl in H, Hm. injection H as -> ->. injection Hm as Hc Hm.
        split; [apply byte_dec_lb; now symmetry|]. eauto.
Qed.

Lemma break_quote_spec l g rest :
  Enc.break_quote l = (g, rest) ->
  l = (g ++ rest)%list /\ ~ In Enc.quote g
  /\ (rest = [] \/ exists rest', rest = Enc.quote :: rest').
Proof.
  revert g rest. induction l as [|b t IH]; simpl; intros g rest.
  - intros [= <- <-]. auto.
  - destruct (Byte.eqb b Enc.quote) eqn:Eb.
    + intros [= <- <-]. apply byte_dec_bl in Eb. subst b. simpl.
      split; [reflexivity|]. split; [tauto|]. right. eauto.
    + destruct (Enc.break_quote t) as [g' rest'] eqn:Et. intros [= <- <-].
      destruct (IH _ _ eq_refl) as (-> & Hg & Hr). simpl.
      split; [reflexivity|]. split; [|exact Hr].
      intros [->|H]; [|tauto]. apply Byte.eqb_false in Eb. congruence.
Qed.

Lemma break_quote_app g rest :
  ~ In Enc.quote g ->
  Enc.break_quote (g ++ Enc.quote :: rest) = (g, Enc.quote :: rest).
Proof.
  induction g as [|b g IH]; simpl; intros Hg.
  - reflexivity.
  - destruct (Byte.eqb b Enc.quote) eqn:Eb.
    + apply byte_dec_bl in Eb. tauto.
    + rewrite IH; [reflexivity|tauto].
Qed.

Lemma match_at_spec l g :
  Enc.match_at l = Some g <-> declares_at l 0 g.
Proof.
  unfold Enc.match_at, declares_at. split.
  - destruct (Enc.starts_with_ci Enc.keyword l) eqn:Es; [|discriminate].
    apply starts_with_ci_spec in Es as (kw & tl & -> & Hm).
    assert (Hlen : length kw = length Enc.keyword).
    { rewrite <- (length_map Enc.lower kw), Hm. apply length_map. }
    rewrite <- Hlen, drop_app_length.
    destruct (Enc.break_quote tl) as [g' rest] eqn:Eb.
    destruct g' as [|b g']; [discriminate|].
    destruct rest as [|q rest]; [discriminate|]. intros [= <-].
    destruct (break_quote_spec _ _ _ Eb) as (-> & Hg & [Hr|[rest' Hr]]);
      [discriminate|]. injection Hr as -> <-.
    exists [], kw, rest. repeat split; auto; discriminate.
  - intros (pre & kw & rest & -> & Hpre & Hm & Hne & Hg).
    apply nil_length_inv in Hpre as ->. rewrite app_nil_l.
    assert (Hs : Enc.starts_with_ci Enc.keyword (kw ++ g ++ Enc.quote :: rest) = true).
    { apply starts_with_ci_spec. eauto. }
    rewrite Hs.
    assert (Hlen : length kw = length Enc.keyword).
    { rewrite <- (length_map Enc.lower kw), Hm. apply length_map. }
    rewrite <- Hlen, drop_app_length.
    rewrite (break_quote_app _ _ Hg). destruct g; [congruence|reflexivity].
Qed.

Lemma declares_at_cons b t i g :
  declares_at (b :: t) (S i) g <-> declares_at t i g.
Proof.
  unfold declares_at. split.
  - intros (pre & kw & rest & H & Hpre & Hrest).
    destruct pre as [|c pre]; [discriminate|]. simpl in H, Hpre.
    injection H as -> ->. exists pre, kw, rest. split; [reflexivity|].
    split; [lia|exact Hrest].
  - intros (pre & kw & rest & -> & Hpre & Hrest).
    exists (b :: pre), kw, rest. simpl. split; [reflexivity|].
    split; [lia|exact Hrest].
Qed.

Lemma declares_at_nil i g : ~ declares_at [] i g.
Proof.
  intros (pre & kw & rest & H & _). symmetry in H.
  apply app_eq_nil in H as [_ H]. apply app_eq_nil in H as [_ H].
  apply app_eq_nil in H as [_ H]. discriminate.
Qed.

Lemma search_Some l g : Enc.search l = Some g <-> declared l g.
Proof.
  unfold declared. revert g. induction l as [|b t IH]; intros g.
  - simpl. destruct (Enc.match_at []) as [g0|] eqn:Em.
    + apply match_at_spec in Em. now apply declares_at_nil in Em.
    + split; [discriminate|]. intros (i & H & _). now apply declares_at_nil in H.
  - simpl. destruct (Enc.match_at (b :: t)) as [g0|] eqn:Em.
    + apply match_at_spec in Em. split.
      * intros [= <-]. exists 0%nat. split; [exact Em|]. intros; lia.
      * intros (i & Hi & Hleast). destruct i as [|i].
        -- apply match_at_spec in Em, Hi. congruence.
        -- exfalso. apply (Hleast 0%nat g0); [lia|exact Em].
    + rewrite IH. split.
      * intros (i & Hi & Hleast). exists (S i). split; [now apply declares_at_cons|].
        intros j g' Hj Hd. destruct j as [|j].
        -- apply match_at_spec in Hd. congruence.
        -- apply declares_at_cons in Hd. apply (Hleast j g'); [lia|exact Hd].
      * intros (i & Hi & Hleast). destruct i as [|i].
        -- apply match_at_spec in Hi. congruence.
        -- exists i. split; [now apply declares_at_cons in Hi|].
           intros j g' Hj Hd. apply (Hleast (S j) g'); [lia|].
           now apply declares_at_cons.
Qed.

Lemma search_None l : Enc.search l = None <-> no_declaration l.
Proof.
  unfold no_declaration. split.
  - intros Hs i. induction i as [i IHi] using lt_wf_ind. intros g Hd.
    assert (Hdec : declared l g).
    { exists i. split; [exact Hd|]. intros j g' Hj. now apply IHi. }
    apply search_Some in Hdec. congruence.
  - intros Hno. destruct (Enc.search l) as [g|] eqn:Es; [|reflexivity].
    apply search_Some in Es as (i & Hi & _). now apply Hno in Hi.
Qed.

Lemma aliases_In enc :
  existsb (String.eqb enc) Enc.utf16_aliases = true <-> In enc Enc.utf16_aliases.
Proof.
  rewrite existsb_exists. split.
  - intros (x & Hx & He). apply String.eqb_eq in He as ->. exact Hx.
  - intros H. exists enc. split; [exact H|apply String.eqb_refl].
Qed.

(** C5, as amended.  The detector returns exactly what the ordered policy
    prescribes: [utf-16le] or [utf-16be] on the two-byte byte-order mark;
    otherwise, on the name declared by the leftmost [encoding="..."] of the
    first 200 bytes, that name with its non-ASCII bytes dropped and its
    letters lowered, replaced by [utf-16le] when it is then one of the
    UTF-16 and UCS-2 aliases; otherwise [utf-8]. *)
Theorem detect_xml_encoding_policy raw enc :
  _detect_xml_encoding raw = enc <-> detect_policy raw enc.
Proof.
  unfold _detect_xml_encoding. split.
  - intros <-.
    destruct (Enc.starts_with [xff; xfe] raw) eqn:E1.
    { apply policy_bom_le. now apply starts_with_bom. }
    destruct (Enc.starts_with [xfe; xff] raw) eqn:E2.
    { apply policy_bom_be. now apply starts_with_bom. }
    assert (Hnb : no_bom raw).
    { split; intros H; apply starts_with_bom in H; congruence. }
    destruct (Enc.search (firstn 200 raw)) as [g|] eqn:Es.
    + apply search_Some in Es.
      destruct (existsb _ Enc.utf16_aliases) eqn:Ea.
      * apply aliases_In in Ea. now apply policy_alias with g.
      * apply policy_declared; [exact Hnb|exact Es|].
        rewrite <- aliases_In. congruence.
    + apply search_None in Es. now apply policy_default.
  - intros H.
    assert (Hno : no_bom raw ->
                  Enc.starts_with [xff; xfe] raw = false
                  /\ Enc.starts_with [xfe; xff] raw = false).
    { intros [H1 H2]. split; apply not_true_is_false; intros Hs;
        apply starts_with_bom in Hs; tauto. }
    destruct H as [Hb|Hb|g Hnb Hd Ha|g Hnb Hd Ha|Hnb Hd].
    + apply starts_with_bom in Hb. now rewrite Hb.
    + destruct Hb as [rest ->]. reflexivity.
    + destruct (Hno Hnb) as [-> ->]. apply search_Some in Hd. rewrite Hd.
      apply aliases_In in Ha. now rewrite Ha.
    + destruct (Hno Hnb) as [-> ->]. apply search_Some in Hd. rewrite Hd.
      rewrite <- aliases_In in Ha. apply not_true_is_false in Ha. now rewrite Ha.
    + destruct (Hno Hnb) as [-> ->]. apply search_None in Hd. now rewrite Hd.
Qed.

(** C5 as stated fails on the declared name: the document that starts with
    [<?xml version="1.0" encoding="Windows-1252"?>] declares the name
    [Windows-1252], which is no UTF-16 alias in any letter case, and the
    detector returns [windows-1252], not the name as declared. *)
Lemma detect_lowers_declared_name :
  no_bom Fixtures.doc_cp1252
  /\ declared (firstn 200 Fixtures.doc_cp1252) (Fixtures.bytes "Windows-1252")
  /\ ~ In (Enc.ascii_lower (Fixtures.bytes "Windows-1252")) Enc.utf16_aliases
  /\ _detect_xml_encoding Fixtures.doc_cp1252 = "windows-1252"
  /\ _detect_xml_encoding Fixtures.doc_cp1252
     <> string_of_list_byte (Fixtures.bytes "Windows-1252").
Proof.
  split.
  { split; intros [rest H]; discriminate H. }
  split.
  { apply search_Some. reflexivity. }
  split.
  { intros H. vm_compute in H. intuition discriminate. }
  split; [reflexivity|]. intros H. vm_compute in H. discriminate H.
Qed.

Example detect_bom_wins :
  _detect_xml_encoding (xff :: xfe :: Fixtures.doc_cp1252) = "utf-16le".
Proof. reflexivity. Qed.

Example detect_alias :
  _detect_xml_encoding
    (Fixtures.bytes "<?xml ENCODING=" ++ [Enc.quote] ++ Fixtures.bytes "UTF-16BE"
     ++ [Enc.quote] ++ Fixtures.bytes "?>")%list = "utf-16le".
Proof. reflexivity. Qed.

Example detect_default : _detect_xml_encoding (Fixtures.bytes "<ROOT/>") = "utf-8".
Proof. reflexivity. Qed.

(** ** Aggregation *)

Lemma first_seen_in c l : In c l -> (first_seen c l < length l)%nat.
Proof.
  induction l as [|x r IH]; simpl; [tauto|].
  destruct (String.eqb x c) eqn:E; [lia|].
  intros [->|H]; [rewrite String.eqb_refl in E; discriminate|].
  specialize (IH H). lia.
Qed.

Lemma first_seen_app_in c l k : In c l -> first_seen c (l ++ k) = first_seen c l.
Proof.
  induction l as [|x r IH]; simpl; [tauto|].
  destruct (String.eqb x c) eqn:E; [reflexivity|].
  intros [->|H]; [rewrite String.eqb_refl in E; discriminate|].
  now rewrite IH.
Qed.

Lemma first_seen_app_notin c l k :
  ~ In c l -> first_seen c (l ++ k) = (length l + first_seen c k)%nat.
Proof.
  induction l as [|x r IH]; simpl; [reflexivity|].
  intros H. destruct (String.eqb x c) eqn:E.
  - apply String.eqb_eq in E. tauto.
  - rewrite IH; [reflexivity|tauto].
Qed.

Section Sorted_facts.
Context {A : Type}.

Lemma StronglySorted_weaken (R R' : A -> A -> Prop) l :
    (forall a b, In a l -> In b l -> R a b -> R' a b) ->
    StronglySorted R l -> StronglySorted R' l.
Proof.
    induction l as [|x l IH]; intros Himp Hs; [constructor|].
    apply StronglySorted_inv in Hs as [Hs Hx]. constructor.
    - apply IH; [|exact Hs]. intros a b Ha Hb. apply Himp; now right.
    - rewrite List.Forall_forall in *. intros b Hb.
      apply Himp; [now left|now right|now apply Hx].
Qed.

Lemma StronglySorted_list_filter (R : A -> A -> Prop) p l :
    StronglySorted R l -> StronglySorted R (List.filter p l).
Proof.
    induction 1 as [|x l Hs IH Hx]; simpl; [constructor|].
    destruct (p x); [|exact IH]. constructor; [exact IH|].
    rewrite List.Forall_forall in *. intros b Hb.
    apply filter_In in Hb as [Hb _]. now apply Hx.
Qed.

Lemma StronglySorted_NoDup (R : A -> A -> Prop) l :
    (forall a, ~ R a a) -> StronglySorted R l -> NoDup l.
Proof.
    intros Hirr. induction 1 as [|x l Hs IH Hx]; constructor; [|exact IH].
    rewrite List.Forall_forall in Hx. intros Hin.
    apply list_elem_of_In in Hin. exact (Hirr x (Hx x Hin)).
Qed.
End Sorted_facts.

Lemma union_columns_flat frames acc :
  fold_left (fun acc f => fold_left add_unseen (columns f) acc) frames acc
  = fold_left add_unseen (flat_map columns frames) acc.
Proof.
  revert acc. induction frames as [|f fr IH]; intros acc; simpl; [reflexivity|].
  now rewrite fold_left_app, IH.
Qed.

Lemma observed_columns frames :
  map fst (flat_map columns frames) = observed frames.
Proof.
  unfold observed, names. induction frames as [|f fr IH]; simpl; [reflexivity|].
  now rewrite map_app, IH.
Qed.

Lemma add_unseen_fold l :
  let N := map fst (fold_left add_unseen l []) in
  (forall c, In c N <-> In c (map fst l))
  /\ StronglySorted (fun a b => (first_seen a (map fst l) < first_seen b (map fst l))%nat) N.
Proof.
  induction l as [|x l IH] using rev_ind; simpl.
  - split; [tauto|constructor].
  - destruct IH as [Hmem Hsort]. rewrite fold_left_app. simpl.
    set (S := fold_left add_unseen l []) in *.
    rewrite map_app. simpl. unfold add_unseen.
    destruct (existsb (String.eqb (fst x)) (map fst S)) eqn:Ex.
    + assert (Hx : In (fst x) (map fst l)).
      { apply Hmem. apply existsb_exists in Ex as (y & Hy & E).
        apply String.eqb_eq in E as ->. exact Hy. }
      split.
      * intros c. rewrite Hmem, in_app_iff. simpl. split; [tauto|].
        intros [H|[<-|[]]]; assumption.
      * eapply StronglySorted_weaken; [|exact Hsort].
        intros a b Ha Hb. apply Hmem in Ha, Hb.
        now rewrite !first_seen_app_in.
    + assert (Hx : ~ In (fst x) (map fst l)).
      { intros H. apply Hmem in H.
        assert (existsb (String.eqb (fst x)) (map fst S) = true); [|congruence].
        apply existsb_exists. exists (fst x). split; [exact H|apply String.eqb_refl]. }
      rewrite map_app. simpl. split.
      * intros c. rewrite !in_app_iff, Hmem. reflexivity.
      * apply StronglySorted_app. split; [|split].
        -- intros a b Ha Hb. apply list_elem_of_In, Hmem in Ha.
           apply list_elem_of_In in Hb as [<-|[]].
           rewrite (first_seen_app_in a _ _ Ha), (first_seen_app_notin _ _ _ Hx).
           apply first_seen_in in Ha. lia.
        -- eapply StronglySorted_weaken; [|exact Hsort].
           intros a b Ha Hb. apply Hmem in Ha, Hb.
           now rewrite !first_seen_app_in.
        -- repeat constructor.
Qed.

(** C8.  The header [main] writes is a list [pre] followed by
    [SourceFile]: [pre] has no repetition and no [SourceFile], holds exactly
    the other labels observed in some frame, and is sorted by the position
    at which each label is first seen when the per-file schemas are read one
    after the other. *)
Theorem output_columns_union frames :
  exists pre,
    output_columns (concat frames) = (pre ++ ["SourceFile"])%list
    /\ NoDup pre
    /\ ~ In "SourceFile" pre
    /\ (forall c, In c pre <->
                  c <> "SourceFile" /\ exists f, In f frames /\ In c (names f))
    /\ StronglySorted (seen_before frames) pre.
Proof.
  unfold output_columns, concat, names at 1, union_columns. simpl.
  rewrite union_columns_flat.
  destruct (add_unseen_fold (flat_map columns frames)) as [Hmem Hsort].
  rewrite observed_columns in Hmem, Hsort.
  set (N := map fst (fold_left add_unseen (flat_map columns frames) [])) in *.
  set (p := fun c => negb (String.eqb c "SourceFile")).
  assert (Hp : forall c, p c = true <-> c <> "SourceFile").
  { intros c. unfold p. rewrite negb_true_iff, String.eqb_neq. reflexivity. }
  assert (Hs : StronglySorted (seen_before frames) (List.filter p N)).
  { now apply StronglySorted_list_filter. }
  exists (List.filter p N). split; [reflexivity|]. split; [|split; [|split]].
  - eapply StronglySorted_NoDup; [|exact Hs]. unfold seen_before. intros a. lia.
  - rewrite filter_In, Hp. tauto.
  - intros c. rewrite filter_In, Hp, Hmem. unfold observed. rewrite in_flat_map. tauto.
  - exact Hs.
Qed.

Example output_columns_run :
  output_columns
    (concat [mkDF [("EventID", DInt); ("SourceFile", DObject); ("Message", DObject)] [];
             mkDF [("Message", DObject); ("Computer", DObject); ("EventID", DInt);
                   ("SourceFile", DObject)] []])
  = ["EventID"; "Message"; "Computer"; "SourceFile"].
Proof. reflexivity. Qed.

(** ** Worker *)

Create HintDb quiet.

Lemma bind_run {A B} (c : M A) (k : A -> M B) w :
  bind c k w = match c w with
               | (Ok a, w') => k a w'
               | (Raise e, w') => (Raise e, w')
               end.
Proof. reflexivity. Qed.

Lemma quiet_pure {A} (f : World -> result A) : quiet (fun w => (f w, w)).
Proof. intros w r w' [= _ <-]. exists []. now rewrite app_nil_r. Qed.

Lemma quiet_ret {A} (a : A) : quiet (ret a).
Proof. apply (quiet_pure (fun _ => Ok a)). Qed.

Lemma quiet_raise {A} e : quiet (@raise A e).
Proof. apply (quiet_pure (fun _ => Raise e)). Qed.

Lemma quiet_lift {A} (r : result A) : quiet (lift r).
Proof. apply (quiet_pure (fun _ => r)). Qed.

Lemma quiet_bind {A B} (c : M A) (k : A -> M B) :
  quiet c -> (forall a, quiet (k a)) -> quiet (bind c k).
Proof.
  intros Hc Hk w r w'. unfold bind.
  destruct (c w) as [[a|e] w1] eqn:Ec; destruct (Hc _ _ _ Ec) as (evs1 & E1 & F1).
  - intros Hr. destruct (Hk a _ _ _ Hr) as (evs2 & E2 & F2).
    exists (evs1 ++ evs2)%list. rewrite E2, E1, app_assoc.
    split; [reflexivity|]. now apply Forall_app.
  - intros [= <- <-]. eauto.
Qed.

Lemma quiet_try_except {A} (c : M A) handles h :
  quiet c -> (forall e, quiet (h e)) -> quiet (try_except c handles h).
Proof.
  intros Hc Hh w r w'. unfold try_except.
  destruct (c w) as [[a|e] w1] eqn:Ec; destruct (Hc _ _ _ Ec) as (evs1 & E1 & F1).
  - intros [= <- <-]. eauto.
  - destruct (handles e).
    + intros Hr. destruct (Hh e _ _ _ Hr) as (evs2 & E2 & F2).
      exists (evs1 ++ evs2)%list. rewrite E2, E1, app_assoc.
      split; [reflexivity|]. now apply Forall_app.
    + intros [= <- <-]. eauto.
Qed.

Lemma quiet_emit ev : is_rmtree ev = false -> quiet (emit ev).
Proof.
  intros Hev w r w' [= _ <-]. exists [ev]. split; [reflexivity|]. now constructor.
Qed.

Lemma quiet_logging env lv msg : quiet (logging env lv msg).
Proof.
  intros w r w'. unfold logging.
  destruct (os_logging env w lv msg); intros [= _ <-];
    (exists [Logged lv msg]; split; [reflexivity|now constructor]).
Qed.

Lemma quiet_append_line env path text : quiet (append_line env path text).
Proof.
  intros w r w'. unfold append_line.
  destruct (os_open_append env w path); [apply (quiet_raise e w)|].
  destruct (os_write env w path text); [apply (quiet_raise e w)|].
  apply (quiet_emit (Appended path text) eq_refl w).
Qed.

#[local] Hint Resolve quiet_ret quiet_raise quiet_lift quiet_logging
  quiet_append_line quiet_pure : quiet.
#[local] Hint Extern 2 (quiet (bind _ _)) => apply quiet_bind; [|intros ?] : quiet.
#[local] Hint Extern 2 (quiet (try_except _ _ _)) =>
  apply quiet_try_except; [|intros ?] : quiet.

Lemma quiet_log_error env log_file msg : quiet (_log_error env log_file msg).
Proof. unfold _log_error. auto with quiet. Qed.

Lemma quiet_read_bytes path : quiet (read_bytes path).
Proof.
  intros w r w'. unfold read_bytes.
  destruct (fs w !! path) as [[|content]|];
    [apply (quiet_raise (OSError path) w)|apply (quiet_ret content w)
    |apply (quiet_raise (OSError path) w)].
Qed.

Lemma quiet_getsize path : quiet (getsize path).
Proof.
  intros w r w'. unfold getsize.
  destruct (fs w !! path) as [[|content]|];
    [apply (quiet_ret 0 w)|apply (quiet_ret (Z.of_nat (length content)) w)
    |apply (quiet_raise (OSError path) w)].
Qed.

Lemma quiet_stage path content : quiet (stage path content).
Proof. intros w r w' [= _ <-]. exists []. simpl. now rewrite app_nil_r. Qed.

Lemma quiet_link env src dst : quiet (link env src dst).
Proof.
  intros w r w'. unfold link.
  destruct (os_link env w src dst); [apply (quiet_raise e w)|apply quiet_stage].
Qed.

Lemma quiet_copy2 env src dst : quiet (copy2 env src dst).
Proof.
  intros w r w'. unfold copy2.
  destruct (shutil_copy2 env w src dst) as [[e [part|]]|];
    [|apply (quiet_raise e w)|apply quiet_stage].
  intros [= _ <-]. exists []. simpl. now rewrite app_nil_r.
Qed.

Lemma quiet_run env cmd : quiet (run env cmd).
Proof.
  intros w r w'. unfold run. destruct (subprocess_run env w cmd) as [r0 fs'].
  intros [= _ <-]. exists [Spawned cmd]. split; [reflexivity|]. now constructor.
Qed.

#[local] Hint Resolve quiet_log_error quiet_read_bytes quiet_getsize quiet_link
  quiet_copy2 quiet_run : quiet.

Lemma quiet_safe_copy env L src dst_dir : quiet (_safe_copy env L src dst_dir).
Proof. unfold _safe_copy. auto 10 with quiet. Qed.

Lemma quiet_safe_read_xml L path : quiet (_safe_read_xml L path).
Proof.
  unfold _safe_read_xml. apply quiet_bind; [auto 10 with quiet|].
  intros [r|]; auto 10 with quiet.
Qed.

#[local] Hint Resolve quiet_safe_copy quiet_safe_read_xml : quiet.

Lemma quiet_worker_body env L job tmp_dir : quiet (_worker_body env L job tmp_dir).
Proof.
  unfold _worker_body. apply quiet_bind; [auto with quiet|]. intros safe_src.
  apply quiet_bind; [auto with quiet|]. intros [[returncode out] err].
  destruct (negb (returncode =? 0)); [auto 10 with quiet|].
  unfold isfile. apply quiet_bind; [auto with quiet|]. intros present.
  apply quiet_bind; [destruct present; auto with quiet|]. intros size.
  destruct (negb present || (size =? 0)); [auto 10 with quiet|].
  apply quiet_bind; [auto with quiet|]. intros [d|]; [|auto 10 with quiet].
  destruct (empty d); auto 10 with quiet.
Qed.

Lemma rmtree_clears L d left (m : gmap string node) p :
  path_below L d p = true ->
  filter (fun kv => survives L d left (fst kv) = true) m !! p = None \/ In p left.
Proof.
  intros Hb. destruct (existsb (String.eqb p) left) eqn:Ex.
  - right. apply existsb_exists in Ex as (q & Hq & Heq).
    apply String.eqb_eq in Heq as ->. exact Hq.
  - left. apply map_lookup_filter_None. right. intros x _. simpl.
    unfold survives. rewrite Hb, Ex. discriminate.
Qed.

(** C9, as amended.  Once [mkdtemp] has created the temporary directory
    [d], every run of the worker, whatever the operating system, the
    decoder and the library answer and whether the run returns or raises,
    asks for the removal of the tree exactly once, as the last thing it
    does: the trace grows by the creation of [d], events none of which is a
    removal, and last the removal of [d].  The removal ignores errors:
    afterwards the file system holds neither [d] nor anything inside it,
    the staged file included, except for the paths the removal could not
    delete, and it is unchanged outside [d].  When [mkdtemp] itself raises,
    nothing was created and the world is unchanged. *)
Theorem worker_cleans_up env L job w :
  match os_mkdtemp env w "evtfilter_" with
  | Ok d =>
      exists r w2 w' evs,
        _worker env L job w = (r, w')
        /\ trace w' = (trace w ++ [Mkdtemp d] ++ evs ++ [Rmtree d])%list
        /\ Forall (fun ev => is_rmtree ev = false) evs
        /\ trace w2 = (trace w ++ [Mkdtemp d] ++ evs)%list
        /\ (forall p, path_below L d p = true ->
                      ~ In p (os_rmtree env w2 d) -> fs w' !! p = None)
        /\ (forall p, path_below L d p = false -> fs w' !! p = fs w2 !! p)
  | Raise e => _worker env L job w = (Raise e, w)
  end.
Proof.
  unfold _worker. rewrite bind_run. unfold mkdtemp.
  destruct (os_mkdtemp env w "evtfilter_") as [d|e]; [|reflexivity].
  unfold try_finally.
  set (w1 := {| fs := <[d:=Dir]> (fs w); trace := (trace w ++ [Mkdtemp d])%list |}).
  set (guarded := try_except _ _ _).
  assert (Hq : quiet guarded).
  { unfold guarded. apply quiet_try_except; [apply quiet_worker_body|].
    intros exc. auto with quiet. }
  destruct (guarded w1) as [r w2] eqn:Eg.
  destruct (Hq _ _ _ Eg) as (evs & Et & Hevs). simpl.
  eexists r, w2, _, evs. split; [reflexivity|]. simpl.
  split; [|split; [|split; [|split]]].
  - rewrite Et. simpl. now rewrite <- !app_assoc.
  - exact Hevs.
  - rewrite Et. simpl. now rewrite <- !app_assoc.
  - intros p Hp Hleft.
    destruct (rmtree_clears L d (os_rmtree env w2 d) (fs w2) p Hp) as [H|H];
      [exact H|contradiction].
  - intros p Hp. destruct (fs w2 !! p) as [x|] eqn:Ex.
    + apply map_lookup_filter_Some_2; [exact Ex|]. simpl.
      unfold survives. now rewrite Hp.
    + apply map_lookup_filter_None. now left.
Qed.

(** C9 as stated fails: when the operating system does not let the staged
    file go, the removal, which ignores errors, returns all the same and
    the staged file and its directory outlive the job. *)
Lemma worker_leaves_locked_staged_file :
  ~ (forall env L job w d p,
       os_mkdtemp env w "evtfilter_" = Ok d ->
       path_below L d p = true ->
       fs (snd (_worker env L job w)) !! p = None).
Proof.
  intros H.
  specialize (H (Fixtures.env_locked Fixtures.tmp_xml Fixtures.doc_no_rows)
                (Fixtures.lib_of (Ok Fixtures.df_events) Fixtures.no_rows)
                (Fixtures.job_of "a.evtx") Fixtures.w0
                "/tmp/evtfilter_0" "/tmp/evtfilter_0/c0ffee_a.evtx" eq_refl eq_refl).
  vm_compute in H. discriminate H.
Qed.

Example worker_locked_run :
  fs (snd (_worker (Fixtures.env_locked Fixtures.tmp_xml Fixtures.doc_no_rows)
             (Fixtures.lib_of (Ok Fixtures.df_events) Fixtures.no_rows)
             (Fixtures.job_of "a.evtx") Fixtures.w0))
  = {[ "/tmp/evtfilter_0" := Dir; "/tmp/evtfilter_0/c0ffee_a.evtx" := File [] ]}
  /\ fs (snd (_worker (Fixtures.env_ok Fixtures.tmp_xml Fixtures.doc_no_rows)
                (Fixtures.lib_of (Ok Fixtures.df_events) Fixtures.no_rows)
                (Fixtures.job_of "a.evtx") Fixtures.w0))
     = ∅.
Proof. split; vm_compute; reflexivity. Qed.

(** ** Encoding-resilient reader *)

(** When the direct parse fails with one of the two exceptions the first
    handler lets through, whatever the parse of the decoded text raises
    comes out of the reader: the exception itself, or, when it is the
    [XPathError] the second handler is written for, the [NameError] of the
    unbound name [Non]. *)
Lemma safe_read_xml_fallback_raises L path w raw e1 txt e2 :
  fs w !! path = Some (File raw) ->
  read_xml_bytes L raw = Raise e1 ->
  is_XPathError e1 || is_ValueError e1 = true ->
  bytes_decode_ignore L (_detect_xml_encoding raw) raw = Ok txt ->
  read_xml_text L txt = Raise e2 ->
  _safe_read_xml L path w
  = (Raise (if is_XPathError e2 then NameError "Non" else e2), w).
Proof.
  intros Hf H1 He Hd H2.
  unfold _safe_read_xml, bind, try_except, read_bytes, lift, ret, raise.
  rewrite Hf, H1, He, Hf, Hd, H2. destruct (is_XPathError e2); reflexivity.
Qed.

(** No run of the reader returns [None]. *)
Lemma safe_read_xml_never_None L path w w' :
  _safe_read_xml L path w <> (Ok None, w').
Proof.
  unfold _safe_read_xml, bind, try_except, read_bytes, lift, ret, raise.
  destruct (fs w !! path) as [[|raw]|] eqn:Ef; simpl; try discriminate.
  destruct (read_xml_bytes L raw) as [df|e1]; [discriminate|].
  destruct (is_XPathError e1 || is_ValueError e1); [|discriminate].
  rewrite Ef.
  destruct (bytes_decode_ignore L (_detect_xml_encoding raw) raw) as [txt|e];
    [|discriminate].
  destruct (read_xml_text L txt) as [df|e2]; [discriminate|].
  destruct (is_XPathError e2); discriminate.
Qed.

(** C1 fails on the code.  No run of [_safe_read_xml] returns the "no rows"
    signal [None].  On the document [<ROOT/>], in which neither parse finds
    a [ROW], the reader raises [NameError] for the unbound name [Non] where
    its docstring promises [None], and the worker reports the job through
    the Error Reporter, with no informational record. *)
Theorem worker_no_rows_raises_name_error :
  (forall L path w w', _safe_read_xml L path w <> (Ok None, w'))
  /\ _safe_read_xml (Fixtures.lib_of Fixtures.no_rows Fixtures.no_rows) Fixtures.tmp_xml
       (mkWorld {[ Fixtures.tmp_xml := File Fixtures.doc_no_rows ]} [])
     = (Raise (NameError "Non"),
        mkWorld {[ Fixtures.tmp_xml := File Fixtures.doc_no_rows ]} [])
  /\ fst (_worker (Fixtures.env_ok Fixtures.tmp_xml Fixtures.doc_no_rows)
            (Fixtures.lib_of Fixtures.no_rows Fixtures.no_rows)
            (Fixtures.job_of "a.evtx") Fixtures.w0) = Ok None
  /\ trace (snd (_worker (Fixtures.env_ok Fixtures.tmp_xml Fixtures.doc_no_rows)
                   (Fixtures.lib_of Fixtures.no_rows Fixtures.no_rows)
                   (Fixtures.job_of "a.evtx") Fixtures.w0))
     = [Mkdtemp "/tmp/evtfilter_0";
        Spawned (_build_lp_cmd "LogParser.exe" "/tmp/evtfilter_0/c0ffee_a.evtx"
                   Fixtures.tmp_xml);
        Logged ERROR "Exception processing a.evtx: name 'Non' is not defined";
        Appended "run.log"
          ("Exception processing a.evtx: name 'Non' is not defined"
           ++ String PyStr.newline "");
        Rmtree "/tmp/evtfilter_0"].
Proof.
  split; [exact safe_read_xml_never_None|]. split; [|split].
  - apply safe_read_xml_fallback_raises
      with (raw := Fixtures.doc_no_rows)
           (e1 := XPathError "xpath does not return any nodes")
           (txt := "<ROOT/>")
           (e2 := XPathError "xpath does not return any nodes");
      reflexivity.
  - vm_compute. reflexivity.
  - vm_compute. reflexivity.
Qed.

(** The other ways out of the worker, on concrete runs. *)

Example worker_success_run :
  fst (_worker (Fixtures.env_ok Fixtures.tmp_xml Fixtures.doc_no_rows)
         (Fixtures.lib_of (Ok Fixtures.df_events) Fixtures.no_rows)
         (Fixtures.job_of "a.evtx") Fixtures.w0)
  = Ok (Some (mkDF [("EventID", DInt); ("TimeGenerated", DDatetime);
                    ("Message", DObject); ("SourceFile", DObject)]
                   [[VInt 4624; VTime 5; VStr "logon§ interactive"; VStr "a.evtx"];
                    [VInt 4625; VTime 7; VStr "failure"; VStr "a.evtx"]])).
Proof. vm_compute. reflexivity. Qed.

Example worker_decoder_failure_run :
  fst (_worker Fixtures.env_broken_log
         (Fixtures.lib_of Fixtures.no_rows Fixtures.no_rows)
         (Fixtures.job_of "a.evtx") Fixtures.w0) = Ok None
  /\ map is_rmtree
       (trace (snd (_worker Fixtures.env_broken_log
                      (Fixtures.lib_of Fixtures.no_rows Fixtures.no_rows)
                      (Fixtures.job_of "a.evtx") Fixtures.w0)))
     = [false; false; false; true].
Proof. split; vm_compute; reflexivity. Qed.

Example worker_empty_output_run :
  trace (snd (_worker (Fixtures.env_ok Fixtures.tmp_xml [])
                (Fixtures.lib_of Fixtures.no_rows Fixtures.no_rows)
                (Fixtures.job_of "a.evtx") Fixtures.w0))
  = [Mkdtemp "/tmp/evtfilter_0";
     Spawned (_build_lp_cmd "LogParser.exe" "/tmp/evtfilter_0/c0ffee_a.evtx"
                Fixtures.tmp_xml);
     Logged INFO "a.evtx: log contained 0 events";
     Rmtree "/tmp/evtfilter_0"].
Proof. vm_compute. reflexivity. Qed.

(** * Further properties *)

(** ** Text helpers *)

Lemma split_nonempty sep s : PyStr.split sep s <> [].
Proof.
  destruct s as [|c r]; simpl; [discriminate|].
  destruct (Ascii.eqb c sep); [discriminate|].
  destruct (PyStr.split sep r); discriminate.
Qed.

(** X1.  [split] loses nothing and isolates the separator: joining the
    tokens with the separator gives the string back, and no token holds the
    separator. *)
Theorem split_join sep s :
  join (String sep "") (PyStr.split sep s) = s
  /\ Forall (fun tok => PyStr.contains sep tok = false) (PyStr.split sep s).
Proof.
  induction s as [|c r [IHj IHc]]; simpl.
  - split; [reflexivity|]. repeat constructor.
  - pose proof (split_nonempty sep r) as Hne.
    destruct (PyStr.split sep r) as [|h t] eqn:Es; [congruence|].
    destruct (Ascii.eqb c sep) eqn:Ec.
    + apply Ascii.eqb_eq in Ec as ->. split.
      * change (join (String sep "") ("" :: h :: t))
          with (String sep (join (String sep "") (h :: t))).
        now rewrite IHj.
      * constructor; [reflexivity|exact IHc].
    + split.
      * rewrite <- IHj. destruct t; reflexivity.
      * inversion IHc; subst. constructor; [|assumption].
        simpl. rewrite Ec. assumption.
Qed.

Lemma concat_empty_cons x l : String.concat "" (x :: l) = x ++ String.concat "" l.
Proof.
  destruct l as [|y l]; simpl; [|reflexivity].
  induction x as [|c x IH]; [reflexivity|].
  change (String c x = String c (x ++ "")). now f_equal.
Qed.

(** X2.  Iterating a text loses nothing: the lines concatenate to the text,
    none is empty, and a line holds a newline only as its last character. *)
Theorem lines_concat s :
  String.concat "" (PyStr.lines s) = s
  /\ Forall (fun ln => ln <> ""
                       /\ forall a b, ln = a ++ String PyStr.newline b -> b = "")
            (PyStr.lines s).
Proof.
  induction s as [|c r [IHj IHc]]; [split; [reflexivity|constructor]|].
  cbn [PyStr.lines]. destruct (Ascii.eqb c PyStr.newline) eqn:Ec.
  - apply Ascii.eqb_eq in Ec as ->. split.
    + rewrite concat_empty_cons, IHj. reflexivity.
    + constructor; [|exact IHc]. split; [discriminate|].
      intros a b H. destruct a as [|a0 a]; simpl in H.
      * now injection H as <-.
      * injection H as _ H. destruct a; discriminate H.
  - assert (Hhead : forall a b, String c "" = a ++ String PyStr.newline b -> b = "").
    { intros a b H. destruct a as [|a0 a]; simpl in H.
      - injection H as -> _. rewrite Ascii.eqb_refl in Ec. discriminate.
      - injection H as _ H. destruct a; discriminate H. }
    destruct (PyStr.lines r) as [|h t] eqn:Es.
    + simpl in IHj. subst r. split; [reflexivity|].
      constructor; [|constructor]. split; [discriminate|exact Hhead].
    + rewrite concat_empty_cons in *. split.
      * change (String c (h ++ String.concat "" t) = String c r). now rewrite IHj.
      * inversion IHc as [|? ? [Hne Hnl] Ht]; subst.
        constructor; [|assumption]. split; [discriminate|].
        intros a b H. destruct a as [|a0 a]; simpl in H.
        -- injection H as -> _. rewrite Ascii.eqb_refl in Ec. discriminate.
        -- injection H as _ H. eapply Hnl, H.
Qed.

(** ** Safe staging *)

Lemma sub_percent_clean in_run s :
  PyStr.contains "%" (sub_percent in_run s) = false.
Proof.
  revert in_run. induction s as [|c r IH]; intros in_run; simpl; [reflexivity|].
  destruct (Ascii.eqb c "%") eqn:Ec.
  - destruct in_run; simpl; now rewrite ?IH.
  - simpl. now rewrite Ec, IH.
Qed.

Lemma sub_percent_same in_run s :
  PyStr.contains "%" s = false -> sub_percent in_run s = s.
Proof.
  revert in_run. induction s as [|c r IH]; intros in_run; simpl; [reflexivity|].
  destruct (Ascii.eqb c "%"); simpl; [discriminate|].
  intros H. now rewrite IH.
Qed.

(** X3.  The name a source is staged under, before the random component is
    put in front, holds no percent sign, and it is the base name of the
    source exactly when that held none. *)
Theorem staged_name_clean L src :
  PyStr.contains "%" (sub_percent false (path_basename L src)) = false
  /\ (sub_percent false (path_basename L src) = path_basename L src
      <-> PyStr.contains "%" (path_basename L src) = false).
Proof.
  split; [apply sub_percent_clean|]. split.
  - intros H. rewrite <- H. apply sub_percent_clean.
  - apply sub_percent_same.
Qed.

(** Staging, case by case: [left] is what a copy that raises leaves at the
    staged path. *)
Lemma safe_copy_run env L src dst w :
  _safe_copy env L src dst w =
  let p := staged_path L dst (uuid4_hex env w) src in
  let staged := mkWorld (<[p := File (os_source_bytes env w src)]> (fs w)) (trace w) in
  match os_link env w src p with
  | None => (Ok p, staged)
  | Some e =>
      if is_OSError e || is_AttributeError e then
        match shutil_copy2 env w src p with
        | None => (Ok p, staged)
        | Some (e', Some part) => (Raise e', mkWorld (<[p := File part]> (fs w)) (trace w))
        | Some (e', None) => (Raise e', w)
        end
      else (Raise e, w)
  end.
Proof.
  unfold _safe_copy, staged_path, bind, try_except, link, copy2, stage, ret. simpl.
  destruct (os_link env w src _) as [e|]; [|reflexivity].
  destruct (is_OSError e || is_AttributeError e); [|reflexivity].
  destruct (shutil_copy2 env w src _) as [[e' [part|]]|]; reflexivity.
Qed.

(** X4.  When staging returns, the path it returns is what [os.path.join]
    makes of the staging directory and of the random component, an
    underscore and the cleaned base name of the source; the file system has
    gained the source's bytes at that path and nothing else has changed. *)
Theorem safe_copy_stages env L src dst w p w' :
  _safe_copy env L src dst w = (Ok p, w') ->
  p = path_join L dst (uuid4_hex env w ++ "_" ++ sub_percent false (path_basename L src))
  /\ fs w' = <[p := File (os_source_bytes env w src)]> (fs w)
  /\ (forall q, q <> p -> fs w' !! q = fs w !! q)
  /\ trace w' = trace w.
Proof.
  rewrite safe_copy_run. cbv zeta. fold (staged_path L dst (uuid4_hex env w) src).
  assert (G : forall q, q <> staged_path L dst (uuid4_hex env w) src ->
                        <[staged_path L dst (uuid4_hex env w) src
                          := File (os_source_bytes env w src)]> (fs w) !! q = fs w !! q).
  { intros q Hq. apply lookup_insert_ne. congruence. }
  destruct (os_link env w src _) as [e|].
  - destruct (is_OSError e || is_AttributeError e); [|discriminate].
    destruct (shutil_copy2 env w src _) as [[e' [part|]]|]; try discriminate.
    intros [= <- <-]. simpl. auto.
  - intros [= <- <-]. simpl. auto.
Qed.

(** X5.  Staging returns exactly when the hard link succeeds, or fails with
    [OSError] or [AttributeError] and the copy then succeeds. *)
Theorem safe_copy_returns_iff env L src dst w :
  (exists p w', _safe_copy env L src dst w = (Ok p, w'))
  <-> (os_link env w src (staged_path L dst (uuid4_hex env w) src) = None
       \/ exists e,
            os_link env w src (staged_path L dst (uuid4_hex env w) src) = Some e
            /\ is_OSError e || is_AttributeError e = true
            /\ shutil_copy2 env w src (staged_path L dst (uuid4_hex env w) src) = None).
Proof.
  rewrite safe_copy_run. cbv zeta.
  destruct (os_link env w src _) as [e|] eqn:El.
  - destruct (is_OSError e || is_AttributeError e) eqn:Ee.
    + destruct (shutil_copy2 env w src _) as [[e' [part|]]|] eqn:Ec.
      * split; [intros (p & w' & [=])|].
        intros [[=]|(e0 & [= <-] & _ & [=])].
      * split; [intros (p & w' & [=])|].
        intros [[=]|(e0 & [= <-] & _ & [=])].
      * split; [|eauto]. intros _. right. exists e. auto.
    + split; [intros (p & w' & [=])|].
      intros [[=]|(e0 & [= <-] & He & _)]. congruence.
  - split; eauto.
Qed.

(** X6.  When staging raises, nothing has been added to the trace.  The
    exception is the one of the hard link, of a class the fallback does not
    handle, and the file system is as it was; or it is the one of the copy
    that followed a hard link the fallback handles, and the file system is
    as it was but for what the failed copy left at the staged path. *)
Theorem safe_copy_failure env L src dst w e w' :
  _safe_copy env L src dst w = (Raise e, w') ->
  trace w' = trace w
  /\ ((os_link env w src (staged_path L dst (uuid4_hex env w) src) = Some e
       /\ is_OSError e || is_AttributeError e = false
       /\ w' = w)
      \/ (exists e0 left,
            os_link env w src (staged_path L dst (uuid4_hex env w) src) = Some e0
            /\ is_OSError e0 || is_AttributeError e0 = true
            /\ shutil_copy2 env w src (staged_path L dst (uuid4_hex env w) src)
               = Some (e, left)
            /\ fs w' = match left with
                       | Some part =>
                           <[staged_path L dst (uuid4_hex env w) src := File part]> (fs w)
                       | None => fs w
                       end)).
Proof.
  rewrite safe_copy_run. cbv zeta.
  destruct (os_link env w src _) as [e0|] eqn:El; [|discriminate].
  destruct (is_OSError e0 || is_AttributeError e0) eqn:Ee.
  - destruct (shutil_copy2 env w src _) as [[e' [part|]]|] eqn:Ec; [| |discriminate].
    + intros [= <- <-]. split; [reflexivity|]. right. exists e0, (Some part). auto.
    + intros [= <- <-]. split; [reflexivity|]. right. exists e0, None. auto.
  - intros [= <- <-]. auto.
Qed.

(** ** Filter Spec Loader *)

(** X7.  When the inline tokens and the lines the ID file yields are all
    accepted and the reading of the file ends with an exception, as it does
    at once for a file that cannot be opened, the loader raises that
    exception and leaves the world alone; no [None] or partial list comes
    back. *)
Theorem load_id_list_missing_file env L a f p txt e w :
  given f = Some p ->
  os_read_text env w p = (txt, Some e) ->
  ~ Exists (rejected L) (inline_tokens a ++ PyStr.lines txt) ->
  _load_id_list env L a f w = (Raise e, w).
Proof.
  intros Hf Hr Hin. apply load_id_list_raises. right.
  unfold file_lines, read_failure. rewrite Hf, Hr. auto.
Qed.

(** ** Encoding detector *)

Lemma starts_with_bom_firstn b1 b2 raw :
  Enc.starts_with [b1; b2] (firstn 200 raw) = Enc.starts_with [b1; b2] raw.
Proof. destruct raw as [|x [|y r]]; reflexivity. Qed.

(** X8.  The detector never looks past the first 200 bytes: a document and
    its first 200 bytes get the same codec. *)
Theorem detect_reads_200_bytes raw :
  _detect_xml_encoding (firstn 200 raw) = _detect_xml_encoding raw.
Proof.
  unfold _detect_xml_encoding.
  rewrite !starts_with_bom_firstn, List.firstn_firstn, Nat.min_id. reflexivity.
Qed.

(** ** Encoding-resilient reader *)

Lemma safe_read_xml_run L path w :
  _safe_read_xml L path w =
  match fs w !! path with
  | Some (File raw) =>
      match read_xml_bytes L raw with
      | Ok df => (Ok (Some df), w)
      | Raise e1 =>
          if is_XPathError e1 || is_ValueError e1 then
            match bytes_decode_ignore L (_detect_xml_encoding raw) raw with
            | Ok txt =>
                match read_xml_text L txt with
                | Ok df => (Ok (Some df), w)
                | Raise e2 =>
                    (Raise (if is_XPathError e2 then NameError "Non" else e2), w)
                end
            | Raise e => (Raise e, w)
            end
          else (Raise e1, w)
      end
  | _ => (Raise (OSError path), w)
  end.
Proof.
  unfold _safe_read_xml, bind, try_except, read_bytes, lift, ret, raise.
  destruct (fs w !! path) as [[|raw]|] eqn:Ef; simpl; try reflexivity.
  destruct (read_xml_bytes L raw) as [df|e1]; [reflexivity|].
  destruct (is_XPathError e1 || is_ValueError e1); [|reflexivity].
  rewrite Ef.
  destruct (bytes_decode_ignore L (_detect_xml_encoding raw) raw) as [txt|e];
    [|reflexivity].
  destruct (read_xml_text L txt) as [df|e2]; [reflexivity|].
  destruct (is_XPathError e2); reflexivity.
Qed.

(** X9.  Recovery.  When the direct parse of the document fails with
    [XPathError] or [ValueError], the bytes decode under the detected codec
    and the parse of the decoded text finds rows, the reader returns those
    rows. *)
Theorem safe_read_xml_recovers L path w raw e1 txt df :
  fs w !! path = Some (File raw) ->
  read_xml_bytes L raw = Raise e1 ->
  is_XPathError e1 || is_ValueError e1 = true ->
  bytes_decode_ignore L (_detect_xml_encoding raw) raw = Ok txt ->
  read_xml_text L txt = Ok df ->
  _safe_read_xml L path w = (Ok (Some df), w).
Proof.
  intros Hf H1 He Hd H2. now rewrite safe_read_xml_run, Hf, H1, He, Hd, H2.
Qed.

(** X10.  No second chance for other failures.  An exception of the direct
    parse that is neither [XPathError] nor [ValueError] comes out of the
    reader as it is, without any manual decode; and when the manual decode
    is reached and the detected codec makes the decoding raise, for instance
    because the declared name is no codec, the reader raises that exception
    rather than fall back to another codec. *)
Theorem safe_read_xml_failures L path w raw e1 :
  fs w !! path = Some (File raw) ->
  read_xml_bytes L raw = Raise e1 ->
  (is_XPathError e1 || is_ValueError e1 = false ->
   _safe_read_xml L path w = (Raise e1, w))
  /\ (is_XPathError e1 || is_ValueError e1 = true ->
      forall e, bytes_decode_ignore L (_detect_xml_encoding raw) raw = Raise e ->
                _safe_read_xml L path w = (Raise e, w)).
Proof.
  intros Hf H1. rewrite safe_read_xml_run, Hf, H1. split.
  - now intros ->.
  - intros -> e ->. reflexivity.
Qed.

(** ** Record Filter and Normaliser *)

Lemma names_alter dt k (cols : list (string * dtype)) :
  map fst (alter (set_dtype dt) k cols) = map fst cols.
Proof.
  revert k. induction cols as [|c cs IH]; intros [|k]; simpl; try reflexivity.
  f_equal. apply IH.
Qed.

Lemma bool_index_length mask df :
  (length (rows (bool_index mask df)) <= length (rows df))%nat.
Proof.
  unfold bool_index. simpl. rewrite length_map.
  etransitivity; [apply List.filter_length_le|].
  rewrite length_combine. lia.
Qed.

Lemma bool_index_rows_In mask df r :
  In r (rows (bool_index mask df)) -> In r (rows df).
Proof.
  unfold bool_index. simpl. rewrite in_map_iff.
  intros ([b r'] & <- & H). apply filter_In in H as [H _].
  now apply in_combine_r in H.
Qed.

Lemma norm_row_length L placeholder cols r :
  length (norm_row L placeholder cols r) = length r.
Proof.
  revert r. induction cols as [|[n d] cs IH]; intros r; [reflexivity|].
  destruct r as [|x xs]; [now destruct d|].
  destruct d; simpl; now rewrite IH.
Qed.

Lemma time_filter_Ok L start end_ df df1 :
  time_filter L start end_ df = Ok df1 ->
  df1 = df
  \/ exists k c,
       col_index "TimeGenerated" (columns df) = Some k
       /\ to_datetime L (get_col k df) = Ok c
       /\ tz_aware c = false
       /\ df1 = mkDF (alter (set_dtype DDatetime) k (columns df))
                     (List.filter
                        (fun r => ge_bound start (cell k r) && le_bound end_ (cell k r))
                        (zip_with (fun r v => <[k:=v]> r) (rows df)
                                  (map of_coerced (instants c)))).
Proof.
  rewrite time_filter_run.
  destruct (col_index "TimeGenerated" (columns df)) as [k|]; [|intros [= <-]; now left].
  destruct (to_datetime L (get_col k df)) as [c|e] eqn:Ec; [|discriminate].
  destruct (tz_aware c) eqn:Etz; [discriminate|].
  intros [= <-]. right. exists k, c. auto.
Qed.

Lemma time_filter_names L start end_ df df1 :
  time_filter L start end_ df = Ok df1 -> names df1 = names df.
Proof.
  intros H. apply time_filter_Ok in H as [->|(k & c & _ & _ & _ & ->)]; [reflexivity|].
  apply names_alter.
Qed.

Lemma filter_frame_names L df start end_ incl excl placeholder out :
  _filter_frame L df start end_ incl excl placeholder = Ok out ->
  names out = names df.
Proof.
  intros H. apply filter_frame_Ok in H as (df1 & Ht & ->).
  rewrite <- (time_filter_names _ _ _ _ _ Ht).
  unfold normalise, names, eventid_filter. simpl.
  now rewrite exclude_filter_columns, include_filter_columns.
Qed.

(** X11.  Filtering keeps the schema and adds no record: the table
    [_filter_frame] returns has the labels of the table it was given, in the
    same order, and at most as many rows. *)
Theorem filter_frame_schema L df start end_ incl excl placeholder out :
  _filter_frame L df start end_ incl excl placeholder = Ok out ->
  names out = names df
  /\ (length (rows out) <= length (rows df))%nat.
Proof.
  intros Hout. split; [exact (filter_frame_names _ _ _ _ _ _ _ _ Hout)|].
  apply filter_frame_Ok in Hout as (df1 & Ht & ->).
  unfold normalise, eventid_filter. simpl. rewrite length_map.
  assert (Hl : (length (rows df1) <= length (rows df))%nat).
  { apply time_filter_Ok in Ht as [->|(k & c & _ & _ & _ & ->)]; [lia|]. simpl.
    etransitivity; [apply List.filter_length_le|].
    rewrite length_zip_with. lia. }
  assert (Hi : (length (rows (include_filter incl df1)) <= length (rows df1))%nat).
  { unfold include_filter. destruct incl; [|lia].
    destruct (col_index "EventID" _); [apply bool_index_length|lia]. }
  assert (He : (length (rows (exclude_filter excl (include_filter incl df1)))
                <= length (rows (include_filter incl df1)))%nat).
  { unfold exclude_filter. destruct excl; [|lia].
    destruct (col_index "EventID" _); [apply bool_index_length|lia]. }
  lia.
Qed.

(** X12.  Filtering keeps the table rectangular: when every row of the
    input is as long as the list of columns, so is every row returned. *)
Theorem filter_frame_rectangular L df start end_ incl excl placeholder out :
  Forall (fun r => length r = length (columns df)) (rows df) ->
  _filter_frame L df start end_ incl excl placeholder = Ok out ->
  Forall (fun r => length r = length (columns out)) (rows out).
Proof.
  intros Hwf Hout.
  assert (Hcols : length (columns out) = length (columns df)).
  { rewrite <- !(length_map fst). fold (names df). fold (names out).
    now rewrite (filter_frame_names _ _ _ _ _ _ _ _ Hout). }
  rewrite Hcols. apply filter_frame_Ok in Hout as (df1 & Ht & ->).
  unfold normalise, eventid_filter. simpl.
  rewrite List.Forall_forall in *. intros r Hr.
  apply in_map_iff in Hr as (r0 & <- & Hr0). rewrite norm_row_length.
  assert (Hrows : forall r1, In r1 (rows df1) -> length r1 = length (columns df)).
  { apply time_filter_Ok in Ht as [->|(k & c & _ & _ & _ & ->)]; [exact Hwf|].
    simpl. intros r1 H1. apply filter_In in H1 as [H1 _].
    apply list_elem_of_In, elem_of_lookup_zip_with in H1 as (i & x & y & -> & Hx & _).
    rewrite length_insert. apply Hwf, list_elem_of_In.
    eapply list_elem_of_lookup_2, Hx. }
  apply Hrows.
  assert (Hi : forall d r1, In r1 (rows (include_filter incl d)) -> In r1 (rows d)).
  { intros d r1. unfold include_filter. destruct incl; [|auto].
    destruct (col_index "EventID" _); [apply bool_index_rows_In|auto]. }
  assert (He : forall d r1, In r1 (rows (exclude_filter excl d)) -> In r1 (rows d)).
  { intros d r1. unfold exclude_filter. destruct excl; [|auto].
    destruct (col_index "EventID" _); [apply bool_index_rows_In|auto]. }
  now apply Hi, He.
Qed.

Lemma bool_index_filter (g : list value -> bool) df :
  bool_index (map g (rows df)) df = mkDF (columns df) (List.filter g (rows df)).
Proof.
  unfold bool_index. f_equal. exact (bool_index_map g df).
Qed.

Lemma filter_filter_comm {A} (p q : A -> bool) l :
  List.filter p (List.filter q l) = List.filter q (List.filter p l).
Proof.
  induction l as [|x l IH]; simpl; [reflexivity|].
  destruct (p x) eqn:Hp; destruct (q x) eqn:Hq; simpl; rewrite ?Hp, ?Hq, IH; reflexivity.
Qed.

(** X13.  The order of the two EventID filters does not matter: excluding
    after including returns the same table as including after excluding. *)
Theorem eventid_filters_commute incl excl df :
  exclude_filter excl (include_filter incl df)
  = include_filter incl (exclude_filter excl df).
Proof.
  unfold exclude_filter, include_filter.
  destruct incl as [i|], excl as [e|];
    destruct (col_index "EventID" (columns df)) as [k|] eqn:Ek;
    simpl; rewrite ?Ek; try reflexivity.
  rewrite !get_col_map.
  rewrite (bool_index_filter (fun r => isin i (cell k r)) df).
  rewrite (bool_index_filter (fun r => negb (isin e (cell k r))) df).
  rewrite (bool_index_filter (fun r => negb (isin e (cell k r)))
             {| columns := columns df;
                rows := List.filter (fun r => isin i (cell k r)) (rows df) |}).
  rewrite (bool_index_filter (fun r => isin i (cell k r))
             {| columns := columns df;
                rows := List.filter (fun r => negb (isin e (cell k r))) (rows df) |}).
  simpl. now rewrite filter_filter_comm.
Qed.

Lemma replace_same old new s :
  PyStr.contains old s = false -> PyStr.replace old new s = s.
Proof.
  induction s as [|c s IH]; simpl; [reflexivity|].
  destruct (Ascii.eqb c old); simpl; [discriminate|]. intros H. now rewrite IH.
Qed.

(** X14.  Normalisation leaves clean text alone: a cell whose text holds no
    comma becomes exactly that text, whatever the placeholder. *)
Theorem norm_cell_clean L placeholder x :
  PyStr.contains PyStr.comma (to_text L x) = false ->
  norm_cell L placeholder x = VStr (to_text L x).
Proof. intros H. unfold norm_cell. now rewrite replace_same. Qed.

(** ** Tables *)

Lemma col_index_names name c1 c2 :
  map fst c1 = map fst c2 -> col_index name c1 = col_index name c2.
Proof.
  revert c2. induction c1 as [|[n d] r IH]; intros [|[n' d'] r']; simpl;
    try discriminate; [reflexivity|].
  intros [= -> H]. now rewrite (IH r' H).
Qed.

Lemma col_index_In name cols :
  In name (map fst cols) <-> exists k, col_index name cols = Some k.
Proof.
  induction cols as [|[n d] r IH]; simpl.
  - split; [tauto|]. intros [k [=]].
  - destruct (String.eqb n name) eqn:E.
    + apply String.eqb_eq in E. split; eauto.
    + apply String.eqb_neq in E. rewrite IH. split.
      * intros [H|[k Hk]]; [tauto|]. rewrite Hk. simpl. eauto.
      * intros [k Hk]. right. destruct (col_index name r); [eauto|discriminate].
Qed.

Lemma col_index_label name cols k :
  col_index name cols = Some k -> map fst cols !! k = Some name.
Proof.
  revert k. induction cols as [|[n d] r IH]; simpl; intros k; [discriminate|].
  destruct (String.eqb n name) eqn:E.
  - apply String.eqb_eq in E as ->. now intros [= <-].
  - destruct (col_index name r) as [k'|]; [|discriminate]. intros [= <-]. now apply IH.
Qed.

Lemma col_index_app_l name cols extra k :
  col_index name cols = Some k -> col_index name (cols ++ extra) = Some k.
Proof.
  revert k. induction cols as [|[n d] r IH]; simpl; intros k; [discriminate|].
  destruct (String.eqb n name); [auto|].
  destruct (col_index name r) as [k'|]; [|discriminate].
  intros [= <-]. now rewrite (IH k' eq_refl).
Qed.

Lemma col_index_app_new name cols d :
  col_index name cols = None ->
  col_index name (cols ++ [(name, d)]) = Some (length cols).
Proof.
  induction cols as [|[n d'] r IH]; simpl.
  - now rewrite String.eqb_refl.
  - destruct (String.eqb n name); [discriminate|].
    destruct (col_index name r); [discriminate|]. intros _. now rewrite IH.
Qed.

Lemma cell_lookup k (r : list value) v : r !! k = Some v -> cell k r = v.
Proof. intros H. unfold cell. now apply nth_lookup_Some. Qed.

Lemma cell_insert_ne k k' v (r : list value) :
  k <> k' -> cell k' (<[k:=v]> r) = cell k' r.
Proof.
  intros H. unfold cell. rewrite !nth_lookup, list_lookup_insert_ne; auto.
Qed.

(** X15.  Assigning a scalar to a label, as the worker does for
    [SourceFile]: on a rectangular table the label is then a column, every
    row reads the scalar under it, the table is still rectangular with the
    same number of rows, and every other label stays where it was and reads
    what it read before. *)
Theorem assign_scalar_spec name v df :
  Forall (fun r => length r = length (columns df)) (rows df) ->
  (exists k, col_index name (columns (assign_scalar name v df)) = Some k
             /\ Forall (fun r => r !! k = Some v) (rows (assign_scalar name v df)))
  /\ length (rows (assign_scalar name v df)) = length (rows df)
  /\ Forall (fun r => length r = length (columns (assign_scalar name v df)))
            (rows (assign_scalar name v df))
  /\ (forall other k,
        other <> name ->
        col_index other (columns df) = Some k ->
        col_index other (columns (assign_scalar name v df)) = Some k
        /\ map (cell k) (rows (assign_scalar name v df)) = map (cell k) (rows df)).
Proof.
  intros Hwf. rewrite List.Forall_forall in Hwf. unfold assign_scalar.
  destruct (col_index name (columns df)) as [k|] eqn:Ek; simpl.
  - pose proof (col_index_lt _ _ _ Ek) as Hk.
    assert (Hn : map fst (alter (set_dtype DObject) k (columns df)) = map fst (columns df))
      by apply names_alter.
    split; [|split; [|split]].
    + exists k. split; [now rewrite (col_index_names _ _ _ Hn)|].
      rewrite List.Forall_forall. intros r' Hr'.
      apply in_map_iff in Hr' as (r & <- & Hr).
      apply list_lookup_insert_eq. rewrite (Hwf r Hr). exact Hk.
    + apply length_map.
    + rewrite List.Forall_forall. intros r' Hr'.
      apply in_map_iff in Hr' as (r & <- & Hr).
      rewrite length_insert, (Hwf r Hr), <- !(length_map fst). now rewrite Hn.
    + intros other k' Hne Ho. split; [now rewrite (col_index_names _ _ _ Hn)|].
      rewrite map_map. apply map_ext. intros r. apply cell_insert_ne.
      intros ->. apply col_index_label in Ek, Ho. congruence.
  - split; [|split; [|split]].
    + exists (length (columns df)). split; [now apply col_index_app_new|].
      rewrite List.Forall_forall. intros r' Hr'.
      apply in_map_iff in Hr' as (r & <- & Hr).
      rewrite <- (Hwf r Hr). apply list_lookup_middle. reflexivity.
    + apply length_map.
    + rewrite List.Forall_forall. intros r' Hr'.
      apply in_map_iff in Hr' as (r & <- & Hr).
      rewrite !length_app, (Hwf r Hr). reflexivity.
    + intros other k' Hne Ho. split; [now apply col_index_app_l|].
      rewrite map_map. apply map_ext_in. intros r Hr. unfold cell.
      apply app_nth1. rewrite (Hwf r Hr). eapply col_index_lt, Ho.
Qed.

(** ** Aggregation *)

Lemma union_columns_names frames name :
  In name (names (concat frames)) <-> In name (observed frames).
Proof.
  unfold concat, names, union_columns. simpl. rewrite union_columns_flat.
  destruct (add_unseen_fold (flat_map columns frames)) as [Hmem _].
  rewrite Hmem, observed_columns. reflexivity.
Qed.

Lemma select_columns_Ok cols agg :
  (forall c, In c cols -> In c (names agg)) ->
  exists l, select_columns cols agg = Ok l /\ map fst l = cols.
Proof.
  induction cols as [|c r IH]; intros H; simpl; [exists []; auto|].
  assert (Hc : In c (names agg)) by (apply H; now left).
  apply col_index_In in Hc as [k Hk]. rewrite Hk.
  destruct IH as (l & -> & Hl); [intros c' Hc'; apply H; now right|].
  eexists. split; [reflexivity|]. simpl. rewrite Hl. f_equal.
  pose proof (col_index_label _ _ _ Hk) as Hlab.
  rewrite list_lookup_fmap in Hlab.
  destruct (columns agg !! k) as [x|] eqn:Ex; [|discriminate]. injection Hlab as <-.
  now rewrite (nth_lookup_Some _ _ _ _ Ex).
Qed.

Lemma select_columns_In cols agg l c :
  select_columns cols agg = Ok l -> In c cols -> In c (names agg).
Proof.
  revert l. induction cols as [|c0 r IH]; simpl; intros l H Hin; [tauto|].
  destruct (col_index c0 (columns agg)) as [k|] eqn:Ek; [|discriminate].
  destruct (select_columns r agg) as [l'|]; [|discriminate].
  destruct Hin as [<-|Hin]; [|now apply (IH l')].
  apply col_index_In. eauto.
Qed.

(** X18.  The selection of the output columns, [agg[cols]], goes through
    exactly when some frame has a [SourceFile] column, and then yields the
    output columns in their order; otherwise it raises. *)
Theorem select_output_columns frames :
  (exists l, select_columns (output_columns (concat frames)) (concat frames) = Ok l
             /\ map fst l = output_columns (concat frames))
  <-> exists f, In f frames /\ In "SourceFile" (names f).
Proof.
  split.
  - intros (l & Hl & _).
    assert (H : In "SourceFile" (names (concat frames))).
    { eapply select_columns_In; [exact Hl|]. unfold output_columns.
      apply in_app_iff. right. now left. }
    apply union_columns_names in H. unfold observed in H.
    now apply in_flat_map in H.
  - intros (f & Hf & Hs). apply select_columns_Ok. intros c Hc.
    unfold output_columns in Hc. apply in_app_iff in Hc as [Hc|[<-|[]]].
    + now apply filter_In in Hc.
    + apply union_columns_names. unfold observed. apply in_flat_map. eauto.
Qed.

(** ** Worker *)

Section Emits.
Variable P : event -> bool.
Hypothesis P_logged : forall lv msg, P (Logged lv msg) = true.
Hypothesis P_appended : forall path text, P (Appended path text) = true.
Hypothesis P_spawned : forall cmd, P (Spawned cmd) = true.

Lemma emits_pure {A} (f : World -> result A) : emits P (fun w => (f w, w)).
Proof. intros w r w' [= _ <-]. exists []. now rewrite app_nil_r. Qed.

Lemma emits_bind {A B} (c : M A) (k : A -> M B) :
  emits P c -> (forall a, emits P (k a)) -> emits P (bind c k).
Proof.
  intros Hc Hk w r w'. rewrite bind_run.
  destruct (c w) as [[a|e] w1] eqn:Ec; destruct (Hc _ _ _ Ec) as (evs1 & E1 & F1).
  - intros Hr. destruct (Hk a _ _ _ Hr) as (evs2 & E2 & F2).
    exists (evs1 ++ evs2)%list. rewrite E2, E1, app_assoc.
    split; [reflexivity|]. now apply Forall_app.
  - intros [= <- <-]. eauto.
Qed.

Lemma emits_try_except {A} (c : M A) handles h :
  emits P c -> (forall e, emits P (h e)) -> emits P (try_except c handles h).
Proof.
  intros Hc Hh w r w'. unfold try_except.
  destruct (c w) as [[a|e] w1] eqn:Ec; destruct (Hc _ _ _ Ec) as (evs1 & E1 & F1).
  - intros [= <- <-]. eauto.
  - destruct (handles e).
    + intros Hr. destruct (Hh e _ _ _ Hr) as (evs2 & E2 & F2).
      exists (evs1 ++ evs2)%list. rewrite E2, E1, app_assoc.
      split; [reflexivity|]. now apply Forall_app.
    + intros [= <- <-]. eauto.
Qed.

Lemma emits_emit ev : P ev = true -> emits P (emit ev).
Proof.
  intros Hev w r w' [= _ <-]. exists [ev]. split; [reflexivity|]. now constructor.
Qed.

Lemma emits_logging env lv msg : emits P (logging env lv msg).
Proof.
  intros w r w'. unfold logging.
  destruct (os_logging env w lv msg); intros [= _ <-];
    (exists [Logged lv msg]; split; [reflexivity|]);
    (constructor; [apply P_logged|constructor]).
Qed.

Lemma emits_log_error env log_file msg : emits P (_log_error env log_file msg).
Proof.
  unfold _log_error. apply emits_bind; [apply emits_logging|]. intros _.
  apply emits_try_except; [|intros _; apply (emits_pure (fun _ => Ok tt))].
  intros w r w'. unfold append_line.
  destruct (os_open_append env w log_file) as [e|];
    [apply (emits_pure (fun _ => Raise e))|].
  destruct (os_write env w log_file _) as [e|];
    [apply (emits_pure (fun _ => Raise e))|].
  apply (emits_emit _ (P_appended _ _) w).
Qed.

Lemma emits_unchanged {A} (c : M A) :
  (forall w r w', c w = (r, w') -> trace w' = trace w) -> emits P c.
Proof.
  intros H w r w' Hc. exists []. rewrite app_nil_r. split; [eauto|constructor].
Qed.

Lemma emits_safe_copy env L src dst : emits P (_safe_copy env L src dst).
Proof.
  apply emits_unchanged. intros w r w'. rewrite safe_copy_run. cbv zeta.
  destruct (os_link env w src _) as [e|].
  - destruct (is_OSError e || is_AttributeError e).
    + destruct (shutil_copy2 env w src _) as [[e' [part|]]|]; now intros [= _ <-].
    + now intros [= _ <-].
  - now intros [= _ <-].
Qed.

Lemma emits_safe_read_xml L path : emits P (_safe_read_xml L path).
Proof.
  apply emits_unchanged. intros w r w' H.
  rewrite safe_read_xml_run in H.
  repeat match type of H with
         | context [match ?x with _ => _ end] => destruct x
         | context [if ?x then _ else _] => destruct x
         end; now injection H as _ <-.
Qed.

Lemma emits_run env cmd : emits P (run env cmd).
Proof.
  intros w r w'. unfold run. destruct (subprocess_run env w cmd) as [r0 fs'].
  intros [= _ <-]. exists [Spawned cmd]. split; [reflexivity|].
  constructor; [apply P_spawned|constructor].
Qed.

Lemma emits_worker_body env L job tmp_dir : emits P (_worker_body env L job tmp_dir).
Proof.
  unfold _worker_body. apply emits_bind; [apply emits_safe_copy|]. intros safe_src.
  apply emits_bind; [apply emits_run|]. intros [[returncode out] err].
  assert (Hinfo : forall msg, emits P (do logging env INFO msg then ret (@None DataFrame))).
  { intros msg. apply emits_bind; [apply emits_logging|].
    intros _. apply (emits_pure (fun _ => Ok None)). }
  destruct (negb (returncode =? 0)).
  { apply emits_bind; [apply emits_log_error|].
    intros _. apply (emits_pure (fun _ => Ok None)). }
  apply emits_bind; [apply (emits_pure (fun w => Ok _))|]. intros present.
  apply emits_bind.
  { destruct present; [|apply (emits_pure (fun _ => Ok 0))].
    apply emits_unchanged. intros w r w'. unfold getsize.
    destruct (fs w !! _) as [[|c]|]; now intros [= _ <-]. }
  intros size. destruct (negb present || (size =? 0)); [apply Hinfo|].
  apply emits_bind; [apply emits_safe_read_xml|]. intros [d|]; [|apply Hinfo].
  destruct (empty d); [apply Hinfo|].
  apply emits_bind; [apply (emits_pure (fun _ => _))|].
  intros d1. apply (emits_pure (fun _ => Ok _)).
Qed.

Lemma emits_worker_guarded env L job tmp_dir :
  emits P (try_except (_worker_body env L job tmp_dir) is_Exception
             (fun exc =>
                do _log_error env (logf job)
                     ("Exception processing " ++ fp job ++ ": " ++ exn_str exc)
                then ret None)).
Proof.
  apply emits_try_except; [apply emits_worker_body|]. intros exc.
  apply emits_bind; [apply emits_log_error|].
  intros _. apply (emits_pure (fun _ => Ok None)).
Qed.

End Emits.

Lemma worker_adds_block env L job w r w' :
  _worker env L job w = (r, w') ->
  exists b, trace w' = (trace w ++ b)%list /\ worker_block b.
Proof.
  unfold _worker. rewrite bind_run. unfold mkdtemp.
  destruct (os_mkdtemp env w "evtfilter_") as [d|e].
  - unfold try_finally.
    set (w1 := {| fs := <[d:=Dir]> (fs w); trace := (trace w ++ [Mkdtemp d])%list |}).
    destruct (try_except _ _ _ w1) as [r1 w2] eqn:Eg.
    apply (emits_worker_guarded is_plain) in Eg as (evs & Et & Hevs);
      try (intros; reflexivity).
    simpl. intros [= _ <-]. simpl. exists (Mkdtemp d :: evs ++ [Rmtree d])%list.
    split; [|now constructor]. rewrite Et. simpl. now rewrite <- !app_assoc.
  - intros [= _ <-]. exists []. rewrite app_nil_r. split; [reflexivity|constructor].
Qed.

Lemma log_error_run env log_file msg w :
  _log_error env log_file msg w =
  let w1 := mkWorld (fs w) (trace w ++ [Logged ERROR msg]) in
  match os_logging env w ERROR msg with
  | Some e => (Raise e, w1)
  | None =>
      match os_open_append env w1 log_file with
      | Some e => if is_Exception e then (Ok tt, w1) else (Raise e, w1)
      | None =>
          match os_write env w1 log_file (msg ++ String PyStr.newline "") with
          | Some e => if is_Exception e then (Ok tt, w1) else (Raise e, w1)
          | None =>
              (Ok tt, mkWorld (fs w)
                        (trace w ++ [Logged ERROR msg;
                                     Appended log_file (msg ++ String PyStr.newline "")]))
          end
      end
  end.
Proof.
  unfold _log_error. rewrite bind_run. unfold logging, try_except, append_line, ret.
  cbv zeta. destruct (os_logging env w ERROR msg) as [e|]; [reflexivity|].
  destruct (os_open_append env _ log_file) as [e0|]; [now destruct (is_Exception e0)|].
  destruct (os_write env _ log_file _) as [e0|]; [now destruct (is_Exception e0)|].
  simpl. now rewrite <- app_assoc.
Qed.

(** What the Error Reporter raises is what the logging subsystem raised on
    its record, or, the record made, an exception of the file operations
    that is outside the class [Exception]. *)
Lemma log_error_raises env log_file msg w e w' :
  _log_error env log_file msg w = (Raise e, w') ->
  os_logging env w ERROR msg = Some e
  \/ (os_logging env w ERROR msg = None /\ is_Exception e = false).
Proof.
  rewrite log_error_run. cbv zeta.
  destruct (os_logging env w ERROR msg) as [e0|]; [intros [= <- _]; now left|].
  destruct (os_open_append env _ log_file) as [e0|].
  - destruct (is_Exception e0) eqn:E0; [discriminate|]. intros [= <- _]. now right.
  - destruct (os_write env _ log_file _) as [e0|]; [|discriminate].
    destruct (is_Exception e0) eqn:E0; [discriminate|]. intros [= <- _]. now right.
Qed.

(** X19.  Failure containment.  Once the temporary directory exists, an
    exception that leaves the worker is outside the class [Exception], such
    as an interrupt, or it is one that the logging subsystem raised on the
    error record of the handler; nothing else of the class [Exception]
    gets out. *)
Theorem worker_contains_exceptions env L job w d e w' :
  os_mkdtemp env w "evtfilter_" = Ok d ->
  _worker env L job w = (Raise e, w') ->
  is_Exception e = false
  \/ exists w1 exc,
       is_Exception exc = true
       /\ os_logging env w1 ERROR ("Exception processing " ++ fp job ++ ": " ++ exn_str exc)
          = Some e.
Proof.
  intros Hd. unfold _worker. rewrite bind_run. unfold mkdtemp. rewrite Hd.
  unfold try_finally, rmtree.
  destruct (try_except _ _ _ _) as [r1 w2] eqn:Eg. intros [= -> _].
  unfold try_except in Eg.
  destruct (_worker_body env L job d _) as [[a|e0] w1]; [discriminate|].
  destruct (is_Exception e0) eqn:E0.
  - rewrite bind_run in Eg.
    destruct (_log_error env (logf job) _ w1) as [[[]|e1] w3] eqn:El; [discriminate|].
    injection Eg as -> _.
    destruct (log_error_raises _ _ _ _ _ _ El) as [H|[_ H]]; [right; eauto|now left].
  - injection Eg as <- _. now left.
Qed.

Lemma info_returns_None env msg w (r : option DataFrame) w' :
  (do logging env INFO msg then ret None) w = (Ok r, w') -> r = None.
Proof.
  rewrite bind_run. unfold logging, ret.
  destruct (os_logging env w INFO msg); [discriminate|]. now intros [= <- _].
Qed.

Lemma safe_read_xml_frame L path w d w' :
  _safe_read_xml L path w = (Ok (Some d), w') ->
  (exists raw, read_xml_bytes L raw = Ok d) \/ (exists txt, read_xml_text L txt = Ok d).
Proof.
  rewrite safe_read_xml_run.
  destruct (fs w !! path) as [[|raw]|]; try discriminate.
  destruct (read_xml_bytes L raw) as [df|e1] eqn:E1.
  - intros [= <- _]. eauto.
  - destruct (is_XPathError e1 || is_ValueError e1); [|discriminate].
    destruct (bytes_decode_ignore L _ raw) as [txt|]; [|discriminate].
    destruct (read_xml_text L txt) as [df|e2] eqn:E2; [|discriminate].
    intros [= <- _]. eauto.
Qed.

Lemma worker_body_frame env L job tmp_dir w df w' :
  _worker_body env L job tmp_dir w = (Ok (Some df), w') ->
  exists d out,
    ((exists raw, read_xml_bytes L raw = Ok d) \/ (exists txt, read_xml_text L txt = Ok d))
    /\ empty d = false
    /\ _filter_frame L d (sdt job) (edt job) (incl job) (excl job) (ph job) = Ok out
    /\ df = assign_scalar "SourceFile" (VStr (fp job)) out.
Proof.
  unfold _worker_body. rewrite bind_run.
  destruct (_safe_copy env L (fp job) tmp_dir w) as [[safe_src|e] w1]; [|discriminate].
  rewrite bind_run.
  destruct (run env _ w1) as [[[[returncode out] err]|e] w2]; [|discriminate].
  destruct (negb (returncode =? 0)).
  { rewrite bind_run. destruct (_log_error env _ _ w2) as [[[]|e] w3]; discriminate. }
  rewrite bind_run. unfold isfile at 1. cbv beta iota. rewrite bind_run.
  match goal with |- context [(if ?b then getsize _ else ret 0) w2] =>
    destruct ((if b then getsize (path_join L tmp_dir "lp.xml") else ret 0) w2)
      as [[size|e] w3] end; [|discriminate].
  match goal with |- context [if ?b then _ else _] => destruct b end.
  { intros H. apply info_returns_None in H. discriminate. }
  rewrite bind_run.
  destruct (_safe_read_xml L _ w3) as [[[d|]|e] w4] eqn:Er; [| |discriminate].
  - destruct (empty d) eqn:Ed.
    + intros H. apply info_returns_None in H. discriminate.
    + rewrite bind_run. unfold lift at 1.
      destruct (_filter_frame L d _ _ _ _ _) as [d1|e] eqn:Ef; [|discriminate].
      unfold ret. intros [= <- _]. exists d, d1. split; [|auto].
      eapply safe_read_xml_frame, Er.
  - intros H. apply info_returns_None in H. discriminate.
Qed.

(** X20.  What a worker hands back.  A frame returned by the worker is a
    non-empty table that one of the two parses produced, passed through
    [_filter_frame] with the job's window, sets and placeholder, with the
    job's source path assigned to [SourceFile]; in particular [SourceFile]
    is one of its columns. *)
Theorem worker_frame env L job w df w' :
  _worker env L job w = (Ok (Some df), w') ->
  (exists d out,
     ((exists raw, read_xml_bytes L raw = Ok d) \/ (exists txt, read_xml_text L txt = Ok d))
     /\ empty d = false
     /\ _filter_frame L d (sdt job) (edt job) (incl job) (excl job) (ph job) = Ok out
     /\ df = assign_scalar "SourceFile" (VStr (fp job)) out)
  /\ In "SourceFile" (names df).
Proof.
  unfold _worker. rewrite bind_run. unfold mkdtemp.
  destruct (os_mkdtemp env w "evtfilter_") as [d|e]; [|discriminate].
  unfold try_finally, rmtree.
  destruct (try_except _ _ _ _) as [r1 w2] eqn:Eg. intros [= -> _].
  unfold try_except in Eg.
  destruct (_worker_body env L job d _) as [[a|e0] w1] eqn:Eb.
  - injection Eg as -> _.
    destruct (worker_body_frame _ _ _ _ _ _ _ Eb) as (d0 & out & Hd & He & Hf & ->).
    split; [eauto 10|]. unfold names, assign_scalar.
    destruct (col_index "SourceFile" (columns _)) as [k|] eqn:Ek; simpl.
    + rewrite names_alter. apply col_index_In. eauto.
    + rewrite map_app. apply in_app_iff. right. now left.
  - destruct (is_Exception e0); [|discriminate].
    rewrite bind_run in Eg.
    destruct (_log_error env (logf job) _ w1) as [[[]|e1] w3]; discriminate.
Qed.

Lemma log_error_logs env log_file msg w r w' :
  _log_error env log_file msg w = (r, w') ->
  fs w' = fs w
  /\ exists evs, trace w' = (trace w ++ Logged ERROR msg :: evs)%list.
Proof.
  rewrite log_error_run. cbv zeta.
  destruct (os_logging env w ERROR msg) as [e|];
    [intros [= _ <-]; split; [reflexivity|exists []; reflexivity]|].
  destruct (os_open_append env _ log_file) as [e0|].
  - destruct (is_Exception e0); intros [= _ <-]; (split; [reflexivity|exists []; reflexivity]).
  - destruct (os_write env _ log_file _) as [e0|].
    + destruct (is_Exception e0); intros [= _ <-];
        (split; [reflexivity|exists []; reflexivity]).
    + intros [= _ <-]. split; [reflexivity|]. eexists. reflexivity.
Qed.

Lemma safe_copy_trace env L src dst w r w' :
  _safe_copy env L src dst w = (r, w') -> trace w' = trace w.
Proof.
  rewrite safe_copy_run. cbv zeta.
  destruct (os_link env w src _) as [e|].
  - destruct (is_OSError e || is_AttributeError e).
    + destruct (shutil_copy2 env w src _) as [[e' [part|]]|]; now intros [= _ <-].
    + now intros [= _ <-].
  - now intros [= _ <-].
Qed.

(** X21.  A decoder that exits with a non-zero code.  When the directory is
    created, the source staged and the decoder returns the code [rc], not
    zero, the worker hands back no frame, and the trace holds the error
    record with the code and both captured streams, stripped.  The worker
    returns [None], unless it ends with an exception outside the class
    [Exception] or with one that the logging subsystem raised on an error
    record. *)
Theorem worker_decoder_failure env L job w d p w2 rc out err fs3 :
  os_mkdtemp env w "evtfilter_" = Ok d ->
  _safe_copy env L (fp job) d (mkWorld (<[d:=Dir]> (fs w)) (trace w ++ [Mkdtemp d]))
  = (Ok p, w2) ->
  subprocess_run env w2 (_build_lp_cmd (lp job) p (path_join L d "lp.xml"))
  = (Ok (rc, out, err), fs3) ->
  rc <> 0 ->
  exists r w',
    _worker env L job w = (r, w')
    /\ In (Logged ERROR (lp_failure_msg L job rc out err)) (trace w')
    /\ (r = Ok None
        \/ exists e, r = Raise e
                     /\ (is_Exception e = false
                         \/ exists w1 msg, os_logging env w1 ERROR msg = Some e)).
Proof.
  intros Hd Hc Hr Hrc. unfold _worker. rewrite bind_run. unfold mkdtemp. rewrite Hd.
  unfold try_finally, rmtree, try_except, _worker_body.
  rewrite bind_run, Hc, bind_run. unfold run at 1. rewrite Hr.
  apply Z.eqb_neq in Hrc. rewrite Hrc. cbv [negb]. rewrite bind_run.
  destruct (_log_error env (logf job) _ _) as [[[]|e] w3] eqn:El;
    pose proof (log_error_logs _ _ _ _ _ _ El) as [_ [evs Hevs]].
  - unfold ret. eexists _, _. split; [reflexivity|]. simpl. split; [|now left].
    rewrite Hevs. apply in_app_iff. left. apply in_app_iff. right. now left.
  - assert (Hin : In (Logged ERROR (lp_failure_msg L job rc out err)) (trace w3)).
    { rewrite Hevs. apply in_app_iff. right. now left. }
    destruct (is_Exception e) eqn:He.
    + rewrite bind_run.
      destruct (_log_error env (logf job) _ w3) as [[[]|e2] w4] eqn:El2;
        pose proof (log_error_logs _ _ _ _ _ _ El2) as [_ [evs2 Hevs2]].
      * unfold ret. eexists _, _. split; [reflexivity|]. simpl. split; [|now left].
        rewrite Hevs2. apply in_app_iff. left. apply in_app_iff. now left.
      * eexists _, _. split; [reflexivity|]. simpl. split.
        -- rewrite Hevs2. apply in_app_iff. left. apply in_app_iff. now left.
        -- right. exists e2. split; [reflexivity|].
           destruct (log_error_raises _ _ _ _ _ _ El2) as [H|[_ H]]; [right; eauto|now left].
    + eexists _, _. split; [reflexivity|]. simpl. split; [|right; eauto].
      apply in_app_iff. now left.
Qed.

(** X22.  A decoder that leaves nothing.  When the directory is created, the
    source staged and the decoder exits with code zero leaving no file, or
    an empty one, at the destination, and the logging subsystem takes the
    informational record, the worker returns [None]; the job adds to the
    trace the creation of the directory, the decoder call, one
    informational record and the removal of the directory, and no error
    record. *)
Theorem worker_empty_output env L job w d p w2 out err fs3 :
  os_mkdtemp env w "evtfilter_" = Ok d ->
  _safe_copy env L (fp job) d (mkWorld (<[d:=Dir]> (fs w)) (trace w ++ [Mkdtemp d]))
  = (Ok p, w2) ->
  subprocess_run env w2 (_build_lp_cmd (lp job) p (path_join L d "lp.xml"))
  = (Ok (0, out, err), fs3) ->
  (forall content, fs3 !! path_join L d "lp.xml" = Some (File content) -> content = []) ->
  os_logging env
    (mkWorld fs3 (trace w2 ++ [Spawned (_build_lp_cmd (lp job) p (path_join L d "lp.xml"))]))
    INFO (fp job ++ ": log contained 0 events") = None ->
  exists w',
    _worker env L job w = (Ok None, w')
    /\ trace w' = (trace w
                   ++ [Mkdtemp d;
                       Spawned (_build_lp_cmd (lp job) p (path_join L d "lp.xml"));
                       Logged INFO (fp job ++ ": log contained 0 events");
                       Rmtree d])%list.
Proof.
  intros Hd Hc Hr Hempty Hlog. unfold _worker. rewrite bind_run. unfold mkdtemp. rewrite Hd.
  pose proof (safe_copy_trace _ _ _ _ _ _ _ Hc) as Ht. simpl in Ht.
  unfold try_finally, rmtree, try_except, _worker_body.
  rewrite bind_run, Hc, bind_run. unfold run at 1. rewrite Hr.
  cbv [Z.eqb negb]. rewrite bind_run. unfold isfile at 1. cbv beta iota.
  rewrite bind_run. cbv [fs].
  destruct (fs3 !! path_join L d "lp.xml") as [[|content]|] eqn:Ef.
  - unfold ret at 1. cbv [negb orb]. rewrite bind_run. unfold logging, ret.
    rewrite Hlog.
    eexists. split; [reflexivity|]. simpl. rewrite Ht, <- !app_assoc. reflexivity.
  - pose proof (Hempty content eq_refl) as ->. unfold getsize. cbv [fs]. rewrite Ef.
    cbv [length Z.of_nat Z.eqb negb orb].
    rewrite bind_run. unfold logging, ret. rewrite Hlog.
    eexists. split; [reflexivity|]. simpl. rewrite Ht, <- !app_assoc. reflexivity.
  - unfold ret at 1. cbv [negb orb]. rewrite bind_run. unfold logging, ret.
    rewrite Hlog.
    eexists. split; [reflexivity|]. simpl. rewrite Ht, <- !app_assoc. reflexivity.
Qed.

(** ** The run *)

Lemma pool_tasks_blocks env L size jobs :
  forall room skip w os w',
    pool_tasks (_worker env L) size room skip jobs w = (os, w') ->
    exists blocks, trace w' = (trace w ++ List.concat blocks)%list
                   /\ Forall worker_block blocks.
Proof.
  induction jobs as [|job jobs IH]; intros room skip w os w'; simpl.
  - intros [= _ <-]. exists []. simpl. now rewrite app_nil_r.
  - destruct (match room with O => false | _ => skip end).
    + destruct (pool_tasks _ size _ true jobs w) as [os1 w1] eqn:Ep.
      intros [= _ <-]. exact (IH _ _ _ _ _ Ep).
    + destruct (_worker env L job w) as [y w1] eqn:Ew.
      destruct (worker_adds_block _ _ _ _ _ _ Ew) as (b & Hb & Wb).
      destruct (pool_tasks _ size _ _ jobs w1) as [os1 w2] eqn:Ep.
      destruct (IH _ _ _ _ _ Ep) as (bs & Hbs & Wbs).
      intros [= _ <-]. exists (b :: bs). simpl. rewrite Hbs, Hb, app_assoc. auto.
Qed.

Lemma pool_map_blocks env L workers jobs w r w' :
  pool_map workers (_worker env L) jobs w = (r, w') ->
  exists blocks, trace w' = (trace w ++ List.concat blocks)%list
                 /\ Forall worker_block blocks.
Proof.
  unfold pool_map.
  destruct (pool_tasks _ _ _ _ jobs w) as [os w1] eqn:Ep.
  pose proof (pool_tasks_blocks _ _ _ _ _ _ _ _ _ Ep) as H.
  destruct (existsb killed os); now intros [= _ <-].
Qed.

Lemma main_run_shape env L ns w w' :
  main env L ns w = (Ok tt, w') ->
  exists added, trace w' = (trace w ++ added)%list
                /\ main_returns (ns_output ns) added.
Proof.
  unfold main. rewrite bind_run. unfold lift at 1.
  destruct (strptime L (ns_start_date ns)) as [start_dt|e]; [|discriminate].
  rewrite bind_run. unfold lift at 1.
  destruct (strptime L (ns_end_date ns)) as [end_dt|e]; [|discriminate].
  rewrite bind_run.
  destruct (_load_id_list env L (ns_event_ids ns) _ w) as [[inc|e] w1] eqn:E1;
    pose proof (load_id_list_world _ _ _ _ _ _ _ E1) as ->; [|discriminate].
  rewrite bind_run.
  destruct (_load_id_list env L (ns_exclude_event_ids ns) _ w) as [[exc|e] w1] eqn:E2;
    pose proof (load_id_list_world _ _ _ _ _ _ _ E2) as ->; [|discriminate].
  rewrite bind_run. unfold _list_event_files at 1.
  destruct (flat_map _ (os_walk env w (ns_dir ns))) as [|f0 files]; [discriminate|].
  rewrite bind_run. unfold logging at 1.
  set (msg := "Scanning " ++ _ ++ " files …").
  destruct (os_logging env w INFO msg); [discriminate|].
  set (ws := {| fs := fs w; trace := (trace w ++ [Logged INFO msg])%list |}).
  rewrite bind_run.
  destruct (ns_workers ns <? 1); [discriminate|].
  destruct (pool_map _ (_worker env L) _ ws) as [[results|e] w2] eqn:Ep;
    destruct (pool_map_blocks _ _ _ _ _ _ _ Ep) as (blocks & Ht & Hb);
    [|discriminate].
  destruct (kept_frames results) as [|fr frames].
  { unfold logging. destruct (os_logging env w2 WARNING _); [discriminate|].
    intros [= <-].
    exists (Logged INFO msg :: List.concat blocks
            ++ [Logged WARNING "No matching events found."])%list.
    split; [|now constructor]. simpl. rewrite Ht. simpl. now rewrite <- !app_assoc. }
  rewrite bind_run. unfold lift at 1.
  destruct (select_columns _ _) as [sel|e]; [|discriminate].
  rewrite bind_run. unfold to_csv at 1.
  destruct (os_to_csv env w2 (ns_output ns)) as [[e []]|]; [discriminate|discriminate|].
  unfold logging. destruct (os_logging env _ INFO _); [discriminate|].
  intros [= <-]. simpl.
  eexists (Logged INFO msg :: List.concat blocks ++ [WroteCsv _ _ _; Logged INFO _])%list.
  split.
  - rewrite Ht. simpl. rewrite <- !app_assoc. reflexivity.
  - constructor; [exact Hb|]. unfold output_columns. eauto.
Qed.

Lemma count_app p a b : count p (a ++ b) = (count p a + count p b)%nat.
Proof. unfold count. now rewrite List.filter_app, length_app. Qed.

Lemma count_plain p evs :
  (forall ev, is_plain ev = true -> p ev = false) ->
  Forall (fun ev => is_plain ev = true) evs -> count p evs = 0%nat.
Proof.
  intros Hp. unfold count. induction 1 as [|ev evs Hev _ IH]; simpl; [reflexivity|].
  now rewrite (Hp ev Hev).
Qed.

Lemma block_balanced d b :
  worker_block b -> count (creates d) b = count (removes d) b.
Proof.
  intros [|d0 evs Hevs]; [reflexivity|].
  change (Mkdtemp d0 :: evs ++ [Rmtree d0])%list
    with ([Mkdtemp d0] ++ evs ++ [Rmtree d0])%list.
  rewrite !count_app.
  rewrite (count_plain (creates d) evs), (count_plain (removes d) evs); auto;
    try (now intros []).
  unfold count. simpl. destruct (String.eqb d0 d); reflexivity.
Qed.

Lemma blocks_balanced d blocks :
  Forall worker_block blocks ->
  count (creates d) (List.concat blocks) = count (removes d) (List.concat blocks).
Proof.
  induction 1 as [|b bs Hb _ IH]; simpl; [reflexivity|].
  now rewrite !count_app, IH, (block_balanced d b Hb).
Qed.

Lemma block_no_csv b : worker_block b -> Forall (fun ev => is_csv ev = false) b.
Proof.
  intros [|d0 evs Hevs]; constructor; [reflexivity|].
  apply Forall_app. split; [|repeat constructor].
  eapply Forall_impl; [exact Hevs|]. now intros [].
Qed.

Lemma blocks_no_csv blocks :
  Forall worker_block blocks -> Forall (fun ev => is_csv ev = false) (List.concat blocks).
Proof.
  induction 1 as [|b bs Hb _ IH]; simpl; [constructor|].
  apply Forall_app. split; [now apply block_no_csv|exact IH].
Qed.

(** X23.  Every run of [main] that returns has asked for the removal of
    each temporary directory as often as it has created one: among the
    events it adds, the creations and the removals of any directory are
    equally many. *)
Theorem main_temp_dirs_balanced env L ns w w' :
  main env L ns w = (Ok tt, w') ->
  exists added,
    trace w' = (trace w ++ added)%list
    /\ forall d, count (creates d) added = count (removes d) added.
Proof.
  intros H. destruct (main_run_shape _ _ _ _ _ H) as (added & Ht & Hrun).
  exists added. split; [exact Ht|]. intros d.
  destruct Hrun as [msg blocks Hb|msg blocks header n msg' Hb _].
  - change (Logged INFO msg :: List.concat blocks ++ [Logged WARNING "No matching events found."])
      with ([Logged INFO msg] ++ List.concat blocks
            ++ [Logged WARNING "No matching events found."])%list.
    rewrite !count_app. now rewrite (blocks_balanced d blocks Hb).
  - change (Logged INFO msg :: List.concat blocks
            ++ [WroteCsv (ns_output ns) header n; Logged INFO msg'])
      with ([Logged INFO msg] ++ List.concat blocks
            ++ [WroteCsv (ns_output ns) header n; Logged INFO msg'])%list.
    rewrite !count_app. now rewrite (blocks_balanced d blocks Hb).
Qed.

(** X24.  The output discipline of [main].  A run that returns has either
    written no table and ended on the warning that nothing matched, or
    written exactly one table, to the output path, under a header that ends
    with [SourceFile], after the removal of every temporary directory
    created before it had been asked for, and ended on the closing
    record. *)
Theorem main_output_discipline env L ns w w' :
  main env L ns w = (Ok tt, w') ->
  exists added,
    trace w' = (trace w ++ added)%list
    /\ ((exists before,
           added = (before ++ [Logged WARNING "No matching events found."])%list
           /\ Forall (fun ev => is_csv ev = false) before)
        \/ (exists before pre n msg,
              added = (before ++ [WroteCsv (ns_output ns) (pre ++ ["SourceFile"]) n;
                                  Logged INFO msg])%list
              /\ Forall (fun ev => is_csv ev = false) before
              /\ forall d, count (creates d) before = count (removes d) before)).
Proof.
  intros H. destruct (main_run_shape _ _ _ _ _ H) as (added & Ht & Hrun).
  exists added. split; [exact Ht|].
  destruct Hrun as [msg blocks Hb|msg blocks header n msg' Hb [pre ->]].
  - left.
    exists (Logged INFO msg :: List.concat blocks). split; [reflexivity|].
    constructor; [reflexivity|now apply blocks_no_csv].
  - right.
    exists (Logged INFO msg :: List.concat blocks), pre, n, msg'.
    split; [reflexivity|]. split.
    + constructor; [reflexivity|now apply blocks_no_csv].
    + intros d. change (Logged INFO msg :: List.concat blocks)
        with ([Logged INFO msg] ++ List.concat blocks)%list.
      rewrite !count_app. now rewrite (blocks_balanced d blocks Hb).
Qed.

(** X25.  No input, no run.  When both dates and both ID lists are read and
    the walk of the root finds no file with an event-log extension, [main]
    ends with [SystemExit] and its message, in the world it started in: no
    job has been created and nothing has been logged. *)
Theorem main_no_event_files env L ns w start_dt end_dt inc exc :
  strptime L (ns_start_date ns) = Ok start_dt ->
  strptime L (ns_end_date ns) = Ok end_dt ->
  _load_id_list env L (ns_event_ids ns) (ns_event_ids_file ns) w = (Ok inc, w) ->
  _load_id_list env L (ns_exclude_event_ids ns) (ns_exclude_event_ids_file ns) w
  = (Ok exc, w) ->
  (forall dp names f, In (dp, names) (os_walk env w (ns_dir ns)) -> In f names ->
                      is_event_file f = false) ->
  main env L ns w
  = (Raise (SystemExit ("No .evt/.evtx files under " ++ ns_dir ns)), w).
Proof.
  intros Hs He Hi Hx Hnone. unfold main.
  rewrite bind_run. unfold lift at 1. rewrite Hs.
  rewrite bind_run. unfold lift at 1. rewrite He.
  rewrite bind_run, Hi, bind_run, Hx, bind_run. unfold _list_event_files at 1.
  assert (Hfiles : flat_map (fun '(dp, fs) => map (path_join L dp) (List.filter is_event_file fs))
                     (os_walk env w (ns_dir ns)) = []).
  { induction (os_walk env w (ns_dir ns)) as [|[dp names] l IH]; simpl; [reflexivity|].
    rewrite IH;
      [|intros dp' names' f Hin Hf; apply (Hnone dp' names' f); [now right|exact Hf]].
    rewrite app_nil_r.
    assert (Hf : List.filter is_event_file names = []).
    { assert (Hall : forall f, In f names -> is_event_file f = false)
        by (intros f; apply (Hnone dp names f); now left).
      clear -Hall. induction names as [|f names IHn]; simpl; [reflexivity|].
      rewrite (Hall f); [|now left]. apply IHn. intros f' Hf'. apply Hall. now right. }
    now rewrite Hf. }
  rewrite Hfiles. reflexivity.
Qed.

(** ** File discovery *)

Lemma append_cons c a b : String c a ++ b = String c (a ++ b).
Proof. reflexivity. Qed.

Lemma append_nil_l b : "" ++ b = b.
Proof. reflexivity. Qed.

Lemma length_append a b : String.length (a ++ b) = (String.length a + String.length b)%nat.
Proof.
  induction a as [|c a IH]; [reflexivity|].
  rewrite append_cons. simpl. now rewrite IH.
Qed.

Lemma substring_all s : substring 0 (String.length s) s = s.
Proof. induction s as [|c s IH]; simpl; [reflexivity|]. now rewrite IH. Qed.

Lemma substring_none s : substring 0 0 s = "".
Proof. now destruct s. Qed.

Lemma substring_skip pre m s :
  substring (String.length pre) m (pre ++ s) = substring 0 m s.
Proof.
  induction pre as [|c pre IH]; [reflexivity|].
  rewrite append_cons. simpl. exact IH.
Qed.

Lemma substring_split s k m :
  (k + m = String.length s)%nat -> s = substring 0 k s ++ substring k m s.
Proof.
  revert k. induction s as [|c s IH]; intros k H; simpl in H.
  - assert (k = 0%nat) by lia. assert (m = 0%nat) by lia. subst. reflexivity.
  - destruct k as [|k].
    + simpl in H. subst m. rewrite substring_none, append_nil_l.
      symmetry. apply (substring_all (String c s)).
    + simpl. rewrite append_cons. f_equal. apply IH. lia.
Qed.

Lemma ends_with_spec suffix s :
  ends_with suffix s = true <-> exists pre, s = pre ++ suffix.
Proof.
  unfold ends_with. rewrite andb_true_iff, Nat.leb_le, String.eqb_eq. split.
  - intros [Hle Hs]. exists (substring 0 (String.length s - String.length suffix) s).
    pose proof (substring_split s (String.length s - String.length suffix)
                  (String.length suffix)) as Hsplit.
    rewrite Hs in Hsplit. apply Hsplit. lia.
  - intros [pre ->]. rewrite length_append. split; [lia|].
    replace (String.length pre + String.length suffix - String.length suffix)%nat
      with (String.length pre) by lia.
    rewrite substring_skip. apply substring_all.
Qed.

Lemma lower_str_app a b : lower_str (a ++ b) = lower_str a ++ lower_str b.
Proof.
  induction a as [|c a IH]; [reflexivity|].
  rewrite append_cons. simpl. rewrite append_cons. now rewrite IH.
Qed.

Lemma lower_str_split s a b :
  lower_str s = a ++ b ->
  exists a' b', s = a' ++ b' /\ lower_str a' = a /\ lower_str b' = b.
Proof.
  revert s. induction a as [|c a IH]; intros s H.
  - exists "", s. auto.
  - rewrite append_cons in H. destruct s as [|x s]; [discriminate|].
    simpl in H. injection H as Hc Hs.
    destruct (IH s Hs) as (a' & b' & -> & Ha & Hb).
    exists (String x a'), b'. rewrite append_cons. simpl. now rewrite Hc, Ha.
Qed.

Lemma lower_ascii_newline c :
  Ascii.eqb (lower_ascii c) PyStr.newline = Ascii.eqb c PyStr.newline.
Proof. destruct c as [[] [] [] [] [] [] [] []]; reflexivity. Qed.

Lemma lower_ascii_dot c : lower_ascii c = "."%char -> c = "."%char.
Proof. destruct c as [[] [] [] [] [] [] [] []]; vm_compute; congruence. Qed.

Lemma contains_newline_lower s :
  PyStr.contains PyStr.newline (lower_str s) = PyStr.contains PyStr.newline s.
Proof.
  induction s as [|c s IH]; simpl; [reflexivity|].
  now rewrite lower_ascii_newline, IH.
Qed.

Lemma is_event_file_spec f :
  is_event_file f = true <->
  exists stem ext,
    chop_newline f = stem ++ "." ++ ext
    /\ (lower_str ext = "evt" \/ lower_str ext = "evtx")
    /\ PyStr.contains PyStr.newline stem = false.
Proof.
  unfold is_event_file. set (t := chop_newline f).
  rewrite andb_true_iff, negb_true_iff, orb_true_iff, contains_newline_lower,
    !ends_with_spec.
  split.
  - intros [Hnl Hend].
    assert (G : forall e, (exists pre, lower_str t = pre ++ String "." e) ->
                          exists stem ext, t = stem ++ "." ++ ext
                                           /\ lower_str ext = e
                                           /\ PyStr.contains PyStr.newline stem = false).
    { intros e [pre Hpre]. apply lower_str_split in Hpre as (stem & de & Ht & _ & Hde).
      destruct de as [|c ext]; [discriminate|]. simpl in Hde. injection Hde as Hc He.
      apply lower_ascii_dot in Hc as ->. exists stem, ext. split; [exact Ht|].
      split; [exact He|]. rewrite Ht, contains_app in Hnl.
      now apply orb_false_iff in Hnl as [Hnl _]. }
    destruct Hend as [H|H]; apply G in H as (stem & ext & Ht & He & Hs);
      exists stem, ext; auto.
  - intros (stem & ext & Ht & He & Hs). rewrite Ht. split.
    + rewrite !contains_app, Hs, <- (contains_newline_lower ext).
      destruct He as [-> | ->]; reflexivity.
    + rewrite lower_str_app. change (lower_str ("." ++ ext)) with (String "." (lower_str ext)).
      destruct He as [-> | ->]; [left|right]; eauto.
Qed.

(** X26.  File discovery only reads, never raises, and returns exactly the
    paths that [os.path.join] makes of the directories [dp] of the walk and
    their files [f] whose name, less one final newline, is a stem without
    newline, a dot and the extension [evt] or [evtx] in any letter case. *)
Theorem list_event_files_spec env L root w :
  exists files,
    _list_event_files env L root w = (Ok files, w)
    /\ forall p,
         In p files <->
         exists dp names f stem ext,
           In (dp, names) (os_walk env w root)
           /\ In f names
           /\ chop_newline f = stem ++ "." ++ ext
           /\ (lower_str ext = "evt" \/ lower_str ext = "evtx")
           /\ PyStr.contains PyStr.newline stem = false
           /\ p = path_join L dp f.
Proof.
  eexists. split; [reflexivity|]. intros p. rewrite in_flat_map. split.
  - intros ([dp names] & Hw & Hp). apply in_map_iff in Hp as (f & <- & Hf).
    apply filter_In in Hf as [Hf He].
    apply is_event_file_spec in He as (stem & ext & H1 & H2 & H3).
    exists dp, names, f, stem, ext. repeat split; assumption || reflexivity.
  - intros (dp & names & f & stem & ext & Hw & Hf & H1 & H2 & H3 & ->).
    exists (dp, names). split; [exact Hw|]. apply in_map, filter_In.
    split; [exact Hf|]. apply is_event_file_spec. eauto.
Qed.

(** ** Error Reporter, once more *)

(** X27.  Whatever happens to the error log, the Error Reporter has handed
    the message to the logging subsystem first and leaves the file system
    as it was.  The only exceptions it lets out are the one a handler of
    the logging subsystem raised on that record and, when the record was
    taken, exceptions of the file operations that are outside the class
    [Exception]. *)
Theorem log_error_outcome env log_file msg w r w' :
  _log_error env log_file msg w = (r, w') ->
  (exists evs, trace w' = (trace w ++ Logged ERROR msg :: evs)%list)
  /\ fs w' = fs w
  /\ forall e, r = Raise e ->
               os_logging env w ERROR msg = Some e
               \/ (os_logging env w ERROR msg = None /\ is_Exception e = false).
Proof.
  intros H. destruct (log_error_logs _ _ _ _ _ _ H) as [Hfs Hev].
  split; [exact Hev|]. split; [exact Hfs|].
  intros e ->. eapply log_error_raises, H.
Qed.

Lemma log_error_outcome_witness :
  _log_error Runs.env_log_interrupted "run.log" "boom" Fixtures.w0
  = (Raise KeyboardInterrupt, mkWorld ∅ [Logged ERROR "boom"])
  /\ (exists evs, trace (mkWorld ∅ [Logged ERROR "boom"])
                   = (trace Fixtures.w0 ++ Logged ERROR "boom" :: evs)%list)
  /\ fs (mkWorld ∅ [Logged ERROR "boom"]) = fs Fixtures.w0
  /\ forall e, Raise KeyboardInterrupt = @Raise unit e ->
               os_logging Runs.env_log_interrupted Fixtures.w0 ERROR "boom" = Some e
               \/ (os_logging Runs.env_log_interrupted Fixtures.w0 ERROR "boom" = None
                   /\ is_Exception e = false).
Proof.
  split; [reflexivity|].
  apply (log_error_outcome Runs.env_log_interrupted "run.log" "boom" Fixtures.w0
           (Raise KeyboardInterrupt) (mkWorld ∅ [Logged ERROR "boom"])).
  reflexivity.
Defined.

(** ** Edge cases of the filters *)

Lemma filter_none {A} (p : A -> bool) l :
  (forall x, In x l -> p x = false) -> List.filter p l = [].
Proof.
  induction l as [|x l IH]; intros H; simpl; [reflexivity|].
  rewrite (H x); [|now left]. apply IH. intros y Hy. apply H. now right.
Qed.

Lemma filter_all {A} (p : A -> bool) l :
  (forall x, In x l -> p x = true) -> List.filter p l = l.
Proof.
  induction l as [|x l IH]; intros H; simpl; [reflexivity|].
  rewrite (H x); [|now left]. f_equal. apply IH. intros y Hy. apply H. now right.
Qed.

(** X28.  An empty window.  When the end of the window lies before its
    start and the table has a [TimeGenerated] column, the time filter keeps
    no row. *)
Theorem time_filter_empty_window L start end_ df k out :
  end_ < start ->
  col_index "TimeGenerated" (columns df) = Some k ->
  time_filter L start end_ df = Ok out ->
  rows out = [].
Proof.
  intros Hlt Hk. rewrite time_filter_run, Hk.
  destruct (to_datetime L (get_col k df)) as [c|e]; [|discriminate].
  destruct (tz_aware c); [discriminate|]. cbv zeta. intros [= <-]. simpl.
  apply filter_none. intros r _. destruct (cell k r); try reflexivity.
  simpl. apply andb_false_iff.
  destruct (Z.leb_spec start t); [right|now left]. apply Z.leb_gt. lia.
Qed.

Lemma time_filter_empty_window_witness :
  5 < 6
  /\ col_index "TimeGenerated" (columns Fixtures.df_events) = Some 1%nat
  /\ time_filter Runs.lib_direct 6 5 Fixtures.df_events
     = Ok (mkDF [("EventID", DInt); ("TimeGenerated", DDatetime); ("Message", DObject)] [])
  /\ rows (mkDF [("EventID", DInt); ("TimeGenerated", DDatetime); ("Message", DObject)] [])
     = [].
Proof.
  assert (H : 5 < 6) by lia.
  split; [exact H|]. split; [reflexivity|]. split; [reflexivity|].
  exact (time_filter_empty_window Runs.lib_direct 6 5 Fixtures.df_events 1%nat _
           H eq_refl eq_refl).
Defined.

(** X29.  Empty sets at the filter.  On a table with an [EventID] column an
    inclusion set that is configured and empty keeps no row, whereas an
    exclusion set that is configured and empty drops none; an absent set
    leaves the rows alone in both filters. *)
Theorem eventid_filter_empty_sets df k :
  col_index "EventID" (columns df) = Some k ->
  rows (include_filter (Some []) df) = []
  /\ rows (exclude_filter (Some []) df) = rows df
  /\ include_filter None df = df
  /\ exclude_filter None df = df.
Proof.
  intros Hk. unfold include_filter, exclude_filter. rewrite Hk.
  split; [|split; [|split; reflexivity]].
  - rewrite get_col_map, (bool_index_map (fun r => isin [] (cell k r))).
    apply filter_none. intros r _. now destruct (cell k r).
  - rewrite get_col_map, (bool_index_map (fun r => negb (isin [] (cell k r)))).
    apply filter_all. intros r _. now destruct (cell k r).
Qed.

Lemma eventid_filter_empty_sets_witness :
  col_index "EventID" (columns Fixtures.df_events) = Some 0%nat
  /\ rows (include_filter (Some []) Fixtures.df_events) = []
  /\ rows (exclude_filter (Some []) Fixtures.df_events) = rows Fixtures.df_events
  /\ include_filter None Fixtures.df_events = Fixtures.df_events
  /\ exclude_filter None Fixtures.df_events = Fixtures.df_events.
Proof.
  split; [reflexivity|].
  exact (eventid_filter_empty_sets Fixtures.df_events 0%nat eq_refl).
Defined.

(** ** Concrete runs of the further properties *)

Lemma safe_copy_stages_witness :
  _safe_copy Runs.env Runs.lib_direct "a.evtx" Runs.tmp_dir Runs.w_dir
  = (Ok Runs.staged, Runs.w_staged)
  /\ (Runs.staged
      = path_join Runs.lib_direct Runs.tmp_dir
          (uuid4_hex Runs.env Runs.w_dir ++ "_"
           ++ sub_percent false (path_basename Runs.lib_direct "a.evtx"))
      /\ fs Runs.w_staged
         = <[Runs.staged := File (os_source_bytes Runs.env Runs.w_dir "a.evtx")]>
             (fs Runs.w_dir)
      /\ (forall q, q <> Runs.staged -> fs Runs.w_staged !! q = fs Runs.w_dir !! q)
      /\ trace Runs.w_staged = trace Runs.w_dir).
Proof.
  split; [reflexivity|].
  apply (safe_copy_stages Runs.env Runs.lib_direct "a.evtx" Runs.tmp_dir Runs.w_dir
           Runs.staged Runs.w_staged).
  reflexivity.
Defined.

Lemma safe_copy_failure_witness :
  _safe_copy Runs.env_disk_full Runs.lib_direct "a.evtx" Runs.tmp_dir Runs.w_dir
  = (Raise (OSError "No space left on device"),
     mkWorld (<[Runs.staged := File []]> (fs Runs.w_dir)) (trace Runs.w_dir))
  /\ trace (mkWorld (<[Runs.staged := File []]> (fs Runs.w_dir)) (trace Runs.w_dir))
     = trace Runs.w_dir
  /\ exists e0 left,
       os_link Runs.env_disk_full Runs.w_dir "a.evtx"
         (staged_path Runs.lib_direct Runs.tmp_dir
            (uuid4_hex Runs.env_disk_full Runs.w_dir) "a.evtx") = Some e0
       /\ is_OSError e0 || is_AttributeError e0 = true
       /\ shutil_copy2 Runs.env_disk_full Runs.w_dir "a.evtx"
            (staged_path Runs.lib_direct Runs.tmp_dir
               (uuid4_hex Runs.env_disk_full Runs.w_dir) "a.evtx")
          = Some (OSError "No space left on device", left)
       /\ fs (mkWorld (<[Runs.staged := File []]> (fs Runs.w_dir)) (trace Runs.w_dir))
          = match left with
            | Some part =>
                <[staged_path Runs.lib_direct Runs.tmp_dir
                    (uuid4_hex Runs.env_disk_full Runs.w_dir) "a.evtx" := File part]>
                  (fs Runs.w_dir)
            | None => fs Runs.w_dir
            end.
Proof.
  split; [reflexivity|].
  destruct (safe_copy_failure Runs.env_disk_full Runs.lib_direct "a.evtx" Runs.tmp_dir
              Runs.w_dir (OSError "No space left on device")
              (mkWorld (<[Runs.staged := File []]> (fs Runs.w_dir)) (trace Runs.w_dir))
              eq_refl) as [Ht [(_ & H & _)|H]].
  - discriminate H.
  - split; [exact Ht|exact H].
Defined.

Lemma load_id_list_missing_file_witness :
  given (Some "missing.txt") = Some "missing.txt"
  /\ os_read_text Runs.env Fixtures.w0 "missing.txt" = ("", Some (OSError "missing.txt"))
  /\ ~ Exists (rejected Runs.lib_direct) (inline_tokens (Some "4624") ++ PyStr.lines "")
  /\ _load_id_list Runs.env Runs.lib_direct (Some "4624") (Some "missing.txt") Fixtures.w0
     = (Raise (OSError "missing.txt"), Fixtures.w0).
Proof.
  assert (H : ~ Exists (rejected Runs.lib_direct)
                (inline_tokens (Some "4624") ++ PyStr.lines "")).
  { intros H. apply Exists_cons in H as [[_ H]|H]; [discriminate H|inversion H]. }
  split; [reflexivity|]. split; [reflexivity|]. split; [exact H|].
  exact (load_id_list_missing_file Runs.env Runs.lib_direct (Some "4624")
           (Some "missing.txt") "missing.txt" "" (OSError "missing.txt") Fixtures.w0
           eq_refl eq_refl H).
Defined.

Lemma safe_read_xml_recovers_witness :
  fs Runs.w_doc !! Fixtures.tmp_xml = Some (File Fixtures.doc_no_rows)
  /\ read_xml_bytes Runs.lib_recovering Fixtures.doc_no_rows = Raise (ValueError "encoding")
  /\ is_XPathError (ValueError "encoding") || is_ValueError (ValueError "encoding") = true
  /\ bytes_decode_ignore Runs.lib_recovering (_detect_xml_encoding Fixtures.doc_no_rows)
       Fixtures.doc_no_rows = Ok "<ROOT/>"
  /\ read_xml_text Runs.lib_recovering "<ROOT/>" = Ok Fixtures.df_events
  /\ _safe_read_xml Runs.lib_recovering Fixtures.tmp_xml Runs.w_doc
     = (Ok (Some Fixtures.df_events), Runs.w_doc).
Proof.
  repeat (split; [reflexivity|]).
  apply (safe_read_xml_recovers Runs.lib_recovering Fixtures.tmp_xml Runs.w_doc
           Fixtures.doc_no_rows (ValueError "encoding") "<ROOT/>" Fixtures.df_events);
    reflexivity.
Defined.

Lemma safe_read_xml_failures_witness :
  fs Runs.w_doc !! Fixtures.tmp_xml = Some (File Fixtures.doc_no_rows)
  /\ read_xml_bytes Runs.lib_broken Fixtures.doc_no_rows
     = Raise (OtherException "XMLSyntaxError")
  /\ is_XPathError (OtherException "XMLSyntaxError")
     || is_ValueError (OtherException "XMLSyntaxError") = false
  /\ _safe_read_xml Runs.lib_broken Fixtures.tmp_xml Runs.w_doc
     = (Raise (OtherException "XMLSyntaxError"), Runs.w_doc).
Proof.
  repeat (split; [reflexivity|]).
  apply (proj1 (safe_read_xml_failures Runs.lib_broken Fixtures.tmp_xml Runs.w_doc
                  Fixtures.doc_no_rows (OtherException "XMLSyntaxError")
                  eq_refl eq_refl)).
  reflexivity.
Defined.

Lemma filter_frame_schema_witness :
  _filter_frame Runs.lib_direct Fixtures.df_events 0 10 (Some [4624]) None "§"
  = Ok (mkDF [("EventID", DInt); ("TimeGenerated", DDatetime); ("Message", DObject)]
             [[VInt 4624; VTime 5; VStr "logon§ interactive"]])
  /\ names (mkDF [("EventID", DInt); ("TimeGenerated", DDatetime); ("Message", DObject)]
                 [[VInt 4624; VTime 5; VStr "logon§ interactive"]])
     = names Fixtures.df_events
  /\ (length (rows (mkDF [("EventID", DInt); ("TimeGenerated", DDatetime);
                          ("Message", DObject)]
                         [[VInt 4624; VTime 5; VStr "logon§ interactive"]]))
      <= length (rows Fixtures.df_events))%nat.
Proof.
  split; [reflexivity|].
  exact (filter_frame_schema Runs.lib_direct Fixtures.df_events
           0 10 (Some [4624]) None "§" _ eq_refl).
Defined.

Lemma filter_frame_rectangular_witness :
  Forall (fun r => length r = length (columns Fixtures.df_events)) (rows Fixtures.df_events)
  /\ _filter_frame Runs.lib_direct Fixtures.df_events 0 10 (Some [4624]) None "§"
     = Ok (mkDF [("EventID", DInt); ("TimeGenerated", DDatetime); ("Message", DObject)]
                [[VInt 4624; VTime 5; VStr "logon§ interactive"]])
  /\ Forall (fun r => length r
                      = length (columns
                                  (mkDF [("EventID", DInt); ("TimeGenerated", DDatetime);
                                         ("Message", DObject)]
                                        [[VInt 4624; VTime 5; VStr "logon§ interactive"]])))
            (rows (mkDF [("EventID", DInt); ("TimeGenerated", DDatetime);
                         ("Message", DObject)]
                        [[VInt 4624; VTime 5; VStr "logon§ interactive"]])).
Proof.
  assert (H : Forall (fun r => length r = length (columns Fixtures.df_events))
                     (rows Fixtures.df_events)) by (repeat constructor).
  split; [exact H|]. split; [reflexivity|].
  exact (filter_frame_rectangular Runs.lib_direct Fixtures.df_events
           0 10 (Some [4624]) None "§" _ H eq_refl).
Defined.

Lemma norm_cell_clean_witness :
  PyStr.contains PyStr.comma (to_text Runs.lib_direct (VStr "failure")) = false
  /\ norm_cell Runs.lib_direct "§" (VStr "failure")
     = VStr (to_text Runs.lib_direct (VStr "failure")).
Proof.
  split; [reflexivity|].
  exact (norm_cell_clean Runs.lib_direct "§" (VStr "failure") eq_refl).
Defined.

Lemma assign_scalar_spec_witness :
  Forall (fun r => length r = length (columns Fixtures.df_events)) (rows Fixtures.df_events)
  /\ (exists k,
        col_index "SourceFile"
          (columns (assign_scalar "SourceFile" (VStr "a.evtx") Fixtures.df_events)) = Some k
        /\ Forall (fun r => r !! k = Some (VStr "a.evtx"))
                  (rows (assign_scalar "SourceFile" (VStr "a.evtx") Fixtures.df_events))).
Proof.
  assert (H : Forall (fun r => length r = length (columns Fixtures.df_events))
                     (rows Fixtures.df_events)) by (repeat constructor).
  split; [exact H|].
  exact (proj1 (assign_scalar_spec "SourceFile" (VStr "a.evtx") Fixtures.df_events H)).
Defined.

Lemma worker_contains_exceptions_witness :
  os_mkdtemp Fixtures.env_unopenable_log Fixtures.w0 "evtfilter_" = Ok Runs.tmp_dir
  /\ _worker Fixtures.env_unopenable_log Runs.lib_direct Runs.job Fixtures.w0
     = (Raise (OSError "out.csv.log"),
        snd (_worker Fixtures.env_unopenable_log Runs.lib_direct Runs.job Fixtures.w0))
  /\ (is_Exception (OSError "out.csv.log") = false
      \/ exists w1 exc,
           is_Exception exc = true
           /\ os_logging Fixtures.env_unopenable_log w1 ERROR
                ("Exception processing " ++ fp Runs.job ++ ": " ++ exn_str exc)
              = Some (OSError "out.csv.log")).
Proof.
  assert (H : _worker Fixtures.env_unopenable_log Runs.lib_direct Runs.job Fixtures.w0
              = (Raise (OSError "out.csv.log"),
                 snd (_worker Fixtures.env_unopenable_log Runs.lib_direct Runs.job
                        Fixtures.w0))).
  { vm_compute. reflexivity. }
  split; [reflexivity|]. split; [exact H|].
  exact (worker_contains_exceptions Fixtures.env_unopenable_log Runs.lib_direct Runs.job
           Fixtures.w0 Runs.tmp_dir (OSError "out.csv.log") _ eq_refl H).
Defined.

Lemma worker_frame_witness :
  (exists df,
     _worker Runs.env Runs.lib_direct Runs.job Fixtures.w0
     = (Ok (Some df), snd (_worker Runs.env Runs.lib_direct Runs.job Fixtures.w0))
     /\ In "SourceFile" (names df)).
Proof.
  assert (H : _worker Runs.env Runs.lib_direct Runs.job Fixtures.w0
              = (Ok (Some (mkDF [("EventID", DInt); ("TimeGenerated", DDatetime);
                                 ("Message", DObject); ("SourceFile", DObject)]
                                [[VInt 4624; VTime 5; VStr "logon§ interactive";
                                  VStr "a.evtx"];
                                 [VInt 4625; VTime 7; VStr "failure"; VStr "a.evtx"]])),
                 snd (_worker Runs.env Runs.lib_direct Runs.job Fixtures.w0))).
  { vm_compute. reflexivity. }
  eexists. split; [exact H|].
  exact (proj2 (worker_frame Runs.env Runs.lib_direct Runs.job Fixtures.w0 _ _ H)).
Defined.

Lemma worker_decoder_failure_witness :
  os_mkdtemp Fixtures.env_broken_log Fixtures.w0 "evtfilter_" = Ok Runs.tmp_dir
  /\ _safe_copy Fixtures.env_broken_log Runs.lib_direct (fp Runs.job) Runs.tmp_dir
       (mkWorld (<[Runs.tmp_dir:=Dir]> (fs Fixtures.w0))
                (trace Fixtures.w0 ++ [Mkdtemp Runs.tmp_dir]))
     = (Ok Runs.staged, Runs.w_staged)
  /\ subprocess_run Fixtures.env_broken_log Runs.w_staged
       (_build_lp_cmd (lp Runs.job) Runs.staged
          (path_join Runs.lib_direct Runs.tmp_dir "lp.xml"))
     = (Ok (1, "", "boom"), fs Runs.w_staged)
  /\ 1 <> 0
  /\ exists r w',
       _worker Fixtures.env_broken_log Runs.lib_direct Runs.job Fixtures.w0 = (r, w')
       /\ In (Logged ERROR (lp_failure_msg Runs.lib_direct Runs.job 1 "" "boom")) (trace w')
       /\ (r = Ok None
           \/ exists e, r = Raise e
                        /\ (is_Exception e = false
                            \/ exists w1 msg,
                                 os_logging Fixtures.env_broken_log w1 ERROR msg = Some e)).
Proof.
  assert (H1 : 1 <> 0) by discriminate.
  split; [reflexivity|]. split; [reflexivity|]. split; [reflexivity|]. split; [exact H1|].
  exact (worker_decoder_failure Fixtures.env_broken_log Runs.lib_direct Runs.job
           Fixtures.w0 Runs.tmp_dir Runs.staged Runs.w_staged 1 "" "boom"
           (fs Runs.w_staged) eq_refl eq_refl eq_refl H1).
Defined.

Lemma worker_empty_output_witness :
  os_mkdtemp (Fixtures.env_ok Fixtures.tmp_xml []) Fixtures.w0 "evtfilter_" = Ok Runs.tmp_dir
  /\ _safe_copy (Fixtures.env_ok Fixtures.tmp_xml []) Runs.lib_direct (fp Runs.job)
       Runs.tmp_dir
       (mkWorld (<[Runs.tmp_dir:=Dir]> (fs Fixtures.w0))
                (trace Fixtures.w0 ++ [Mkdtemp Runs.tmp_dir]))
     = (Ok Runs.staged, Runs.w_staged)
  /\ subprocess_run (Fixtures.env_ok Fixtures.tmp_xml []) Runs.w_staged
       (_build_lp_cmd (lp Runs.job) Runs.staged
          (path_join Runs.lib_direct Runs.tmp_dir "lp.xml"))
     = (Ok (0, "", ""), <[Fixtures.tmp_xml := File []]> (fs Runs.w_staged))
  /\ (forall content,
        <[Fixtures.tmp_xml := File []]> (fs Runs.w_staged)
          !! path_join Runs.lib_direct Runs.tmp_dir "lp.xml"
        = Some (File content) -> content = [])
  /\ os_logging (Fixtures.env_ok Fixtures.tmp_xml [])
       (mkWorld (<[Fixtures.tmp_xml := File []]> (fs Runs.w_staged))
          (trace Runs.w_staged
           ++ [Spawned (_build_lp_cmd (lp Runs.job) Runs.staged
                          (path_join Runs.lib_direct Runs.tmp_dir "lp.xml"))]))
       INFO (fp Runs.job ++ ": log contained 0 events") = None
  /\ exists w',
       _worker (Fixtures.env_ok Fixtures.tmp_xml []) Runs.lib_direct Runs.job Fixtures.w0
       = (Ok None, w')
       /\ trace w'
          = (trace Fixtures.w0
             ++ [Mkdtemp Runs.tmp_dir;
                 Spawned (_build_lp_cmd (lp Runs.job) Runs.staged
                            (path_join Runs.lib_direct Runs.tmp_dir "lp.xml"));
                 Logged INFO (fp Runs.job ++ ": log contained 0 events");
                 Rmtree Runs.tmp_dir])%list.
Proof.
  assert (H : forall content,
             <[Fixtures.tmp_xml := File []]> (fs Runs.w_staged)
               !! path_join Runs.lib_direct Runs.tmp_dir "lp.xml"
             = Some (File content) -> content = []).
  { intros content Hc. vm_compute in Hc. congruence. }
  split; [reflexivity|]. split; [reflexivity|]. split; [reflexivity|]. split; [exact H|].
  split; [reflexivity|].
  exact (worker_empty_output (Fixtures.env_ok Fixtures.tmp_xml []) Runs.lib_direct Runs.job
           Fixtures.w0 Runs.tmp_dir Runs.staged Runs.w_staged "" ""
           (<[Fixtures.tmp_xml := File []]> (fs Runs.w_staged))
           eq_refl eq_refl eq_refl H eq_refl).
Defined.

Example main_run_writes_table :
  fst (main Runs.env Runs.lib_direct Runs.ns Fixtures.w0) = Ok tt
  /\ trace (snd (main Runs.env Runs.lib_direct Runs.ns Fixtures.w0))
     = [Logged INFO "Scanning 1 files …";
        Mkdtemp "/tmp/evtfilter_0";
        Spawned (_build_lp_cmd "LogParser.exe" "/tmp/evtfilter_0/c0ffee_a.evtx"
                   Fixtures.tmp_xml);
        Rmtree "/tmp/evtfilter_0";
        WroteCsv "out.csv" ["EventID"; "TimeGenerated"; "Message"; "SourceFile"] 1;
        Logged INFO "Done. 1 rows → out.csv"].
Proof. split; vm_compute; reflexivity. Qed.

Lemma main_temp_dirs_balanced_witness :
  main Runs.env Runs.lib_direct Runs.ns Fixtures.w0
  = (Ok tt, snd (main Runs.env Runs.lib_direct Runs.ns Fixtures.w0))
  /\ exists added,
       trace (snd (main Runs.env Runs.lib_direct Runs.ns Fixtures.w0))
       = (trace Fixtures.w0 ++ added)%list
       /\ forall d, count (creates d) added = count (removes d) added.
Proof.
  assert (H : main Runs.env Runs.lib_direct Runs.ns Fixtures.w0
              = (Ok tt, snd (main Runs.env Runs.lib_direct Runs.ns Fixtures.w0))).
  { vm_compute. reflexivity. }
  split; [exact H|].
  exact (main_temp_dirs_balanced Runs.env Runs.lib_direct Runs.ns Fixtures.w0 _ H).
Defined.

Lemma main_output_discipline_witness :
  main Runs.env Runs.lib_recovering Runs.ns Fixtures.w0
  = (Ok tt, snd (main Runs.env Runs.lib_recovering Runs.ns Fixtures.w0))
  /\ exists added,
       trace (snd (main Runs.env Runs.lib_recovering Runs.ns Fixtures.w0))
       = (trace Fixtures.w0 ++ added)%list
       /\ ((exists before,
              added = (before ++ [Logged WARNING "No matching events found."])%list
              /\ Forall (fun ev => is_csv ev = false) before)
           \/ (exists before pre n msg,
                 added = (before
                          ++ [WroteCsv (ns_output Runs.ns) (pre ++ ["SourceFile"]) n;
                              Logged INFO msg])%list
                 /\ Forall (fun ev => is_csv ev = false) before
                 /\ forall d, count (creates d) before = count (removes d) before)).
Proof.
  assert (H : main Runs.env Runs.lib_recovering Runs.ns Fixtures.w0
              = (Ok tt, snd (main Runs.env Runs.lib_recovering Runs.ns Fixtures.w0))).
  { vm_compute. reflexivity. }
  split; [exact H|].
  exact (main_output_discipline Runs.env Runs.lib_recovering Runs.ns Fixtures.w0 _ H).
Defined.

Lemma main_no_event_files_witness :
  strptime Runs.lib_direct (ns_start_date Runs.ns) = Ok 0
  /\ strptime Runs.lib_direct (ns_end_date Runs.ns) = Ok 10
  /\ _load_id_list Runs.env_interrupted Runs.lib_direct (ns_event_ids Runs.ns)
       (ns_event_ids_file Runs.ns) Fixtures.w0 = (Ok (Some [4624]), Fixtures.w0)
  /\ _load_id_list Runs.env_interrupted Runs.lib_direct (ns_exclude_event_ids Runs.ns)
       (ns_exclude_event_ids_file Runs.ns) Fixtures.w0 = (Ok None, Fixtures.w0)
  /\ (forall dp names f,
        In (dp, names) (os_walk Runs.env_interrupted Fixtures.w0 (ns_dir Runs.ns)) ->
        In f names -> is_event_file f = false)
  /\ main Runs.env_interrupted Runs.lib_direct Runs.ns Fixtures.w0
     = (Raise (SystemExit ("No .evt/.evtx files under " ++ ns_dir Runs.ns)), Fixtures.w0).
Proof.
  assert (H : forall dp names f,
             In (dp, names) (os_walk Runs.env_interrupted Fixtures.w0 (ns_dir Runs.ns)) ->
             In f names -> is_event_file f = false).
  { intros dp names f [[= <- <-]|[]] [<-|[<-|[]]]; reflexivity. }
  split; [reflexivity|]. split; [reflexivity|]. split; [reflexivity|].
  split; [reflexivity|]. split; [exact H|].
  exact (main_no_event_files Runs.env_interrupted Runs.lib_direct Runs.ns Fixtures.w0
           0 10 (Some [4624]) None eq_refl eq_refl eq_refl eq_refl H).
Defined.
